(** * Mars lander guidance controller (lander.py): embedding and properties

    The controller is a Python 3 script.  Its data is modelled as the script
    has it: terrain vertices and telemetry are unbounded Python integers ([Z]),
    the gains [0.04] and [0.5] are binary64 literals, products of an integer
    with a gain are binary64 products, and [round] is Python 3's built-in.
    Binary64 arithmetic is the executable IEEE 754 specification of the
    standard library ([SpecFloat], precision 53, exponent bound 1024).

    Exceptions are values of an error monad; the mutable attribute
    [lander.state] is threaded through a state monad over the lander.  One
    method, [transition_to_stop], reads the module-level name [lander]
    instead of an attribute; whether that name is bound to the lander is
    carried along with the lander, and the method raises [NameError] where it
    is not. *)

From Stdlib Require Import ZArith List Bool Lia String QArith Qabs Qround.
From Stdlib Require Import Floats.SpecFloat.
Import ListNotations.
Open Scope Z_scope.


(** ** Python exceptions and results *)

Inductive exn : Type :=
| IndexError
| TypeError
| ValueError
| OverflowError
| RecursionError
| NameError
| Exception (msg : string).

Inductive result (A : Type) : Type :=
| Ok (a : A)
| Raise (e : exn).

Arguments Ok {A} a.
Arguments Raise {A} e.

(** ** Binary64 numbers *)

Module F64.

Definition prec : Z := 53.
Definition emax : Z := 1024.

Definition float : Type := spec_float.

(** The literal [0.5]: 2^52 * 2^-53. *)
Definition lit_0_5 : float := S754_finite false 4503599627370496 (-53).

(** The literal [0.04]: the double 0x3FA47AE147AE147B. *)
Definition lit_0_04 : float := S754_finite false 5764607523034235 (-57).

(** The literal [0.01]: the double 0x3F847AE147AE147B. *)
Definition lit_0_01 : float := S754_finite false 5764607523034235 (-59).

Definition mul (a b : float) : float := SFmul prec emax a b.

(** Conversion of a Python int, as [int * float] performs it: correctly
    rounded, [OverflowError] when the rounded value is not finite. *)
Definition of_int (n : Z) : result float :=
  match binary_normalize prec emax n 0 false with
  | S754_infinity _ => Raise OverflowError
  | f => Ok f
  end.

(** A zero, or a finite double with a mantissa below 2^53 and an exponent of
    at most [emax - prec]: what the rounding of an operation produces when it
    does not overflow. *)
Definition representable (f : float) : Prop :=
  match f with
  | S754_zero _ => True
  | S754_finite _ m e => Zpos m < 2 ^ 53 /\ e <= 971
  | _ => False
  end.

Definition is_finite (f : float) : bool :=
  match f with
  | S754_zero _ | S754_finite _ _ _ => true
  | _ => false
  end.

(** The rational number a finite double denotes (0 for the others). *)
Definition to_Q (f : float) : Q :=
  match f with
  | S754_finite s m e =>
      match e with
      | Z0 => inject_Z (cond_Zopp s (Zpos m))
      | Zpos p => inject_Z (cond_Zopp s (Zpos m) * Z.pow_pos 2 p)
      | Zneg p => Qmake (cond_Zopp s (Zpos m)) (Pos.pow 2 p)
      end
  | _ => 0%Q
  end.

(** Rounding of the non-negative rational [m / d] to an integer, ties to the
    even neighbour. *)
Definition round_half_even_div (m d : Z) : Z :=
  let q := m / d in
  let r := m mod d in
  match 2 * r ?= d with
  | Lt => q
  | Gt => q + 1
  | Eq => if Z.even q then q else q + 1
  end.

(** [round(x)] of a float: the nearest integer, ties to even; infinities and
    NaN cannot be converted to an int. *)
Definition round (f : float) : result Z :=
  match f with
  | S754_zero _ => Ok 0
  | S754_infinity _ => Raise OverflowError
  | S754_nan => Raise ValueError
  | S754_finite s m e =>
      match e with
      | Z0 => Ok (cond_Zopp s (Zpos m))
      | Zpos p => Ok (cond_Zopp s (Zpos m * Z.pow_pos 2 p))
      | Zneg p => Ok (cond_Zopp s (round_half_even_div (Zpos m) (Z.pow_pos 2 p)))
      end
  end.

End F64.

(** ** Python values handled by the controller *)

Inductive value : Type :=
| VNone
| VInt (n : Z)
| VFloat (f : F64.float).

(** [a * b] *)
Definition py_mul (a b : value) : result value :=
  match a, b with
  | VInt m, VInt n => Ok (VInt (m * n))
  | VInt m, VFloat g =>
      match F64.of_int m with
      | Ok f => Ok (VFloat (F64.mul f g))
      | Raise e => Raise e
      end
  | VFloat f, VInt n =>
      match F64.of_int n with
      | Ok g => Ok (VFloat (F64.mul f g))
      | Raise e => Raise e
      end
  | VFloat f, VFloat g => Ok (VFloat (F64.mul f g))
  | VNone, _ | _, VNone => Raise TypeError
  end.

(** [round(a)] with one argument *)
Definition py_round (a : value) : result Z :=
  match a with
  | VNone => Raise TypeError
  | VInt n => Ok n
  | VFloat f => F64.round f
  end.

(** The rational a numeric value denotes. *)
Definition value_to_Q (a : value) : Q :=
  match a with
  | VNone => 0%Q
  | VInt n => inject_Z n
  | VFloat f => F64.to_Q f
  end.

Definition is_number (a : value) : bool :=
  match a with
  | VNone => false
  | VInt _ => true
  | VFloat f => F64.is_finite f
  end.

(** ** Terrain: [Point], [LandingSpot], [Surface] *)

Record Point : Type := mkPoint { px : Z; py : Z }.

(** [LandingSpot.__init__(start, end)] *)
Record LandingSpot : Type := mkLandingSpot {
  spot_start : Point;
  spot_end : Point;
  left : Z;
  right : Z;
  height : Z
}.

Definition LandingSpot_init (start end_ : Point) : LandingSpot :=
  {| spot_start := start; spot_end := end_;
     left := px start; right := px end_; height := py start |}.

Module Surface.

(** A [Surface] is a mutable sequence over [self.list]. *)
Definition t : Type := list Point.

(** The test of the [if] in [find_safe_spot]. *)
Definition is_flat_and_wide (old_spot new_spot : Point) : bool :=
  (py new_spot =? py old_spot) && (px new_spot - px old_spot >=? 1000).

(** The [for new_spot in self.list[1:]] loop, [old_spot] being the loop
    variable carried from one iteration to the next.  The diagnostic print to
    stderr is left out. *)
Fixpoint find_safe_spot_loop (old_spot : Point) (rest : list Point) : result LandingSpot :=
  match rest with
  | [] => Raise (Exception "Failed to find safe spot")
  | new_spot :: rest' =>
      if is_flat_and_wide old_spot new_spot
      then Ok (LandingSpot_init old_spot new_spot)
      else find_safe_spot_loop new_spot rest'
  end.

Definition find_safe_spot (self : t) : result LandingSpot :=
  match self with
  | [] => Raise IndexError
  | old_spot :: rest => find_safe_spot_loop old_spot rest
  end.

End Surface.

(** ** Control states *)

(** The four state classes. *)
Inductive StateClass : Type :=
| Hover
| StopOverLandingSpot
| Descend
| Stop.

(** A state instance: its class and its [next_state] attribute, which holds
    [None] or a class.  The attributes [rotate_limit], [scale] and [cutoff]
    get the same value in every instance of a class and are the constants
    below. *)
Record State : Type := mkState {
  klass : StateClass;
  next_state : option StateClass
}.

(** ** The lander *)

(** One telemetry record, the seven arguments of [update_state]. *)
Record Telemetry : Type := mkTelemetry {
  x : Z;
  y : Z;
  speed_h : Z;
  speed_v : Z;
  fuel : Z;
  rotate : Z;
  power : Z
}.

(** The module-level name [lander].  The classes do not define it: it is
    unbound in the module as imported, and the main block binds it to the
    lander it creates (line 415).  One method reads it,
    [StopOverLandingSpot.transition_to_stop] (line 337).  A binding to any
    other object is outside this model. *)
Inductive GlobalName : Type :=
| Unbound
| BoundToLander.

(** A [Lander] on which [update_state] has run at least once, as in every
    tick of the game loop.  [now] groups the attributes [x] .. [power], [old]
    the attributes [x_old] .. [power_old] ([None] before the second record).
    The attribute [surface] is read by [__init__] only, to find the landing
    spot, and is not kept.  [transitions] is a ghost field: the list of
    assignments to
    [lander.state] made by the states, each as (assigning state,
    new state), oldest first.  [global_lander] is no attribute either: it
    tells whether the module-level name [lander] is bound to this object. *)
Record Lander : Type := mkLander {
  now : Telemetry;
  old : option Telemetry;
  landing_spot : LandingSpot;
  state : State;
  transitions : list (State * State);
  global_lander : GlobalName
}.

(** The command printed by [Lander.control]. *)
Record Command : Type := mkCommand { rotationDeg : Z; powerLevel : Z }.

(** Computations that read and update the lander and may raise. *)
Definition M (A : Type) : Type := Lander -> result (A * Lander).

Definition ret {A} (a : A) : M A := fun l => Ok (a, l).

Definition bind {A B} (m : M A) (k : A -> M B) : M B :=
  fun l => match m l with
           | Ok (a, l') => k a l'
           | Raise e => Raise e
           end.

Definition raise {A} (e : exn) : M A := fun _ => Raise e.

Definition lift {A} (r : result A) : M A :=
  fun l => match r with Ok a => Ok (a, l) | Raise e => Raise e end.

Definition get : M Lander := fun l => Ok (l, l).

Notation "x <- m ;; k" := (bind m (fun x => k))
  (at level 61, m at next level, right associativity).

(** The lander after [self.lander.state = new], executed by the state
    [self]. *)
Definition assign_state (self new : State) (l : Lander) : Lander :=
  {| now := now l; old := old l; landing_spot := landing_spot l;
     state := new;
     transitions := transitions l ++ [(self, new)];
     global_lander := global_lander l |}.

Definition set_state (self new : State) : M unit :=
  fun l => Ok (tt, assign_state self new l).

Module LanderM.

(** [Lander.update_state] *)
Definition update_state (t : Telemetry) (self : Lander) : Lander :=
  {| now := t; old := Some (now self); landing_spot := landing_spot self;
     state := state self; transitions := transitions self;
     global_lander := global_lander self |}.

Definition is_over_landing_spot (self : Lander) : bool :=
  (left (landing_spot self) <=? x (now self)) && (x (now self) <=? right (landing_spot self)).

Definition altitude (self : Lander) : Z :=
  y (now self) - height (landing_spot self).

Definition is_left_of_landing_spot (self : Lander) : bool :=
  x (now self) <? left (landing_spot self).

Definition is_right_of_landing_spot (self : Lander) : bool :=
  x (now self) >? right (landing_spot self).

(** [Lander.distance_to_landing_spot]: the function has no [else] branch and
    no [raise]; over the landing spot it falls off its end and returns
    [None]. *)
Definition distance_to_landing_spot (self : Lander) : result value :=
  if is_left_of_landing_spot self then
    Ok (VInt (x (now self) - left (landing_spot self)))
  else if is_right_of_landing_spot self then
    Ok (VInt (x (now self) - right (landing_spot self)))
  else Ok VNone.

End LanderM.

(** Calling a class: [cls(lander)] and [cls(lander, arg)].  [Hover] and
    [Descend] default [next_state] to [None]; [StopOverLandingSpot] and [Stop]
    require it; [StopOverLandingSpot.__init__] then overwrites the attribute
    with [Descend]. *)
Definition new1 (cls : StateClass) : result State :=
  match cls with
  | Hover => Ok (mkState Hover None)
  | Descend => Ok (mkState Descend None)
  | StopOverLandingSpot | Stop => Raise TypeError
  end.

Definition new2 (cls : StateClass) (arg : option StateClass) : result State :=
  match cls with
  | Hover => Ok (mkState Hover arg)
  | StopOverLandingSpot => Ok (mkState StopOverLandingSpot (Some Descend))
  | Descend => Ok (mkState Descend arg)
  | Stop => Ok (mkState Stop arg)
  end.

(** Calling the value held by a [next_state] attribute; [None] is not
    callable. *)
Definition call1 (f : option StateClass) : result State :=
  match f with
  | Some cls => new1 cls
  | None => Raise TypeError
  end.

Definition call2 (f : option StateClass) (arg : option StateClass) : result State :=
  match f with
  | Some cls => new2 cls arg
  | None => Raise TypeError
  end.

(** *** [State]: the base class *)

Module StateBase.

Definition MAX_ROTATION : Z := 90.
Definition MIN_POWER : Z := 0.
Definition MAX_POWER : Z := 4.

(** [self.rotate_limit], set to [MAX_ROTATION] by [State.__init__]. *)
Definition rotate_limit : Z := MAX_ROTATION.

(** The property [control_rotate], given the method [update_rotation] of the
    instance. *)
Definition control_rotate (update_rotation : M value) : M Z :=
  v <- update_rotation ;;
  desired_rotation <- lift (py_round v) ;;
  if desired_rotation >? rotate_limit then ret rotate_limit
  else if desired_rotation <? - rotate_limit then ret (- rotate_limit)
  else ret desired_rotation.

(** The property [control_power], given the method [update_power] of the
    instance. *)
Definition control_power (update_power : M value) : M Z :=
  v <- update_power ;;
  desired_power <- lift (py_round v) ;;
  if desired_power <? MIN_POWER then ret MIN_POWER
  else if desired_power >? MAX_POWER then ret MAX_POWER
  else ret desired_power.


Definition update_rotation : M value := ret (VInt 0).
Definition update_power : M value := ret (VInt 4).

End StateBase.

(** *** [Hover] *)

Module HoverM.

Definition update_rotation : M value :=
  l <- get ;; ret (VInt (speed_h (now l))).

Definition update_power : M value :=
  l <- get ;;
  if speed_v (now l) >? 0 then ret (VInt 3) else ret (VInt 4).

End HoverM.

(** *** [Descend] *)

Module DescendM.

Definition SAFE_DESCENT_SPEED : Z := -18.
Definition LANDING_ALTITUDE : Z := 100.
Definition scale : F64.float := F64.lit_0_01.

Definition is_not_safe_to_land (l : Lander) : bool :=
  (LanderM.altitude l <? LANDING_ALTITUDE) && negb (LanderM.is_over_landing_spot l).

Definition descent_is_too_fast (l : Lander) : bool :=
  speed_v (now l) <? SAFE_DESCENT_SPEED.

Definition update_power : M value :=
  l <- get ;;
  if is_not_safe_to_land l then ret (VInt 4)
  else if descent_is_too_fast l then ret (VInt 4)
  else ret (VInt 3).

Definition update_rotation : M value :=
  l <- get ;;
  if LanderM.altitude l >? LANDING_ALTITUDE then ret (VInt (speed_h (now l)))
  else ret (VInt 0).

End DescendM.

(** *** [StopOverLandingSpot] *)

Module StopOverLandingSpotM.

Definition MAX_SPEED : Z := 20.
Definition MAX_ANGLE : Z := 45.
Definition HOVER_ANGLE : Z := 0.
Definition scale : F64.float := F64.lit_0_04.

Definition is_too_fast (l : Lander) : bool :=
  negb ((- MAX_SPEED <=? speed_h (now l)) && (speed_h (now l) <=? MAX_SPEED)).

Definition has_safe_speed (l : Lander) : bool :=
  (- MAX_SPEED <=? speed_h (now l)) && (speed_h (now l) <=? MAX_SPEED).

Section Methods.

(** [self.lander.state.update_rotation()]: the method of whichever state is
    active when the call is made. *)
Variable dispatch_update_rotation : M value.

Variable self : State.

(** [transition_to_stop].  The new state is built from the module-level name
    [lander], not from [self.lander]: evaluating [Stop(lander,
    StopOverLandingSpot)] raises [NameError] where the name is unbound,
    before anything is assigned. *)
Definition transition_to_stop : M value :=
  l <- get ;;
  match global_lander l with
  | Unbound => raise NameError
  | BoundToLander =>
      s <- lift (new2 Stop (Some StopOverLandingSpot)) ;;
      _ <- set_state self s ;;
      dispatch_update_rotation
  end.

Definition stop_and_transition_to_next_state : M value :=
  l <- get ;;
  if has_safe_speed l then
    s <- lift (call1 (next_state self)) ;;
    _ <- set_state self s ;;
    dispatch_update_rotation
  else transition_to_stop.

(** Neither [if] taken: the method falls off its end and returns [None]. *)
Definition move_towards_landing_spot : M value :=
  l <- get ;;
  if LanderM.is_left_of_landing_spot l then
    if speed_h (now l) <? MAX_SPEED then
      d <- lift (LanderM.distance_to_landing_spot l) ;;
      lift (py_mul d (VFloat scale))
    else if speed_h (now l) >? MAX_SPEED then ret (VInt MAX_ANGLE)
    else ret (VInt HOVER_ANGLE)
  else if LanderM.is_right_of_landing_spot l then
    if speed_h (now l) >? - MAX_SPEED then
      d <- lift (LanderM.distance_to_landing_spot l) ;;
      lift (py_mul d (VFloat scale))
    else if speed_h (now l) <? - MAX_SPEED then ret (VInt (- MAX_ANGLE))
    else ret (VInt HOVER_ANGLE)
  else ret VNone.

Definition update_rotation : M value :=
  l <- get ;;
  if is_too_fast l then transition_to_stop
  else if LanderM.is_over_landing_spot l then stop_and_transition_to_next_state
  else move_towards_landing_spot.

End Methods.

Definition update_power : M value :=
  l <- get ;;
  if (LanderM.altitude l <? 100) && negb (LanderM.is_over_landing_spot l) then ret (VInt 4)
  else if speed_v (now l) >? -18 then ret (VInt 3)
  else ret (VInt 4).

End StopOverLandingSpotM.

(** *** [Stop] *)

Module StopM.

Definition scale : F64.float := F64.lit_0_5.
Definition cutoff : Z := 20.

Section Methods.

Variable dispatch_update_rotation : M value.

Variable self : State.

Definition update_rotation : M value :=
  l <- get ;;
  if (- cutoff <=? speed_h (now l)) && (speed_h (now l) <=? cutoff) then
    s <- lift (call2 (next_state self) None) ;;
    _ <- set_state self s ;;
    dispatch_update_rotation
  else lift (py_mul (VInt (speed_h (now l))) (VFloat scale)).

End Methods.

(** [update_power] is inherited from [Hover]. *)
Definition update_power : M value := HoverM.update_power.

End StopM.

(** *** Method dispatch and the tick *)

(** [state.update_rotation()] for a state instance.  A transition ends in a
    call of the new state's method, so the methods call each other; [depth]
    bounds the nesting of these calls, and exceeding it is Python's
    [RecursionError]; three levels always suffice. *)
Fixpoint update_rotation (depth : nat) (self : State) : M value :=
  match depth with
  | O => raise RecursionError
  | S depth' =>
      let dispatch : M value := l <- get ;; update_rotation depth' (state l) in
      match klass self with
      | Hover => HoverM.update_rotation
      | StopOverLandingSpot => StopOverLandingSpotM.update_rotation dispatch self
      | Descend => DescendM.update_rotation
      | Stop => StopM.update_rotation dispatch self
      end
  end.

(** [state.update_power()] for a state instance. *)
Definition update_power (self : State) : M value :=
  match klass self with
  | Hover => HoverM.update_power
  | StopOverLandingSpot => StopOverLandingSpotM.update_power
  | Descend => DescendM.update_power
  | Stop => StopM.update_power
  end.

(** [Lander.control_rotate]: the property of the active state. *)
Definition control_rotate (depth : nat) : M Z :=
  l <- get ;; StateBase.control_rotate (update_rotation depth (state l)).

(** [Lander.control_power]: the property of the state active when it is
    read, which is after [control_rotate] has run. *)
Definition control_power : M Z :=
  l <- get ;; StateBase.control_power (update_power (state l)).

(** [Lander.control]: the format arguments are evaluated left to right; the
    printed pair is the result. *)
Definition control (depth : nat) : M Command :=
  r <- control_rotate depth ;;
  p <- control_power ;;
  ret (mkCommand r p).

(** One iteration of the game loop: [update_state] then [control]. *)
Definition tick (depth : nat) (t : Telemetry) : M Command :=
  fun l => control depth (LanderM.update_state t l).

(** The game loop over a list of telemetry records, collecting the commands. *)
Fixpoint run (depth : nat) (ts : list Telemetry) : M (list Command) :=
  match ts with
  | [] => ret []
  | t :: ts' =>
      c <- tick depth t ;;
      cs <- run depth ts' ;;
      ret (c :: cs)
  end.

(** [Lander(surface)] followed by the first [update_state]: the state is
    [Hover(self, None)] and the landing spot is the one the surface finds.
    No module-level name is bound to the new object yet. *)
Definition Lander_init (surface : Surface.t) (t : Telemetry) : result Lander :=
  match Surface.find_safe_spot surface with
  | Ok spot =>
      Ok {| now := t; old := None; landing_spot := spot;
            state := mkState Hover None; transitions := [];
            global_lander := Unbound |}
  | Raise e => Raise e
  end.

(** A lander whose active state is [s], with no transition recorded, in the
    module as imported: the name [lander] is unbound. *)
Definition lander_in (s : State) (spot : LandingSpot) (t : Telemetry) : Lander :=
  {| now := t; old := None; landing_spot := spot; state := s; transitions := [];
     global_lander := Unbound |}.

(** The lander once the module-level name [lander] is bound to it, as by
    [lander = Lander(surface)] in the main block. *)
Definition bound_as_global (l : Lander) : Lander :=
  {| now := now l; old := old l; landing_spot := landing_spot l;
     state := state l; transitions := transitions l;
     global_lander := BoundToLander |}.

(** [StopOverLandingSpot(lander, arg)], the state the main block installs
    before the loop. *)
Definition approach_zone (arg : option StateClass) : State :=
  match new2 StopOverLandingSpot arg with
  | Ok s => s
  | Raise _ => mkState StopOverLandingSpot arg
  end.

(** ** Predicates used in the statements *)

(** Rounding to the nearest integer with exact halves away from zero, as the
    specification words it: floor(|q| + 1/2) with the sign of [q]. *)
Definition round_half_away_from_zero (q : Q) : Z :=
  let a := Qabs.Qabs q in
  let n := Qfloor (a + (1 # 2)) in
  if Qle_bool 0 q then n else - n.

(** [n] is a nearest integer to [q], and the even one when [q] is half way
    between two integers. *)
Definition nearest_ties_to_even (q : Q) (n : Z) : Prop :=
  (Qabs.Qabs (q - inject_Z n) <= 1 # 2)%Q /\
  ((Qabs.Qabs (q - inject_Z n) == 1 # 2)%Q -> Z.even n = true).

(** Two landers that differ at most in the ghost field and in the previous
    telemetry record, which no method reads. *)
Definition same_vehicle (l1 l2 : Lander) : Prop :=
  now l1 = now l2 /\ landing_spot l1 = landing_spot l2 /\ state l1 = state l2 /\
  global_lander l1 = global_lander l2.

(** Two computations that agree on such landers: both raise the same
    exception, or both return, with related results and such landers again. *)
Definition agree {A} (R : A -> A -> Prop) (m1 m2 : M A) : Prop :=
  forall l1 l2, same_vehicle l1 l2 ->
    match m1 l1, m2 l2 with
    | Ok (a1, l1'), Ok (a2, l2') => R a1 a2 /\ same_vehicle l1' l2'
    | Raise e1, Raise e2 => e1 = e2
    | _, _ => False
    end.

(** The lander with its active state replaced, nothing recorded. *)
Definition with_state (s : State) (l : Lander) : Lander :=
  {| now := now l; old := old l; landing_spot := landing_spot l;
     state := s; transitions := transitions l;
     global_lander := global_lander l |}.

(** What a tick shows: the command and the state that is active after it. *)
Definition outcome (r : result (Command * Lander)) : result (Command * State) :=
  match r with
  | Ok (c, l) => Ok (c, state l)
  | Raise e => Raise e
  end.

(** An int whose conversion to a double cannot overflow. *)
Definition in_float_range (n : Z) : Prop := Z.abs n < 2 ^ 1023.

(** The integers a tick may multiply by a gain: the horizontal speed and the
    offsets to the two edges of the landing spot. *)
Definition record_in_range (spot : LandingSpot) (t : Telemetry) : Prop :=
  in_float_range (speed_h t) /\
  in_float_range (x t - left spot) /\
  in_float_range (x t - right spot).

Definition telemetry_in_range (l : Lander) : Prop :=
  record_in_range (landing_spot l) (now l).

(** States whose [next_state] attribute can be called the way their class
    calls it: what [StopOverLandingSpot.__init__] leaves in the attribute, and
    for [Stop] a class whose instance can itself run. *)
Definition runnable (s : State) : Prop :=
  match klass s with
  | StopOverLandingSpot => next_state s = Some Descend
  | Stop => next_state s = Some Hover \/ next_state s = Some StopOverLandingSpot \/
            next_state s = Some Descend
  | Hover | Descend => True
  end.

(** The rotation method of [s] reaches [transition_to_stop]: [s] is an
    approach state and the horizontal speed is beyond [MAX_SPEED]. *)
Definition delegates (s : State) (l : Lander) : Prop :=
  klass s = StopOverLandingSpot /\ 20 < Z.abs (speed_h (now l)).

(** The module-level name [lander] is bound wherever the rotation method of
    [s] reads it. *)
Definition name_resolves (s : State) (l : Lander) : Prop :=
  global_lander l = BoundToLander \/ ~ delegates s l.

(** The three states of the automatic sequence, as their constructors build
    them. *)
Definition ApproachZone : State := mkState StopOverLandingSpot (Some Descend).
Definition BleedSpeed : State := mkState Stop (Some StopOverLandingSpot).
Definition DescendState : State := mkState Descend None.

Definition in_sequence (s : State) : Prop :=
  s = ApproachZone \/ s = BleedSpeed \/ s = DescendState.

(** The transitions the specification lists, by class. *)
Definition listed_transition (tr : State * State) : Prop :=
  (klass (fst tr) = StopOverLandingSpot /\ klass (snd tr) = Stop) \/
  (klass (fst tr) = Stop /\ klass (snd tr) = StopOverLandingSpot) \/
  (klass (fst tr) = StopOverLandingSpot /\ klass (snd tr) = Descend).

(** The clamp of [control_rotate] and of [control_power] on an integer. *)
Definition clamp (lo hi n : Z) : Z := Z.max lo (Z.min hi n).

(** The adjacent pair at positions [i], [i+1] of the profile. *)
Definition adjacent (profile : Surface.t) (i : nat) (a b : Point) : Prop :=
  nth_error profile i = Some a /\ nth_error profile (S i) = Some b.

(** Equal height and at least 1000 apart. *)
Definition qualifies (a b : Point) : Prop :=
  py a = py b /\ px b - px a >= 1000.

(** [(a, b)] at position [i] is the first qualifying adjacent pair. *)
Definition first_qualifying (profile : Surface.t) (i : nat) (a b : Point) : Prop :=
  adjacent profile i a b /\ qualifies a b /\
  forall j a' b', (j < i)%nat -> adjacent profile j a' b' -> ~ qualifies a' b'.

Definition no_qualifying (profile : Surface.t) : Prop :=
  forall j a' b', adjacent profile j a' b' -> ~ qualifies a' b'.


(** ** Scenarios *)

(** The terrain and the telemetry record of the end-to-end scenario. *)
Definition terrain_example : Surface.t :=
  [mkPoint 0 100; mkPoint 1000 100; mkPoint 2000 150].

Definition zone_0_1000 : LandingSpot :=
  LandingSpot_init (mkPoint 0 100) (mkPoint 1000 100).

Definition telemetry_too_fast : Telemetry := mkTelemetry 1500 2000 (-50) 0 500 0 0.

(** A zone further right, and a vehicle 500 to the left of it, at rest. *)
Definition zone_1000_2000 : LandingSpot :=
  LandingSpot_init (mkPoint 1000 100) (mkPoint 2000 100).

Definition telemetry_500_left : Telemetry := mkTelemetry 500 2000 0 0 500 0 0.

(** A vehicle 500 to the right of that zone, at rest. *)
Definition telemetry_500_right : Telemetry := mkTelemetry 2500 2000 0 0 500 0 0.

(** Over the zone [0, 1000], high up, falling at exactly 18. *)
Definition telemetry_falling_18 : Telemetry := mkTelemetry 500 2000 0 (-18) 500 0 0.

(** On the left edge of the zone [0, 1000] at horizontal speed 20 and 21. *)
Definition telemetry_edge_20 : Telemetry := mkTelemetry 0 2000 20 0 500 0 0.
Definition telemetry_edge_21 : Telemetry := mkTelemetry 0 2000 21 0 500 0 0.

(** The doubles -20.0, 20.0, -25.0 and 10.5. *)
Definition double_minus_20 : F64.float := S754_finite true 5629499534213120 (-48).
Definition double_20 : F64.float := S754_finite false 5629499534213120 (-48).
Definition double_minus_25 : F64.float := S754_finite true 7036874417766400 (-48).
Definition double_10_5 : F64.float := S754_finite false 5910974510923776 (-49).

(** Three records: too fast right of the zone, then slow right of the zone,
    then slow over the zone. *)
Definition journey : list Telemetry :=
  [telemetry_too_fast;
   mkTelemetry 1200 2000 (-10) 0 490 (-25) 4;
   mkTelemetry 500 2000 0 0 480 8 3].

(** The doubles 0.5, -0.5, 1.5 and 2.5. *)
Definition double_minus_0_5 : F64.float := S754_finite true 4503599627370496 (-53).
Definition double_1_5 : F64.float := S754_finite false 6755399441055744 (-52).
Definition double_2_5 : F64.float := S754_finite false 5629499534213120 (-51).

(** The commands and the lander the three records of [journey] lead to. *)
Definition journey_commands : list Command :=
  [mkCommand (-25) 4; mkCommand 8 3; mkCommand 0 3].

Definition journey_end : Lander :=
  {| now := mkTelemetry 500 2000 0 0 480 8 3;
     old := Some (mkTelemetry 1200 2000 (-10) 0 490 (-25) 4);
     landing_spot := zone_0_1000;
     state := DescendState;
     transitions := [(ApproachZone, BleedSpeed); (BleedSpeed, ApproachZone);
                     (ApproachZone, DescendState)];
     global_lander := BoundToLander |}.

(** ** Proof automation *)

(** Arithmetic on the exponent function of binary64. *)
Ltac fexp_lia := unfold fexp, emin, F64.prec, F64.emax in *; lia.

(** Two to a non-negative power is positive. *)
Ltac pow2_pos := apply Z.pow_pos_nonneg; lia.

(** ** The rest of [Surface]: the sequence methods *)

Module SurfaceOps.

(** The position an int index [i] denotes in a list of [n] items, as
    [list[i]] resolves it: a negative index counts from the end; [None] when
    it falls outside. *)
Definition position (n : nat) (i : Z) : option nat :=
  let j := if i <? 0 then i + Z.of_nat n else i in
  if (0 <=? j) && (j <? Z.of_nat n) then Some (Z.to_nat j) else None.

(** [__len__] *)
Definition len (self : Surface.t) : Z := Z.of_nat (List.length self).

(** [__getitem__] with an int index *)
Definition getitem (self : Surface.t) (i : Z) : result Point :=
  match position (List.length self) i with
  | Some k =>
      match nth_error self k with
      | Some p => Ok p
      | None => Raise IndexError
      end
  | None => Raise IndexError
  end.

(** [__setitem__] with an int index *)
Definition setitem (self : Surface.t) (i : Z) (v : Point) : result Surface.t :=
  match position (List.length self) i with
  | Some k => Ok (firstn k self ++ v :: skipn (S k) self)
  | None => Raise IndexError
  end.

(** [__delitem__] with an int index *)
Definition delitem (self : Surface.t) (i : Z) : result Surface.t :=
  match position (List.length self) i with
  | Some k => Ok (firstn k self ++ skipn (S k) self)
  | None => Raise IndexError
  end.

(** The range of a C [Py_ssize_t], on a 64-bit build of CPython. *)
Definition PY_SSIZE_T_MAX : Z := 2 ^ 63 - 1.
Definition PY_SSIZE_T_MIN : Z := - 2 ^ 63.

(** [list.insert] once its index is a [Py_ssize_t]: the index is clamped
    into [0, len] after counting a negative one from the end. *)
Definition list_insert (self : Surface.t) (i : Z) (v : Point) : Surface.t :=
  let n := len self in
  let j := if i <? 0 then Z.max 0 (i + n) else Z.min i n in
  firstn (Z.to_nat j) self ++ v :: skipn (Z.to_nat j) self.

(** [insert] with an int index: [list.insert] first converts the index to a
    [Py_ssize_t], which raises [OverflowError] for an int outside its range. *)
Definition insert (self : Surface.t) (i : Z) (v : Point) : result Surface.t :=
  if (PY_SSIZE_T_MIN <=? i) && (i <=? PY_SSIZE_T_MAX)
  then Ok (list_insert self i v)
  else Raise OverflowError.

(** [append] and [extend], the mixin methods of a mutable sequence:
    [append(v)] is [insert(len(self), v)] and [extend(vs)] appends each item
    in turn.  The index of [append] is the length of a list, which always is
    a [Py_ssize_t]: its conversion cannot fail. *)
Definition append (self : Surface.t) (v : Point) : Surface.t :=
  list_insert self (len self) v.

Definition extend (self : Surface.t) (vs : list Point) : Surface.t :=
  fold_left append vs self.

(** [Surface.__init__], given its positional arguments *)
Definition init (args : list Point) : Surface.t := extend [] args.

End SurfaceOps.

(** ** Start-up of the script *)

(** [codingame_initilisation] on the parsed points: the surface is built by
    appending them in input order, and the landing spot is looked up once for
    the diagnostic print. *)
Definition codingame_initilisation (points : list Point) : result Surface.t :=
  let surface := fold_left SurfaceOps.append points (SurfaceOps.init []) in
  match Surface.find_safe_spot surface with
  | Ok _ => Ok surface
  | Raise e => Raise e
  end.

(** The main block up to the game loop: the surface, [Lander(surface)], which
    installs [Hover(self, None)] and looks the landing spot up again, then
    [lander.state = StopOverLandingSpot(lander)].  The result is the landing
    spot and the state installed. *)
Definition main_setup (points : list Point) : result (LandingSpot * State) :=
  match codingame_initilisation points with
  | Ok surface =>
      match Surface.find_safe_spot surface with
      | Ok spot =>
          match new1 StopOverLandingSpot with
          | Ok s => Ok (spot, s)
          | Raise e => Raise e
          end
      | Raise e => Raise e
      end
  | Raise e => Raise e
  end.

(** ** Further predicates used in the statements *)

(** [num / den] rounded to the nearest integer, ties to even, for either
    sign of [num] ([den] positive). *)
Definition round_half_even_Z (num den : Z) : Z :=
  if 0 <=? num then F64.round_half_even_div num den
  else - F64.round_half_even_div (- num) den.

(** The nearest integer to [d / 25], which is never half way. *)
Definition nearest_25th (d : Z) : Z := (2 * d + 25) / 50.

(** [d * 0.04], rounded, is the nearest integer to [d / 25]. *)
Definition product_0_04_rounds_well (d : Z) : bool :=
  match py_mul (VInt d) (VFloat F64.lit_0_04) with
  | Ok v =>
      match py_round v with
      | Ok n => n =? nearest_25th d
      | Raise _ => false
      end
  | Raise _ => false
  end.

(** The integers [lo], [lo + 1], ..., [lo + n - 1]. *)
Fixpoint Z_range (lo : Z) (n : nat) : list Z :=
  match n with
  | O => []
  | S n' => lo :: Z_range (lo + 1) n'
  end.

(** What a rotation method may do to the lander: nothing, one assignment to
    [lander.state], or two. *)
Definition at_most_two_assignments (self : State) (l l' : Lander) : Prop :=
  l' = l \/
  (exists s1, l' = assign_state self s1 l) \/
  (exists s1 s2, l' = assign_state s1 s2 (assign_state self s1 l)).

(** The three positions of the vehicle relative to the landing spot. *)
Inductive Position : Type := LeftOf | Over | RightOf.

Definition position_of (l : Lander) : option Position :=
  match LanderM.is_left_of_landing_spot l, LanderM.is_over_landing_spot l,
        LanderM.is_right_of_landing_spot l with
  | true, false, false => Some LeftOf
  | false, true, false => Some Over
  | false, false, true => Some RightOf
  | _, _, _ => None
  end.




(** Two records that need no braking: slow right of the zone [0, 1000], then
    slow over it; the commands and the lander they lead to from the approach
    state, in the module as imported. *)
Definition slow_journey : list Telemetry :=
  [mkTelemetry 1200 2000 (-10) 0 490 0 0;
   mkTelemetry 500 2000 0 0 480 8 3].

Definition slow_journey_commands : list Command :=
  [mkCommand 8 3; mkCommand 0 3].

Definition slow_journey_end : Lander :=
  {| now := mkTelemetry 500 2000 0 0 480 8 3;
     old := Some (mkTelemetry 1200 2000 (-10) 0 490 0 0);
     landing_spot := zone_0_1000;
     state := DescendState;
     transitions := [(ApproachZone, DescendState)];
     global_lander := Unbound |}.
(** * Properties *)

(** ** Binary64 rounding *)

Module F64Facts.

Lemma digits2_pos_size p : digits2_pos p = Pos.size p.
Proof. induction p; simpl; congruence. Qed.

Lemma Zdigits2_nonneg m : 0 <= Zdigits2 m.
Proof. destruct m; simpl; lia. Qed.

Lemma Zdigits2_bounds p :
  2 ^ (Zdigits2 (Zpos p) - 1) <= Zpos p < 2 ^ Zdigits2 (Zpos p).
Proof.
  change (Zdigits2 (Zpos p)) with (Zpos (digits2_pos p)).
  rewrite digits2_pos_size.
  pose proof (Pos.size_gt p) as Hgt. pose proof (Pos.size_le p) as Hle.
  apply Pos2Z.pos_lt_pos in Hgt. apply Pos2Z.pos_le_pos in Hle.
  rewrite Pos2Z.inj_pow in Hgt, Hle.
  split; [|assumption].
  replace (Z.pos (Pos.size p)) with (Z.succ (Z.pos (Pos.size p) - 1)) in Hle by lia.
  rewrite Z.pow_succ_r in Hle by lia.
  lia.
Qed.

(** digits of a non-negative integer fit in [k] bits iff it is below 2^k *)
Lemma Zdigits2_le_iff m k : 0 <= m -> 0 <= k -> (Zdigits2 m <= k <-> m < 2 ^ k).
Proof.
  intros Hm Hk. destruct m as [|p|p]; [| |lia].
  - simpl. split; [intros _; pow2_pos | intros _; assumption].
  - pose proof (Zdigits2_bounds p) as [Hlo Hhi].
    pose proof (Zdigits2_nonneg (Zpos p)) as Hd.
    split; intros H.
    + eapply Z.lt_le_trans; [exact Hhi|]. apply Z.pow_le_mono_r; lia.
    + destruct (Z_le_gt_dec (Zdigits2 (Zpos p)) k) as [|Hgt]; [assumption|exfalso].
      assert (2 ^ k <= 2 ^ (Zdigits2 (Z.pos p) - 1)) by (apply Z.pow_le_mono_r; lia).
      lia.
Qed.

Lemma shr_1_m r : 0 <= shr_m r -> shr_m (shr_1 r) = shr_m r / 2.
Proof.
  destruct r as [m rb sb]. cbn [shr_m]. intros Hm.
  destruct m as [|[p|p|]|p]; cbn [shr_1 shr_m]; try lia; try reflexivity.
  - apply Z.div_unique with (r := 1); lia.
  - apply Z.div_unique with (r := 0); lia.
Qed.

Lemma iter_pos_shr_1_m p : forall r, 0 <= shr_m r ->
  shr_m (iter_pos shr_1 p r) = shr_m r / 2 ^ Zpos p.
Proof.
  assert (Hpow : forall q, 0 < 2 ^ Zpos q) by (intros; pow2_pos).
  induction p as [p IH|p IH|]; intros r Hr; cbn [iter_pos].
  - assert (H1 : 0 <= shr_m (shr_1 r))
      by (rewrite shr_1_m by assumption; apply Z.div_pos; lia).
    assert (H2 : 0 <= shr_m (iter_pos shr_1 p (shr_1 r)))
      by (rewrite IH by assumption; apply Z.div_pos; [assumption|apply Hpow]).
    rewrite IH, IH, shr_1_m by assumption.
    pose proof (Hpow p).
    rewrite !Z.div_div by lia.
    f_equal.
    replace (Z.pos p~1) with (1 + Z.pos p + Z.pos p) by lia.
    rewrite !Z.pow_add_r, Z.pow_1_r by lia. ring.
  - assert (H2 : 0 <= shr_m (iter_pos shr_1 p r))
      by (rewrite IH by assumption; apply Z.div_pos; [assumption|apply Hpow]).
    rewrite IH, IH by assumption.
    pose proof (Hpow p).
    rewrite !Z.div_div by lia.
    f_equal.
    replace (Z.pos p~0) with (Z.pos p + Z.pos p) by lia.
    rewrite Z.pow_add_r by lia. reflexivity.
  - rewrite shr_1_m by assumption. reflexivity.
Qed.

Lemma shr_fexp_spec m e l : 0 <= m ->
  let '(r, e') := shr_fexp F64.prec F64.emax m e l in
  e' = Z.max e (fexp F64.prec F64.emax (Zdigits2 m + e)) /\ shr_m r = m / 2 ^ (e' - e).
Proof.
  intros Hm. unfold shr_fexp, shr.
  assert (Hr : shr_m (shr_record_of_loc m l) = m)
    by (destruct l as [|[]]; reflexivity).
  destruct (fexp F64.prec F64.emax (Zdigits2 m + e) - e) as [|p|p] eqn:Hn.
  - split; [lia|]. rewrite Hr, Z.sub_diag, Z.pow_0_r, Z.div_1_r. reflexivity.
  - split; [lia|]. rewrite iter_pos_shr_1_m by (rewrite Hr; assumption).
    rewrite Hr. f_equal. f_equal. lia.
  - split; [lia|]. rewrite Hr, Z.sub_diag, Z.pow_0_r, Z.div_1_r. reflexivity.
Qed.

Lemma round_nearest_even_bounds m l :
  m <= round_nearest_even m l <= m + 1.
Proof.
  destruct l as [|[]]; simpl; try lia. destruct (Z.even m); lia.
Qed.

Lemma lt_pow_Zdigits2 m : 0 <= m -> m < 2 ^ Zdigits2 m.
Proof.
  intros Hm. apply Zdigits2_le_iff; [assumption|apply Zdigits2_nonneg|lia].
Qed.

Lemma div_pow_lt m j k : 0 <= m -> 0 <= j -> 0 <= k -> m < 2 ^ (k + j) -> m / 2 ^ j < 2 ^ k.
Proof.
  intros Hm Hj Hk H. apply Z.div_lt_upper_bound.
  - pow2_pos.
  - rewrite <- Z.pow_add_r by lia. replace (j + k) with (k + j) by lia. assumption.
Qed.

Lemma pow_le_mono_2 a b : a <= b -> 0 <= a -> 2 ^ a <= 2 ^ b.
Proof. intros. apply Z.pow_le_mono_r; lia. Qed.

(** the shape of every result of the rounding *)
Lemma binary_round_aux_shape s m e l : 0 <= m ->
  match binary_round_aux F64.prec F64.emax s m e l with
  | S754_zero s' => s' = s
  | S754_infinity s' => s' = s
  | S754_nan => False
  | S754_finite s' m' e' => s' = s /\ Zpos m' < 2 ^ 53 /\ e' <= 971
  end.
Proof.
  intros Hm. unfold binary_round_aux.
  pose proof (shr_fexp_spec m e l Hm) as H1.
  destruct (shr_fexp F64.prec F64.emax m e l) as [r1 e1]. destruct H1 as [He1 Hm1].
  pose proof (round_nearest_even_bounds (shr_m r1) (loc_of_shr_record r1)) as Hrne.
  set (m2 := round_nearest_even (shr_m r1) (loc_of_shr_record r1)) in *.
  assert (H0m1 : 0 <= shr_m r1).
  { rewrite Hm1. apply Z.div_pos; [assumption|pow2_pos]. }
  assert (Hm2 : 0 <= m2) by lia.
  pose proof (shr_fexp_spec m2 e1 loc_Exact Hm2) as H2.
  destruct (shr_fexp F64.prec F64.emax m2 e1 loc_Exact) as [r2 e2]. destruct H2 as [He2 Hr2].
  assert (Hlt : shr_m r2 < 2 ^ 53).
  { rewrite Hr2. apply div_pow_lt; try lia.
    eapply Z.lt_le_trans; [apply lt_pow_Zdigits2; assumption|].
    pose proof (Zdigits2_nonneg m2).
    apply pow_le_mono_2; [|assumption].
    revert He2. fexp_lia. }
  assert (H0r2 : 0 <= shr_m r2).
  { rewrite Hr2. apply Z.div_pos; [assumption|pow2_pos]. }
  destruct (shr_m r2) as [|m'|m'] eqn:Hs; [reflexivity| |lia].
  destruct (e2 <=? F64.emax - F64.prec) eqn:Hle; [|reflexivity].
  apply Z.leb_le in Hle. unfold F64.prec, F64.emax in Hle. repeat split; lia.
Qed.

(** no overflow when the exponent and the magnitude are in range *)
Lemma binary_round_aux_finite s m e l :
  0 <= m -> e <= 971 -> m < 2 ^ (1023 - e) ->
  forall s', binary_round_aux F64.prec F64.emax s m e l <> S754_infinity s'.
Proof.
  intros Hm He Hlt s'. unfold binary_round_aux.
  pose proof (shr_fexp_spec m e l Hm) as H1.
  destruct (shr_fexp F64.prec F64.emax m e l) as [r1 e1]. destruct H1 as [He1 Hm1].
  pose proof (round_nearest_even_bounds (shr_m r1) (loc_of_shr_record r1)) as Hrne.
  set (m2 := round_nearest_even (shr_m r1) (loc_of_shr_record r1)) in *.
  assert (H0m1 : 0 <= shr_m r1).
  { rewrite Hm1. apply Z.div_pos; [assumption|pow2_pos]. }
  assert (Hm2 : 0 <= m2) by lia.
  assert (Hd : Zdigits2 m + e <= 1023).
  { assert (Zdigits2 m <= 1023 - e) by (apply Zdigits2_le_iff; lia). lia. }
  assert (He1' : e <= e1 <= 971).
  { revert He1. fexp_lia. }
  assert (Hm1lt : shr_m r1 < 2 ^ (1023 - e1)).
  { rewrite Hm1. apply div_pow_lt; try lia.
    replace (1023 - e1 + (e1 - e)) with (1023 - e) by lia. assumption. }
  assert (Hd2 : Zdigits2 m2 + e1 <= 1024).
  { assert (Zdigits2 m2 <= 1024 - e1); [|lia].
    apply Zdigits2_le_iff; try lia.
    replace (1024 - e1) with (Z.succ (1023 - e1)) by lia.
    rewrite Z.pow_succ_r by lia. lia. }
  pose proof (shr_fexp_spec m2 e1 loc_Exact Hm2) as H2.
  destruct (shr_fexp F64.prec F64.emax m2 e1 loc_Exact) as [r2 e2]. destruct H2 as [He2 Hr2].
  assert (He2' : e2 <= 971).
  { revert He2. fexp_lia. }
  destruct (shr_m r2) as [|m'|m']; try discriminate.
  assert (Hle : (e2 <=? F64.emax - F64.prec) = true) by (apply Z.leb_le; unfold F64.prec, F64.emax; lia).
  rewrite Hle. discriminate.
Qed.

Lemma shl_align_spec mx ex ex' :
  let '(mz, ez) := shl_align mx ex ex' in
  ez = Z.min ex ex' /\ Zpos mz = Zpos mx * 2 ^ (ex - ez).
Proof.
  unfold shl_align. destruct (ex' - ex) as [|d|d] eqn:Hd.
  - split; [lia|]. rewrite Z.sub_diag, Z.pow_0_r. lia.
  - split; [lia|]. rewrite Z.sub_diag, Z.pow_0_r. lia.
  - split; [lia|]. change (Pos.iter xO mx d) with (shift_pos d mx).
    rewrite shift_pos_correct, Z.pow_pos_fold.
    replace (ex - ex') with (Z.pos d) by lia. lia.
Qed.

Lemma binary_round_finite s m e :
  e <= 971 -> Zpos m < 2 ^ (1023 - e) ->
  forall s', binary_round F64.prec F64.emax s m e <> S754_infinity s'.
Proof.
  intros He Hlt s'. unfold binary_round.
  pose proof (shl_align_spec m e (fexp F64.prec F64.emax (Z.pos (digits2_pos m) + e))) as Hal.
  destruct (shl_align m e (fexp F64.prec F64.emax (Z.pos (digits2_pos m) + e))) as [mz ez].
  destruct Hal as [Hez Hmz].
  apply binary_round_aux_finite; try lia.
  rewrite Hmz. replace (1023 - ez) with ((1023 - e) + (e - ez)) by lia.
  rewrite Z.pow_add_r by lia.
  apply Z.mul_lt_mono_pos_r; [pow2_pos|assumption].
Qed.

Lemma binary_round_shape s m e :
  match binary_round F64.prec F64.emax s m e with
  | S754_nan => False
  | S754_infinity _ => True
  | f => F64.representable f
  end.
Proof.
  unfold binary_round.
  destruct (shl_align m e (fexp F64.prec F64.emax (Z.pos (digits2_pos m) + e))) as [mz ez].
  pose proof (binary_round_aux_shape s (Zpos mz) ez loc_Exact) as H.
  destruct (binary_round_aux F64.prec F64.emax s (Z.pos mz) ez loc_Exact); simpl;
    try exact I; apply H; lia.
Qed.

(** every successful conversion of an int gives a representable double *)
Lemma of_int_representable n f : F64.of_int n = Ok f -> F64.representable f.
Proof.
  unfold F64.of_int, binary_normalize. destruct n as [|m|m].
  - intros [= <-]. exact I.
  - pose proof (binary_round_shape false m 0) as H.
    destruct (binary_round F64.prec F64.emax false m 0); try discriminate;
      intros [= <-]; try contradiction; assumption.
  - pose proof (binary_round_shape true m 0) as H.
    destruct (binary_round F64.prec F64.emax true m 0); try discriminate;
      intros [= <-]; try contradiction; assumption.
Qed.

(** the conversion of an int below 2^1023 in magnitude succeeds *)
Lemma of_int_ok n : Z.abs n < 2 ^ 1023 -> exists f, F64.of_int n = Ok f.
Proof.
  intros Hn. unfold F64.of_int, binary_normalize. destruct n as [|m|m].
  - eexists; reflexivity.
  - pose proof (binary_round_finite false m 0) as H.
    destruct (binary_round F64.prec F64.emax false m 0) as [| s' | |]; try (eexists; reflexivity).
    exfalso. apply (H ltac:(lia) ltac:(simpl in Hn |- *; lia) s'). reflexivity.
  - pose proof (binary_round_finite true m 0) as H.
    destruct (binary_round F64.prec F64.emax true m 0) as [| s' | |]; try (eexists; reflexivity).
    exfalso. apply (H ltac:(lia) ltac:(simpl in Hn |- *; lia) s'). reflexivity.
Qed.

(** a representable double times a gain of magnitude at most 1/2 is
    representable *)
Lemma mul_representable f sg mg eg :
  F64.representable f -> eg < 0 -> Zpos mg <= 2 ^ (- eg - 1) ->
  F64.representable (F64.mul f (S754_finite sg mg eg)).
Proof.
  intros Hf Heg Hmg. destruct f as [s| | |s m e]; simpl in Hf; try contradiction.
  - exact I.
  - destruct Hf as [Hm He]. unfold F64.mul, SFmul.
    pose proof (binary_round_aux_shape (xorb s sg) (Zpos (m * mg)) (e + eg) loc_Exact) as Hs.
    pose proof (binary_round_aux_finite (xorb s sg) (Zpos (m * mg)) (e + eg) loc_Exact) as Hfin.
    assert (Hlt : Z.pos (m * mg) < 2 ^ (1023 - (e + eg))).
    { rewrite Pos2Z.inj_mul.
      assert (Hp : 0 < 2 ^ (- eg - 1)) by (pow2_pos).
      apply Z.lt_le_trans with (2 ^ 53 * 2 ^ (- eg - 1)).
      - apply Z.le_lt_trans with (Z.pos m * 2 ^ (- eg - 1)).
        + apply Z.mul_le_mono_nonneg_l; lia.
        + apply Z.mul_lt_mono_pos_r; assumption.
      - rewrite <- Z.pow_add_r by lia. apply pow_le_mono_2; lia. }
    destruct (binary_round_aux F64.prec F64.emax (xorb s sg) (Z.pos (m * mg)) (e + eg) loc_Exact)
      as [| s' | |]; simpl.
    + exact I.
    + apply (Hfin ltac:(lia) ltac:(lia) Hlt s'). reflexivity.
    + apply Hs. lia.
    + apply Hs. lia.
Qed.

Lemma round_representable f : F64.representable f -> exists n, F64.round f = Ok n.
Proof.
  destruct f as [s| | |s m [|p|p]]; simpl; try contradiction; intros _; eexists; reflexivity.
Qed.

(** *** Exact cases *)

Lemma digits2_pos_iter_xO m k :
  Zpos (digits2_pos (Pos.iter xO m k)) = Zpos (digits2_pos m) + Zpos k.
Proof.
  induction k as [|k IH] using Pos.peano_ind.
  - cbn. lia.
  - rewrite Pos.iter_succ. cbn [digits2_pos]. lia.
Qed.

Lemma iter_pos_shr_1_exact k : forall m,
  iter_pos shr_1 k (Build_shr_record (Zpos (Pos.iter xO m k)) false false) =
  Build_shr_record (Zpos m) false false.
Proof.
  induction k as [k IH|k IH|]; intros m; cbn [iter_pos Pos.iter].
  - cbn [shr_1 orb]. rewrite IH, IH. reflexivity.
  - rewrite IH, IH. reflexivity.
  - reflexivity.
Qed.

(** a 53-bit mantissa with an exponent in range is left as it is *)
Lemma binary_round_aux_canonical s m e :
  Zpos (digits2_pos m) = 53 -> -1074 <= e <= 971 ->
  binary_round_aux F64.prec F64.emax s (Zpos m) e loc_Exact = S754_finite s m e.
Proof.
  intros Hd He.
  assert (Hn : fexp F64.prec F64.emax (Zdigits2 (Zpos m) + e) - e = 0).
  { cbn [Zdigits2]. fexp_lia. }
  unfold binary_round_aux, shr_fexp. rewrite Hn.
  cbn [shr shr_record_of_loc loc_of_shr_record shr_m round_nearest_even].
  rewrite Hn. cbn [shr shr_record_of_loc shr_m].
  assert (Hle : (e <=? F64.emax - F64.prec) = true)
    by (apply Z.leb_le; unfold F64.prec, F64.emax; lia).
  rewrite Hle. reflexivity.
Qed.

(** a 53-bit mantissa followed by [k] zero bits is shifted back exactly *)
Lemma binary_round_aux_shifted s m k e :
  Zpos (digits2_pos m) = 53 -> -1074 <= e + Zpos k <= 971 ->
  binary_round_aux F64.prec F64.emax s (Zpos (Pos.iter xO m k)) e loc_Exact =
  S754_finite s m (e + Zpos k).
Proof.
  intros Hd He.
  assert (Hn : fexp F64.prec F64.emax (Zdigits2 (Zpos (Pos.iter xO m k)) + e) - e = Zpos k).
  { cbn [Zdigits2]. rewrite digits2_pos_iter_xO.
    fexp_lia. }
  assert (Hn' : fexp F64.prec F64.emax (Zdigits2 (Zpos m) + (e + Zpos k)) - (e + Zpos k) = 0).
  { cbn [Zdigits2]. fexp_lia. }
  unfold binary_round_aux, shr_fexp. rewrite Hn.
  cbn [shr shr_record_of_loc]. rewrite iter_pos_shr_1_exact.
  cbn [loc_of_shr_record shr_m round_nearest_even].
  rewrite Hn'. cbn [shr shr_record_of_loc shr_m].
  assert (Hle : (e + Zpos k <=? F64.emax - F64.prec) = true)
    by (apply Z.leb_le; unfold F64.prec, F64.emax; lia).
  rewrite Hle. reflexivity.
Qed.

(** the conversion of an int below 2^53 in magnitude is exact: a 53-bit
    mantissa [mz] and an exponent [ez] with [mz * 2^ez] the int *)
Lemma binary_round_int s m :
  Zpos m < 2 ^ 53 ->
  exists mz ez, binary_round F64.prec F64.emax s m 0 = S754_finite s mz ez /\
    Zpos (digits2_pos mz) = 53 /\ -52 <= ez <= 0 /\ Zpos mz = Zpos m * 2 ^ (- ez).
Proof.
  intros Hm.
  assert (Hd : 1 <= Zpos (digits2_pos m) <= 53).
  { split; [lia|]. apply (Zdigits2_le_iff (Zpos m) 53); lia. }
  unfold binary_round, shl_align.
  destruct (fexp F64.prec F64.emax (Z.pos (digits2_pos m) + 0) - 0) as [|d|d] eqn:Hn;
    revert Hn; unfold fexp, emin, F64.prec, F64.emax; intros Hn;
    try lia.
  - exists m, 0. rewrite binary_round_aux_canonical by lia.
    repeat split; try lia.
  - exists (Pos.iter xO m d), (Z.max (Z.pos (digits2_pos m) + 0 - 53) (3 - 1024 - 53)).
    assert (Hdz : Zpos (digits2_pos (Pos.iter xO m d)) = 53)
      by (rewrite digits2_pos_iter_xO; lia).
    rewrite binary_round_aux_canonical by lia.
    repeat split; try lia.
    change (Pos.iter xO m d) with (shift_pos d m).
    rewrite shift_pos_correct, Z.pow_pos_fold.
    replace (- Z.max (Z.pos (digits2_pos m) + 0 - 53) (3 - 1024 - 53)) with (Zpos d) by lia.
    lia.
Qed.

Lemma mul_pow2_52 m : (m * 4503599627370496)%positive = Pos.iter xO m 52.
Proof.
  apply Pos2Z.inj. change (Pos.iter xO m 52) with (shift_pos 52 m).
  rewrite shift_pos_correct, Pos2Z.inj_mul.
  change (Z.pow_pos 2 52) with 4503599627370496. lia.
Qed.

(** halving a normal double is exact *)
Lemma mul_half s mz ez :
  Zpos (digits2_pos mz) = 53 -> -1073 <= ez <= 972 ->
  F64.mul (S754_finite s mz ez) F64.lit_0_5 = S754_finite s mz (ez - 1).
Proof.
  intros Hd He. unfold F64.mul, F64.lit_0_5, SFmul.
  rewrite mul_pow2_52, xorb_false_r.
  rewrite binary_round_aux_shifted by lia.
  f_equal. lia.
Qed.

(** the conversion of an int below 2^53 in magnitude is exact *)
Lemma of_int_exact n :
  Z.abs n < 2 ^ 53 ->
  (n = 0 /\ F64.of_int n = Ok (S754_zero false)) \/
  exists s mz ez, F64.of_int n = Ok (S754_finite s mz ez) /\
    Zpos (digits2_pos mz) = 53 /\ -52 <= ez <= 0 /\
    cond_Zopp s (Zpos mz) = n * 2 ^ (- ez).
Proof.
  intros Hn. destruct n as [|m|m].
  - left. split; reflexivity.
  - right. destruct (binary_round_int false m ltac:(lia)) as (mz & ez & Heq & Hd & He & Hv).
    exists false, mz, ez. unfold F64.of_int, binary_normalize.
    rewrite Heq. repeat split; try assumption; try lia.
  - right. destruct (binary_round_int true m ltac:(lia)) as (mz & ez & Heq & Hd & He & Hv).
    exists true, mz, ez. unfold F64.of_int, binary_normalize.
    rewrite Heq. repeat split; try assumption; try lia.
    cbn [cond_Zopp]. lia.
Qed.

(** [n * 0.5] for an int below 2^53 in magnitude: the double that is exactly
    [n / 2] *)
Lemma py_mul_half_exact n :
  Z.abs n < 2 ^ 53 ->
  exists f, py_mul (VInt n) (VFloat F64.lit_0_5) = Ok (VFloat f) /\
            F64.is_finite f = true /\ (F64.to_Q f == n # 2)%Q.
Proof.
  intros Hn. unfold py_mul.
  destruct (of_int_exact n Hn) as [[-> ->]|(s & mz & ez & -> & Hd & He & Hv)].
  - eexists. split; [reflexivity|]. split; reflexivity.
  - rewrite mul_half by lia.
    eexists. split; [reflexivity|]. split; [reflexivity|].
    unfold F64.to_Q. destruct (ez - 1) as [|p|p] eqn:Hp; try lia.
    unfold Qeq. cbn [Qnum Qden]. rewrite Hv.
    rewrite Pos2Z.inj_pow. replace (Z.pos p) with (1 + - ez) by lia.
    rewrite Z.pow_add_r, Z.pow_1_r by lia. lia.
Qed.

End F64Facts.

Import F64Facts.


(** ** [round] *)

Lemma round_half_even_div_spec m d : 0 <= m -> 0 < d ->
  let n := F64.round_half_even_div m d in
  Z.abs (m - n * d) * 2 <= d /\
  (Z.abs (m - n * d) * 2 = d -> Z.even n = true).
Proof.
  intros Hm Hd. unfold F64.round_half_even_div.
  pose proof (Z.div_mod m d ltac:(lia)) as Hdm.
  pose proof (Z.mod_pos_bound m d Hd) as Hr.
  set (q := m / d) in *. set (r := m mod d) in *. clearbody q r.
  assert (E0 : m - q * d = r) by lia.
  assert (E1 : m - (q + 1) * d = r - d) by lia.
  destruct (Z.compare_spec (2 * r) d) as [Hc|Hc|Hc].
  - destruct (Z.even q) eqn:Hev.
    + rewrite E0. split; [lia|intros _; assumption].
    + rewrite E1. split; [lia|]. intros _.
      rewrite Z.add_1_r, Z.even_succ, <- Z.negb_even, Hev. reflexivity.
  - rewrite E0. split; [lia|intros; exfalso; lia].
  - rewrite E1. split; [lia|intros; exfalso; lia].
Qed.

Lemma cond_Zopp_mul s a b : cond_Zopp s (a * b) = cond_Zopp s a * b.
Proof. destruct s; simpl; lia. Qed.

Lemma cond_Zopp_even s n : Z.even (cond_Zopp s n) = Z.even n.
Proof. destruct s; simpl; [apply Z.even_opp|reflexivity]. Qed.

Lemma Qabs_diff_same q : (Qabs (q - q) == 0)%Q.
Proof.
  assert (H : (q - q == 0)%Q) by ring. rewrite H. reflexivity.
Qed.

Lemma nearest_same n : nearest_ties_to_even (inject_Z n) n.
Proof.
  unfold nearest_ties_to_even. rewrite Qabs_diff_same.
  split; [discriminate|]. intros H. discriminate H.
Qed.

(** [round] of a finite double is a nearest integer, ties to even *)
Lemma round_nearest f : F64.is_finite f = true ->
  exists n, F64.round f = Ok n /\ nearest_ties_to_even (F64.to_Q f) n.
Proof.
  destruct f as [s| | |s m [|p|p]]; cbn [F64.is_finite F64.round F64.to_Q];
    try discriminate; intros _; eexists; (split; [reflexivity|]).
  - apply (nearest_same 0).
  - apply nearest_same.
  - rewrite cond_Zopp_mul. apply nearest_same.
  - pose proof (round_half_even_div_spec (Zpos m) (Z.pow_pos 2 p) ltac:(lia)
                  ltac:(rewrite Z.pow_pos_fold; pow2_pos)) as [H1 H2].
    set (n := F64.round_half_even_div (Z.pos m) (Z.pow_pos 2 p)) in *.
    unfold nearest_ties_to_even.
    clearbody n.
    assert (Habs : (Qabs ((cond_Zopp s (Z.pos m) # 2 ^ p) - inject_Z (cond_Zopp s n))
                   == (Z.abs (Z.pos m - n * Z.pow_pos 2 p) # 2 ^ p))%Q).
    { unfold Qeq, Qabs, Qminus, Qplus, Qopp, inject_Z. cbn [Qnum Qden].
      rewrite Pos2Z.inj_mul, Pos2Z.inj_pow_pos. rewrite Z.mul_1_r.
      f_equal; [|lia].
      destruct s; cbn [cond_Zopp]; lia. }
    rewrite Habs. split.
    + unfold Qle. cbn [Qnum Qden]. rewrite Pos2Z.inj_pow_pos. lia.
    + intros Heq. rewrite cond_Zopp_even. apply H2.
      unfold Qeq in Heq. cbn [Qnum Qden] in Heq. rewrite Pos2Z.inj_pow_pos in Heq. lia.
Qed.

(** ** Terrain scan *)

Section FindSafeSpot.

Import Surface.

Lemma is_flat_and_wide_iff a b : is_flat_and_wide a b = true <-> qualifies a b.
Proof.
  unfold is_flat_and_wide, qualifies.
  rewrite andb_true_iff, Z.eqb_eq, Z.geb_le. lia.
Qed.

Lemma is_flat_and_wide_false a b : is_flat_and_wide a b = false <-> ~ qualifies a b.
Proof.
  rewrite <- is_flat_and_wide_iff. destruct (is_flat_and_wide a b); split; congruence.
Qed.

Lemma adjacent_cons p profile j a b :
  adjacent (p :: profile) (S j) a b <-> adjacent profile j a b.
Proof. unfold adjacent. simpl. tauto. Qed.

Lemma find_safe_spot_loop_spec rest : forall old_spot,
  match find_safe_spot_loop old_spot rest with
  | Ok spot => exists i a b,
      first_qualifying (old_spot :: rest) i a b /\ spot = LandingSpot_init a b
  | Raise e =>
      e = Exception "Failed to find safe spot" /\ no_qualifying (old_spot :: rest)
  end.
Proof.
  induction rest as [|new_spot rest IH]; intros old_spot; simpl.
  - split; [reflexivity|].
    intros j a' b' [_ Hb]. destruct j; simpl in Hb; discriminate.
  - destruct (is_flat_and_wide old_spot new_spot) eqn:Hw.
    + exists 0%nat, old_spot, new_spot. split; [|reflexivity].
      split; [split; reflexivity|].
      split; [apply is_flat_and_wide_iff; assumption|].
      intros j a' b' Hj. lia.
    + specialize (IH new_spot).
      destruct (find_safe_spot_loop new_spot rest) as [spot|e].
      * destruct IH as (i & a & b & (Hadj & Hq & Hmin) & ->).
        exists (S i), a, b. split; [|reflexivity].
        split; [apply adjacent_cons; assumption|].
        split; [assumption|].
        intros [|j] a' b' Hlt Hadj'.
        -- destruct Hadj' as [Ha Hb]. simpl in Ha, Hb.
           injection Ha as <-. injection Hb as <-.
           apply is_flat_and_wide_false; assumption.
        -- apply (Hmin j); [lia|]. apply adjacent_cons in Hadj'. assumption.
      * destruct IH as [-> Hno]. split; [reflexivity|].
        intros [|j] a' b' Hadj'.
        -- destruct Hadj' as [Ha Hb]. simpl in Ha, Hb.
           injection Ha as <-. injection Hb as <-.
           apply is_flat_and_wide_false; assumption.
        -- apply (Hno j). apply adjacent_cons in Hadj'. assumption.
Qed.

Lemma first_qualifying_unique profile i a b i' a' b' :
  first_qualifying profile i a b -> first_qualifying profile i' a' b' ->
  i = i' /\ a = a' /\ b = b'.
Proof.
  intros (Hadj & Hq & Hmin) (Hadj' & Hq' & Hmin').
  assert (i = i') as <-.
  { destruct (Nat.lt_trichotomy i i') as [H|[H|H]]; [|assumption|].
    - exfalso. apply (Hmin' i a b H Hadj Hq).
    - exfalso. apply (Hmin i' a' b' H Hadj' Hq'). }
  destruct Hadj as [Ha Hb], Hadj' as [Ha' Hb'].
  split; [reflexivity|]. split; congruence.
Qed.

(** C2. On a terrain profile of at least two points, [find_safe_spot] returns
    the landing spot of the first adjacent pair [(a, b)], in terrain order,
    with [a.y == b.y] and [b.x - a.x >= 1000], as the zone [left = a.x],
    [right = b.x], [height = a.y]; it raises its "no landing zone" exception
    exactly when no adjacent pair qualifies, and raises nothing else; on
    [(0,100), (1000,100), (1500,200)] the zone is [0, 1000, 100].  (That the
    points ascend by x is not needed.) *)
Theorem find_safe_spot_first_pair (profile : Surface.t) :
  (2 <= List.length profile)%nat ->
  (forall spot, find_safe_spot profile = Ok spot <->
     exists i a b, first_qualifying profile i a b /\
       spot = LandingSpot_init a b /\
       left spot = px a /\ right spot = px b /\ height spot = py a) /\
  (find_safe_spot profile = Raise (Exception "Failed to find safe spot") <->
     no_qualifying profile) /\
  (forall e, find_safe_spot profile = Raise e ->
     e = Exception "Failed to find safe spot") /\
  let example := [mkPoint 0 100; mkPoint 1000 100; mkPoint 1500 200] in
  exists spot, find_safe_spot example = Ok spot /\
    left spot = 0 /\ right spot = 1000 /\ height spot = 100.
Proof.
  intros Hlen.
  destruct profile as [|old_spot rest]; [simpl in Hlen; lia|].
  unfold find_safe_spot.
  pose proof (find_safe_spot_loop_spec rest old_spot) as Hspec.
  destruct (find_safe_spot_loop old_spot rest) as [spot0|e0].
  - destruct Hspec as (i & a & b & Hfirst & ->).
    split; [|split; [|split]].
    + intros spot. split.
      * intros [= <-]. exists i, a, b. repeat split; try apply Hfirst.
      * intros (i' & a' & b' & Hfirst' & -> & _).
        destruct (first_qualifying_unique _ _ _ _ _ _ _ Hfirst Hfirst') as (_ & <- & <-).
        reflexivity.
    + split; [discriminate|].
      intros Hno. exfalso.
      destruct Hfirst as (Hadj & Hq & _). apply (Hno i a b Hadj Hq).
    + discriminate.
    + eexists. split; [reflexivity|]. repeat split.
  - destruct Hspec as [-> Hno].
    split; [|split; [|split]].
    + intros spot. split; [discriminate|].
      intros (i & a & b & (Hadj & Hq & _) & _). exfalso.
      apply (Hno i a b Hadj Hq).
    + split; [intros _; assumption | reflexivity].
    + intros e [= <-]. reflexivity.
    + eexists. split; [reflexivity|]. repeat split.
Qed.

Lemma find_safe_spot_first_pair_witness :
  let profile := [mkPoint 0 100; mkPoint 1000 100; mkPoint 2000 150] in
  (2 <= List.length profile)%nat /\
  find_safe_spot profile = Ok (LandingSpot_init (mkPoint 0 100) (mkPoint 1000 100)).
Proof.
  split; [simpl; lia|].
  apply (find_safe_spot_first_pair
           [mkPoint 0 100; mkPoint 1000 100; mkPoint 2000 150]); [simpl; lia|].
  exists 0%nat, (mkPoint 0 100), (mkPoint 1000 100).
  repeat split; simpl; try lia.
Defined.

End FindSafeSpot.

(** ** The state machine: equations of the methods *)

Lemma hover_rotation k ns l :
  update_rotation (S k) (mkState Hover ns) l = Ok (VInt (speed_h (now l)), l).
Proof. reflexivity. Qed.

Lemma descend_rotation k ns l :
  update_rotation (S k) (mkState Descend ns) l =
  Ok (if LanderM.altitude l >? 100 then VInt (speed_h (now l)) else VInt 0, l).
Proof.
  cbn. unfold DescendM.update_rotation, bind, get, ret, DescendM.LANDING_ALTITUDE.
  destruct (LanderM.altitude l >? 100); reflexivity.
Qed.

Lemma within_iff c v : ((- c <=? v) && (v <=? c)) = true <-> Z.abs v <= c.
Proof. rewrite andb_true_iff, !Z.leb_le. lia. Qed.

Lemma not_within_iff c v : ((- c <=? v) && (v <=? c)) = false <-> c < Z.abs v.
Proof. rewrite andb_false_iff, !Z.leb_gt. lia. Qed.

Lemma stop_rotation_unfold k ns l :
  update_rotation (S k) (mkState Stop ns) l =
  StopM.update_rotation
    (bind get (fun l' => update_rotation k (state l')))
    (mkState Stop ns) l.
Proof. reflexivity. Qed.

Lemma stop_rotation_fast k ns l :
  20 < Z.abs (speed_h (now l)) ->
  update_rotation (S k) (mkState Stop ns) l =
  lift (py_mul (VInt (speed_h (now l))) (VFloat F64.lit_0_5)) l.
Proof.
  intros Hh. rewrite stop_rotation_unfold.
  unfold StopM.update_rotation, bind at 1, get at 1.
  rewrite (proj2 (not_within_iff StopM.cutoff _) Hh). reflexivity.
Qed.

Lemma stop_rotation_slow k ns l :
  Z.abs (speed_h (now l)) <= 20 ->
  update_rotation (S k) (mkState Stop ns) l =
  match call2 ns None with
  | Ok s => update_rotation k s (assign_state (mkState Stop ns) s l)
  | Raise e => Raise e
  end.
Proof.
  intros Hh. rewrite stop_rotation_unfold.
  unfold StopM.update_rotation, bind at 1, get at 1.
  rewrite (proj2 (within_iff StopM.cutoff _) Hh).
  unfold bind, lift, set_state, get. cbn [next_state].
  destruct (call2 ns None) as [s|e]; reflexivity.
Qed.

Lemma too_fast_iff l :
  StopOverLandingSpotM.is_too_fast l = true <-> 20 < Z.abs (speed_h (now l)).
Proof.
  unfold StopOverLandingSpotM.is_too_fast.
  rewrite negb_true_iff. apply not_within_iff.
Qed.

Lemma not_too_fast_iff l :
  StopOverLandingSpotM.is_too_fast l = false <-> Z.abs (speed_h (now l)) <= 20.
Proof.
  unfold StopOverLandingSpotM.is_too_fast.
  rewrite negb_false_iff. apply within_iff.
Qed.

Lemma has_safe_speed_iff l :
  StopOverLandingSpotM.has_safe_speed l = true <-> Z.abs (speed_h (now l)) <= 20.
Proof.
  unfold StopOverLandingSpotM.has_safe_speed. apply within_iff.
Qed.

Lemma approach_rotation_unfold k ns l :
  update_rotation (S k) (mkState StopOverLandingSpot ns) l =
  StopOverLandingSpotM.update_rotation
    (bind get (fun l' => update_rotation k (state l')))
    (mkState StopOverLandingSpot ns) l.
Proof. reflexivity. Qed.

(** too fast, the approach state calls [transition_to_stop], whose result
    depends on the module-level name [lander] *)
Lemma approach_rotation_fast k ns l :
  20 < Z.abs (speed_h (now l)) ->
  update_rotation (S (S k)) (mkState StopOverLandingSpot ns) l =
  match global_lander l with
  | Unbound => Raise NameError
  | BoundToLander =>
      lift (py_mul (VInt (speed_h (now l))) (VFloat F64.lit_0_5))
           (assign_state (mkState StopOverLandingSpot ns) BleedSpeed l)
  end.
Proof.
  intros Hh. rewrite approach_rotation_unfold.
  unfold StopOverLandingSpotM.update_rotation, bind at 1, get at 1.
  rewrite (proj2 (too_fast_iff l) Hh).
  unfold StopOverLandingSpotM.transition_to_stop, bind at 1, get at 1.
  destruct (global_lander l); [reflexivity|].
  unfold bind, lift, set_state, get.
  cbn [new2 state assign_state].
  apply (stop_rotation_fast k (Some StopOverLandingSpot)
           (assign_state (mkState StopOverLandingSpot ns) BleedSpeed l)).
  assumption.
Qed.

Lemma approach_rotation_delegates k ns l :
  20 < Z.abs (speed_h (now l)) ->
  update_rotation (S k) (mkState StopOverLandingSpot ns) l =
  match global_lander l with
  | Unbound => Raise NameError
  | BoundToLander =>
      update_rotation k BleedSpeed
        (assign_state (mkState StopOverLandingSpot ns) BleedSpeed l)
  end.
Proof.
  intros Hh. rewrite approach_rotation_unfold.
  unfold StopOverLandingSpotM.update_rotation, bind at 1, get at 1.
  rewrite (proj2 (too_fast_iff l) Hh).
  unfold StopOverLandingSpotM.transition_to_stop, bind at 1, get at 1.
  destruct (global_lander l); reflexivity.
Qed.

(** where the name is unbound one level of nesting is enough to raise *)
Lemma approach_rotation_unbound k ns l :
  20 < Z.abs (speed_h (now l)) -> global_lander l = Unbound ->
  update_rotation (S k) (mkState StopOverLandingSpot ns) l = Raise NameError.
Proof.
  intros Hh Hg. rewrite approach_rotation_unfold.
  unfold StopOverLandingSpotM.update_rotation, bind at 1, get at 1.
  rewrite (proj2 (too_fast_iff l) Hh).
  unfold StopOverLandingSpotM.transition_to_stop, bind at 1, get at 1.
  rewrite Hg. reflexivity.
Qed.

Lemma approach_rotation_over k ns l :
  Z.abs (speed_h (now l)) <= 20 ->
  LanderM.is_over_landing_spot l = true ->
  update_rotation (S k) (mkState StopOverLandingSpot ns) l =
  match call1 ns with
  | Ok s => update_rotation k s (assign_state (mkState StopOverLandingSpot ns) s l)
  | Raise e => Raise e
  end.
Proof.
  intros Hh Hover. rewrite approach_rotation_unfold.
  unfold StopOverLandingSpotM.update_rotation, bind at 1, get at 1.
  rewrite (proj2 (not_too_fast_iff l) Hh), Hover.
  unfold StopOverLandingSpotM.stop_and_transition_to_next_state, bind at 1, get at 1.
  rewrite (proj2 (has_safe_speed_iff l) Hh).
  unfold bind, lift, set_state, get. cbn [next_state].
  destruct (call1 ns) as [s|e]; reflexivity.
Qed.

Lemma approach_rotation_off k ns l :
  Z.abs (speed_h (now l)) <= 20 ->
  LanderM.is_over_landing_spot l = false ->
  update_rotation (S k) (mkState StopOverLandingSpot ns) l =
  StopOverLandingSpotM.move_towards_landing_spot l.
Proof.
  intros Hh Hover. rewrite approach_rotation_unfold.
  unfold StopOverLandingSpotM.update_rotation, bind at 1, get at 1.
  rewrite (proj2 (not_too_fast_iff l) Hh), Hover. reflexivity.
Qed.

(** ** The encoder *)

Lemma clamp_bounds lo hi n : lo <= hi -> lo <= clamp lo hi n <= hi.
Proof. unfold clamp. lia. Qed.

Lemma control_rotate_eq (upd : M value) l :
  StateBase.control_rotate upd l =
  match upd l with
  | Ok (v, l') =>
      match py_round v with
      | Ok n => Ok (clamp (-90) 90 n, l')
      | Raise e => Raise e
      end
  | Raise e => Raise e
  end.
Proof.
  unfold StateBase.control_rotate, bind, lift.
  destruct (upd l) as [[v l']|e]; [|reflexivity].
  destruct (py_round v) as [n|e]; [|reflexivity].
  unfold StateBase.rotate_limit, StateBase.MAX_ROTATION, ret, clamp.
  destruct (n >? 90) eqn:H1; [f_equal; f_equal; lia|].
  destruct (n <? - (90)) eqn:H2; f_equal; f_equal; lia.
Qed.

Lemma control_power_eq (upd : M value) l :
  StateBase.control_power upd l =
  match upd l with
  | Ok (v, l') =>
      match py_round v with
      | Ok n => Ok (clamp 0 4 n, l')
      | Raise e => Raise e
      end
  | Raise e => Raise e
  end.
Proof.
  unfold StateBase.control_power, bind, lift.
  destruct (upd l) as [[v l']|e]; [|reflexivity].
  destruct (py_round v) as [n|e]; [|reflexivity].
  unfold StateBase.MIN_POWER, StateBase.MAX_POWER, ret, clamp.
  destruct (n <? 0) eqn:H1; [f_equal; f_equal; lia|].
  destruct (n >? 4) eqn:H2; f_equal; f_equal; lia.
Qed.

(** [update_power] returns 3 or 4 and leaves the lander as it is *)
Lemma update_power_3_or_4 s l :
  exists p, update_power s l = Ok (VInt p, l) /\ (p = 3 \/ p = 4).
Proof.
  destruct s as [[] ns]; unfold update_power; cbn [klass].
  - unfold HoverM.update_power, bind, get, ret.
    destruct (speed_v (now l) >? 0); eexists; split; try reflexivity; lia.
  - unfold StopOverLandingSpotM.update_power, bind, get, ret.
    destruct ((LanderM.altitude l <? 100) && negb (LanderM.is_over_landing_spot l));
      [|destruct (speed_v (now l) >? -18)]; eexists; split; try reflexivity; lia.
  - unfold DescendM.update_power, bind, get, ret.
    destruct (DescendM.is_not_safe_to_land l);
      [|destruct (DescendM.descent_is_too_fast l)]; eexists; split; try reflexivity; lia.
  - unfold StopM.update_power, HoverM.update_power, bind, get, ret.
    destruct (speed_v (now l) >? 0); eexists; split; try reflexivity; lia.
Qed.

(** the tick in terms of the rotation method: the power is the one of the
    state that is active after the rotation has been computed *)
Lemma control_eq d l :
  control d l =
  match update_rotation d (state l) l with
  | Ok (v, l1) =>
      match py_round v with
      | Ok n =>
          match update_power (state l1) l1 with
          | Ok (VInt p, _) => Ok (mkCommand (clamp (-90) 90 n) (clamp 0 4 p), l1)
          | _ => Raise TypeError
          end
      | Raise e => Raise e
      end
  | Raise e => Raise e
  end.
Proof.
  unfold control, bind at 1. unfold control_rotate, bind at 1, get at 1.
  rewrite control_rotate_eq.
  destruct (update_rotation d (state l) l) as [[v l1]|e]; [|reflexivity].
  destruct (py_round v) as [n|e]; [|reflexivity].
  unfold bind at 1. unfold control_power, bind at 1, get at 1.
  rewrite control_power_eq.
  destruct (update_power_3_or_4 (state l1) l1) as (p & -> & _).
  reflexivity.
Qed.

Lemma control_ok_inv d l c l' :
  control d l = Ok (c, l') ->
  exists v n p,
    update_rotation d (state l) l = Ok (v, l') /\ py_round v = Ok n /\
    update_power (state l') l' = Ok (VInt p, l') /\ (p = 3 \/ p = 4) /\
    c = mkCommand (clamp (-90) 90 n) p.
Proof.
  rewrite control_eq.
  destruct (update_rotation d (state l) l) as [[v l1]|e]; [|discriminate].
  destruct (py_round v) as [n|e] eqn:Hn; [|discriminate].
  destruct (update_power_3_or_4 (state l1) l1) as (p & Hp & H34).
  rewrite Hp. intros [= <- <-].
  exists v, n, p. repeat split; try assumption.
  f_equal. unfold clamp. lia.
Qed.

(** ** Totality of the rotation methods *)

Lemma representable_is_finite f : F64.representable f -> F64.is_finite f = true.
Proof. destruct f; simpl; try contradiction; reflexivity. Qed.

Lemma py_mul_gain_total n sg mg eg :
  in_float_range n -> eg < 0 -> Zpos mg <= 2 ^ (- eg - 1) ->
  exists f, py_mul (VInt n) (VFloat (S754_finite sg mg eg)) = Ok (VFloat f) /\
            F64.representable f.
Proof.
  intros Hn Heg Hmg. unfold py_mul.
  destruct (of_int_ok n Hn) as [f Hf]. rewrite Hf.
  eexists. split; [reflexivity|].
  apply mul_representable; try assumption.
  apply (of_int_representable n). assumption.
Qed.

Lemma py_mul_0_5_total n : in_float_range n ->
  exists f, py_mul (VInt n) (VFloat F64.lit_0_5) = Ok (VFloat f) /\ F64.representable f.
Proof.
  intros Hn. apply py_mul_gain_total; [assumption|lia|].
  apply Z.leb_le. vm_compute. reflexivity.
Qed.

Lemma py_mul_0_04_total n : in_float_range n ->
  exists f, py_mul (VInt n) (VFloat F64.lit_0_04) = Ok (VFloat f) /\ F64.representable f.
Proof.
  intros Hn. apply py_mul_gain_total; [assumption|lia|].
  apply Z.leb_le. vm_compute. reflexivity.
Qed.

Lemma over_or_beside l :
  LanderM.is_over_landing_spot l = false ->
  LanderM.is_left_of_landing_spot l = true \/ LanderM.is_right_of_landing_spot l = true.
Proof.
  unfold LanderM.is_over_landing_spot, LanderM.is_left_of_landing_spot,
    LanderM.is_right_of_landing_spot.
  rewrite andb_false_iff, !Z.leb_gt, Z.ltb_lt, Z.gtb_ltb, Z.ltb_lt. lia.
Qed.

Lemma move_towards_total l :
  LanderM.is_over_landing_spot l = false -> telemetry_in_range l ->
  exists v, StopOverLandingSpotM.move_towards_landing_spot l = Ok (v, l) /\
            is_number v = true.
Proof.
  intros Hover (Hh & Hl & Hr).
  cbv beta in Hl, Hr.
  unfold StopOverLandingSpotM.move_towards_landing_spot, bind at 1, get at 1.
  unfold LanderM.distance_to_landing_spot.
  destruct (LanderM.is_left_of_landing_spot l) eqn:Hleft.
  - destruct (speed_h (now l) <? StopOverLandingSpotM.MAX_SPEED).
    + destruct (py_mul_0_04_total _ Hl) as (f & Hf & Hrep).
      unfold bind, lift. unfold StopOverLandingSpotM.scale. rewrite Hf.
      eexists; split; [reflexivity|]. apply representable_is_finite; assumption.
    + destruct (speed_h (now l) >? StopOverLandingSpotM.MAX_SPEED);
        eexists; split; reflexivity.
  - destruct (over_or_beside l Hover) as [H|H]; [congruence|]. rewrite H.
    destruct (speed_h (now l) >? - StopOverLandingSpotM.MAX_SPEED).
    + destruct (py_mul_0_04_total _ Hr) as (f & Hf & Hrep).
      unfold bind, lift. unfold StopOverLandingSpotM.scale. rewrite Hf.
      eexists; split; [reflexivity|]. apply representable_is_finite; assumption.
    + destruct (speed_h (now l) <? - StopOverLandingSpotM.MAX_SPEED);
        eexists; split; reflexivity.
Qed.

Lemma lift_inv {A} (r : result A) l a l1 : lift r l = Ok (a, l1) -> r = Ok a /\ l1 = l.
Proof. unfold lift. destruct r; [intros [= <- <-]; split; reflexivity|discriminate]. Qed.

Lemma move_towards_frame l v l1 :
  StopOverLandingSpotM.move_towards_landing_spot l = Ok (v, l1) -> l1 = l.
Proof.
  unfold StopOverLandingSpotM.move_towards_landing_spot, bind at 1, get at 1.
  unfold LanderM.distance_to_landing_spot.
  destruct (LanderM.is_left_of_landing_spot l).
  - destruct (speed_h (now l) <? StopOverLandingSpotM.MAX_SPEED).
    + unfold bind, lift.
      destruct (py_mul _ _); [intros [= _ <-]; reflexivity|discriminate].
    + destruct (speed_h (now l) >? StopOverLandingSpotM.MAX_SPEED);
        intros [= _ <-]; reflexivity.
  - destruct (LanderM.is_right_of_landing_spot l).
    + destruct (speed_h (now l) >? - StopOverLandingSpotM.MAX_SPEED).
      * unfold bind, lift.
        destruct (py_mul _ _); [intros [= _ <-]; reflexivity|discriminate].
      * destruct (speed_h (now l) <? - StopOverLandingSpotM.MAX_SPEED);
          intros [= _ <-]; reflexivity.
    + intros [= _ <-]; reflexivity.
Qed.

Lemma abs_le_or_gt v c : Z.abs v <= c \/ c < Z.abs v.
Proof. lia. Qed.

(** no method rebinds the module-level name *)
Lemma rotation_keeps_global d : forall s l v l1,
  update_rotation d s l = Ok (v, l1) -> global_lander l1 = global_lander l.
Proof.
  induction d as [|d IH]; intros s l v l1 H; [discriminate H|].
  destruct s as [[] ns].
  - rewrite hover_rotation in H. injection H as _ <-. reflexivity.
  - destruct (abs_le_or_gt (speed_h (now l)) 20) as [Hslow|Hfast].
    + destruct (LanderM.is_over_landing_spot l) eqn:Ho.
      * rewrite approach_rotation_over in H by assumption.
        destruct (call1 ns) as [s1|e]; [|discriminate H].
        apply IH in H. exact H.
      * rewrite approach_rotation_off in H by assumption.
        apply move_towards_frame in H. subst l1. reflexivity.
    + rewrite approach_rotation_delegates in H by assumption.
      destruct (global_lander l) eqn:Hg; [discriminate H|].
      apply IH in H. rewrite H. exact Hg.
  - rewrite descend_rotation in H. injection H as _ <-. reflexivity.
  - destruct (abs_le_or_gt (speed_h (now l)) 20) as [Hslow|Hfast].
    + rewrite stop_rotation_slow in H by assumption.
      destruct (call2 ns None) as [s1|e]; [|discriminate H].
      apply IH in H. exact H.
    + rewrite stop_rotation_fast in H by assumption.
      apply lift_inv in H. destruct H as [_ ->]. reflexivity.
Qed.

Lemma control_keeps_global d l c l' :
  control d l = Ok (c, l') -> global_lander l' = global_lander l.
Proof.
  intros H. destruct (control_ok_inv _ _ _ _ H) as (v & n & p & Hrot & _).
  apply rotation_keeps_global in Hrot. exact Hrot.
Qed.

(** the rotation of the approach state, by cases *)
Lemma approach_zone_rotation k l :
  update_rotation (S (S k)) ApproachZone l =
  if StopOverLandingSpotM.is_too_fast l then
    match global_lander l with
    | Unbound => Raise NameError
    | BoundToLander =>
        lift (py_mul (VInt (speed_h (now l))) (VFloat F64.lit_0_5))
             (assign_state ApproachZone BleedSpeed l)
    end
  else if LanderM.is_over_landing_spot l then
    Ok (if LanderM.altitude l >? 100 then VInt (speed_h (now l)) else VInt 0,
        assign_state ApproachZone DescendState l)
  else StopOverLandingSpotM.move_towards_landing_spot l.
Proof.
  destruct (StopOverLandingSpotM.is_too_fast l) eqn:Hf.
  - apply approach_rotation_fast. apply too_fast_iff. assumption.
  - apply not_too_fast_iff in Hf.
    destruct (LanderM.is_over_landing_spot l) eqn:Ho.
    + unfold ApproachZone. rewrite approach_rotation_over by assumption.
      cbn [call1 new1]. rewrite descend_rotation. reflexivity.
    + apply approach_rotation_off; assumption.
Qed.

(** the rotation of the braking state, by cases *)
Lemma bleed_speed_rotation k l :
  update_rotation (S (S (S k))) BleedSpeed l =
  if StopOverLandingSpotM.is_too_fast l then
    lift (py_mul (VInt (speed_h (now l))) (VFloat F64.lit_0_5)) l
  else update_rotation (S (S k)) ApproachZone (assign_state BleedSpeed ApproachZone l).
Proof.
  destruct (StopOverLandingSpotM.is_too_fast l) eqn:Hf.
  - apply stop_rotation_fast. apply too_fast_iff. assumption.
  - apply not_too_fast_iff in Hf. unfold BleedSpeed.
    rewrite stop_rotation_slow by assumption. reflexivity.
Qed.

(** what a rotation computed from a state of the sequence leaves behind *)
Lemma rotation_in_sequence k l v l1 :
  in_sequence (state l) ->
  update_rotation (S (S (S k))) (state l) l = Ok (v, l1) ->
  in_sequence (state l1) /\
  (exists new, transitions l1 = transitions l ++ new /\ Forall listed_transition new) /\
  now l1 = now l /\ landing_spot l1 = landing_spot l /\ old l1 = old l.
Proof.
  assert (Hab : listed_transition (ApproachZone, BleedSpeed))
    by (left; split; reflexivity).
  assert (Hba : listed_transition (BleedSpeed, ApproachZone))
    by (right; left; split; reflexivity).
  assert (Had : listed_transition (ApproachZone, DescendState))
    by (right; right; split; reflexivity).
  assert (Happroach : forall j l0 v0 l2,
    update_rotation (S (S j)) ApproachZone l0 = Ok (v0, l2) ->
    in_sequence (state l0) ->
    in_sequence (state l2) /\
    (exists new, transitions l2 = transitions l0 ++ new /\ Forall listed_transition new) /\
    now l2 = now l0 /\ landing_spot l2 = landing_spot l0 /\ old l2 = old l0).
  { intros j l0 v0 l2. rewrite approach_zone_rotation.
    destruct (StopOverLandingSpotM.is_too_fast l0).
    - destruct (global_lander l0); [discriminate|].
      intros H _. apply lift_inv in H. destruct H as [_ ->].
      split; [right; left; reflexivity|].
      split; [exists [(ApproachZone, BleedSpeed)]; split; [reflexivity|auto]|].
      repeat split.
    - destruct (LanderM.is_over_landing_spot l0).
      + intros [= _ <-] _.
        split; [right; right; reflexivity|].
        split; [exists [(ApproachZone, DescendState)]; split; [reflexivity|auto]|].
        repeat split.
      + intros H Hin. apply move_towards_frame in H. subst l2.
        split; [assumption|].
        split; [exists []; split; [rewrite app_nil_r; reflexivity|constructor]|].
        repeat split. }
  intros Hin Hrot. destruct Hin as [Hs|[Hs|Hs]].
  - rewrite Hs in Hrot. apply (Happroach _ _ _ _ Hrot). left; assumption.
  - rewrite Hs, bleed_speed_rotation in Hrot.
    destruct (StopOverLandingSpotM.is_too_fast l).
    + apply lift_inv in Hrot. destruct Hrot as [_ ->].
      split; [right; left; assumption|].
      split; [exists []; split; [rewrite app_nil_r; reflexivity|constructor]|].
      repeat split.
    + apply Happroach in Hrot; [|left; reflexivity].
      destruct Hrot as (Hin & (new & Htr & Hall) & Hn & Hsp & Hold).
      split; [assumption|].
      split; [|repeat split; assumption].
      exists ((BleedSpeed, ApproachZone) :: new). split; [|constructor; assumption].
      rewrite Htr. cbn [assign_state transitions]. rewrite <- app_assoc. reflexivity.
  - rewrite Hs in Hrot. unfold DescendState in Hrot. rewrite descend_rotation in Hrot.
    injection Hrot as _ <-.
    split; [right; right; assumption|].
    split; [exists []; split; [rewrite app_nil_r; reflexivity|constructor]|].
    repeat split.
Qed.

Lemma py_round_total v : is_number v = true -> exists n, py_round v = Ok n.
Proof.
  destruct v as [|n|f]; simpl; try discriminate.
  - intros _. exists n. reflexivity.
  - intros Hf. destruct (round_nearest f Hf) as (n & Hn & _). exists n. assumption.
Qed.

Lemma approach_zone_rotation_total k l :
  telemetry_in_range l -> name_resolves ApproachZone l ->
  exists v l1, update_rotation (S (S k)) ApproachZone l = Ok (v, l1) /\ is_number v = true.
Proof.
  intros Hrange Hname. rewrite approach_zone_rotation.
  destruct (StopOverLandingSpotM.is_too_fast l) eqn:Hf.
  - destruct Hname as [Hg|Hnot].
    + rewrite Hg.
      destruct (py_mul_0_5_total _ (proj1 Hrange)) as (f & Hf' & Hrep).
      rewrite Hf'. do 2 eexists. split; [reflexivity|].
      apply representable_is_finite; assumption.
    + exfalso. apply Hnot. split; [reflexivity|]. apply too_fast_iff. exact Hf.
  - destruct (LanderM.is_over_landing_spot l) eqn:Ho.
    + do 2 eexists. split; [reflexivity|].
      destruct (LanderM.altitude l >? 100); reflexivity.
    + destruct (move_towards_total l Ho Hrange) as (v & Hv & Hnum).
      exists v, l. split; assumption.
Qed.

(** the rotation method of a runnable state returns a number *)
Lemma rotation_total k s l :
  runnable s -> telemetry_in_range l -> name_resolves s l ->
  exists v l1, update_rotation (S (S (S k))) s l = Ok (v, l1) /\ is_number v = true.
Proof.
  intros Hrun Hrange Hname. destruct s as [[] ns]; unfold runnable in Hrun;
    cbn [klass next_state] in Hrun.
  - rewrite hover_rotation. do 2 eexists. split; reflexivity.
  - subst ns. apply (approach_zone_rotation_total (S k)); assumption.
  - rewrite descend_rotation. do 2 eexists. split; [reflexivity|].
    destruct (LanderM.altitude l >? 100); reflexivity.
  - destruct (abs_le_or_gt (speed_h (now l)) 20) as [Hslow|Hfast].
    + rewrite stop_rotation_slow by assumption.
      destruct Hrun as [ -> | [ -> | -> ] ]; cbn [call2 new2].
      * rewrite hover_rotation. do 2 eexists. split; reflexivity.
      * apply (approach_zone_rotation_total k); [exact Hrange|].
        right. intros [_ Hfast]. cbn [now assign_state] in Hfast. lia.
      * rewrite descend_rotation. do 2 eexists. split; [reflexivity|].
        match goal with |- context [if ?b then _ else _] => destruct b end; reflexivity.
    + rewrite stop_rotation_fast by assumption.
      destruct (py_mul_0_5_total _ (proj1 Hrange)) as (f & Hf & Hrep).
      rewrite Hf. do 2 eexists. split; [reflexivity|].
      apply representable_is_finite; assumption.
Qed.

(** ** The command envelope *)

Lemma control_total k l :
  runnable (state l) -> telemetry_in_range l -> name_resolves (state l) l ->
  exists c l', control (S (S (S k))) l = Ok (c, l').
Proof.
  intros Hrun Hrange Hname. rewrite control_eq.
  destruct (rotation_total k (state l) l Hrun Hrange Hname) as (v & l1 & Hrot & Hnum).
  rewrite Hrot.
  destruct (py_round_total v Hnum) as [n ->].
  destruct (update_power_3_or_4 (state l1) l1) as (p & -> & _).
  do 2 eexists. reflexivity.
Qed.

Lemma Ok_inj {A} (a b : A) : Ok a = Ok b -> a = b.
Proof. intros H. injection H as H. exact H. Qed.

(** what [round] returns is a nearest integer to its argument *)
Lemma py_round_nearest v n :
  py_round v = Ok n -> nearest_ties_to_even (value_to_Q v) n.
Proof.
  destruct v as [|m|f]; cbn [py_round value_to_Q]; [discriminate| |].
  - intros H. apply Ok_inj in H. subst m. apply nearest_same.
  - intros H.
    assert (Hfin : F64.is_finite f = true)
      by (destruct f; try reflexivity; discriminate H).
    destruct (round_nearest f Hfin) as (n' & Hn' & Hnear).
    rewrite Hn' in H. apply Ok_inj in H. subst n'. exact Hnear.
Qed.

(** a tick that reaches [transition_to_stop] where the name [lander] is
    unbound emits no command *)
Lemma control_unbound k l :
  delegates (state l) l -> global_lander l = Unbound ->
  control (S k) l = Raise NameError.
Proof.
  intros [Hk Hfast] Hg. rewrite control_eq.
  destruct (state l) as [cls ns]. cbn [klass] in Hk. subst cls.
  rewrite approach_rotation_unbound by assumption. reflexivity.
Qed.

(** C1. Every command a tick emits satisfies -90 <= rotationDeg <= 90 and
    0 <= powerLevel <= 4, whatever the telemetry and the active state: it is
    the desired rotation of the state and the desired power of the state
    active afterwards, each rounded to a nearest integer and then clamped,
    rotation into [-90, 90] and power into [0, 4].  The encoder does so for
    every desired number (an int or a finite double).  A tick does emit a
    command from every runnable state when the integers it multiplies by a
    gain convert to doubles and the module-level name [lander] is bound
    wherever the tick reads it; where the approach state is too fast and the
    name is unbound, the tick raises [NameError] and emits nothing. *)
Theorem command_in_envelope :
  (forall d l c l', control d l = Ok (c, l') ->
     (-90 <= rotationDeg c <= 90 /\ 0 <= powerLevel c <= 4) /\
     exists v n w p,
       update_rotation d (state l) l = Ok (v, l') /\ py_round v = Ok n /\
       nearest_ties_to_even (value_to_Q v) n /\
       rotationDeg c = clamp (-90) 90 n /\
       update_power (state l') l' = Ok (w, l') /\ py_round w = Ok p /\
       nearest_ties_to_even (value_to_Q w) p /\
       powerLevel c = clamp 0 4 p) /\
  (forall (upd : M value) v l l', upd l = Ok (v, l') -> is_number v = true ->
     exists n, py_round v = Ok n /\ nearest_ties_to_even (value_to_Q v) n /\
       StateBase.control_rotate upd l = Ok (clamp (-90) 90 n, l') /\
       StateBase.control_power upd l = Ok (clamp 0 4 n, l') /\
       -90 <= clamp (-90) 90 n <= 90 /\ 0 <= clamp 0 4 n <= 4) /\
  (forall k l, runnable (state l) -> telemetry_in_range l ->
     name_resolves (state l) l ->
     exists c l', control (3 + k) l = Ok (c, l')) /\
  (forall k l, delegates (state l) l -> global_lander l = Unbound ->
     control (S k) l = Raise NameError).
Proof.
  split; [|split; [|split]].
  - intros d l c l' H.
    destruct (control_ok_inv d l c l' H) as (v & n & p & Hrot & Hn & Hpow & Hp & ->).
    cbn [rotationDeg powerLevel]. split; [split; [apply clamp_bounds; lia|lia]|].
    exists v, n, (VInt p), p.
    split; [assumption|]. split; [assumption|].
    split; [apply py_round_nearest; assumption|]. split; [reflexivity|].
    split; [assumption|]. split; [reflexivity|].
    split; [apply nearest_same|]. unfold clamp. lia.
  - intros upd v l l' Hupd Hnum.
    destruct (py_round_total v Hnum) as [n Hn]. exists n.
    rewrite control_rotate_eq, control_power_eq, Hupd, Hn.
    split; [reflexivity|]. split; [apply py_round_nearest; assumption|].
    repeat split; try (apply clamp_bounds; lia).
  - intros k l Hrun Hrange Hname. apply control_total; assumption.
  - intros k l Hd Hg. apply control_unbound; assumption.
Qed.

Lemma command_in_envelope_witness :
  let l := lander_in ApproachZone zone_1000_2000 telemetry_500_left in
  runnable (state l) /\ telemetry_in_range l /\ name_resolves (state l) l /\
  exists c l', control 3 l = Ok (c, l') /\
    -90 <= rotationDeg c <= 90 /\ 0 <= powerLevel c <= 4.
Proof.
  intros l.
  assert (Hrun : runnable (state l)) by reflexivity.
  assert (Hrange : telemetry_in_range l) by (repeat split; vm_compute; reflexivity).
  assert (Hname : name_resolves (state l) l)
    by (right; intros [_ Hfast]; vm_compute in Hfast; discriminate Hfast).
  split; [exact Hrun|]. split; [exact Hrange|]. split; [exact Hname|].
  destruct (proj1 (proj2 (proj2 command_in_envelope)) 0%nat l Hrun Hrange Hname)
    as (c & l' & H).
  exists c, l'. split; [exact H|].
  exact (proj1 (proj1 command_in_envelope 3%nat l c l' H)).
Defined.

(** ** The ghost field is not read *)

Lemma agree_ret {A} (R : A -> A -> Prop) a1 a2 : R a1 a2 -> agree R (ret a1) (ret a2).
Proof. intros HR l1 l2 Hsim. split; assumption. Qed.

Lemma agree_bind {A B} (RA : A -> A -> Prop) (RB : B -> B -> Prop) m1 m2 k1 k2 :
  agree RA m1 m2 -> (forall a1 a2, RA a1 a2 -> agree RB (k1 a1) (k2 a2)) ->
  agree RB (bind m1 k1) (bind m2 k2).
Proof.
  intros Hm Hk l1 l2 Hsim. unfold bind. specialize (Hm l1 l2 Hsim).
  destruct (m1 l1) as [[a1 l1']|e1], (m2 l2) as [[a2 l2']|e2]; try contradiction.
  - destruct Hm as [Ha Hsim']. apply (Hk a1 a2 Ha l1' l2' Hsim').
  - assumption.
Qed.

Lemma agree_get : agree same_vehicle get get.
Proof. intros l1 l2 Hsim. split; assumption. Qed.

Lemma agree_lift {A} (r : result A) : agree eq (lift r) (lift r).
Proof. intros l1 l2 Hsim. unfold lift. destruct r; [split|]; auto. Qed.

Lemma agree_set_state a b : agree eq (set_state a b) (set_state a b).
Proof.
  intros l1 l2 (Hn & Hsp & Hst & Hg). split; [reflexivity|].
  repeat split; assumption.
Qed.

Lemma agree_raise {A} (R : A -> A -> Prop) e : agree R (raise e) (raise e).
Proof. intros l1 l2 _. reflexivity. Qed.

(** the queries on the lander read the telemetry and the landing spot only *)
Lemma same_vehicle_queries l1 l2 :
  same_vehicle l1 l2 ->
  LanderM.is_over_landing_spot l1 = LanderM.is_over_landing_spot l2 /\
  LanderM.is_left_of_landing_spot l1 = LanderM.is_left_of_landing_spot l2 /\
  LanderM.is_right_of_landing_spot l1 = LanderM.is_right_of_landing_spot l2 /\
  LanderM.altitude l1 = LanderM.altitude l2 /\
  LanderM.distance_to_landing_spot l1 = LanderM.distance_to_landing_spot l2 /\
  StopOverLandingSpotM.is_too_fast l1 = StopOverLandingSpotM.is_too_fast l2 /\
  StopOverLandingSpotM.has_safe_speed l1 = StopOverLandingSpotM.has_safe_speed l2.
Proof.
  intros (Hn & Hsp & _).
  unfold LanderM.is_over_landing_spot, LanderM.is_left_of_landing_spot,
    LanderM.is_right_of_landing_spot, LanderM.altitude,
    LanderM.distance_to_landing_spot, LanderM.is_left_of_landing_spot,
    LanderM.is_right_of_landing_spot, StopOverLandingSpotM.is_too_fast,
    StopOverLandingSpotM.has_safe_speed.
  rewrite Hn, Hsp. repeat split.
Qed.

Ltac agree_step :=
  first
    [ apply agree_ret; reflexivity
    | apply agree_lift
    | apply agree_raise
    | eapply agree_bind; [apply agree_get|]
    | eapply agree_bind; [apply agree_lift|]
    | eapply agree_bind; [apply agree_set_state|] ].

Lemma agree_hover_rotation : agree eq HoverM.update_rotation HoverM.update_rotation.
Proof.
  unfold HoverM.update_rotation. agree_step. intros l1 l2 (Hn & _).
  rewrite Hn. agree_step.
Qed.

Lemma agree_descend_rotation : agree eq DescendM.update_rotation DescendM.update_rotation.
Proof.
  unfold DescendM.update_rotation. agree_step. intros l1 l2 Hsim.
  destruct (same_vehicle_queries l1 l2 Hsim) as (_ & _ & _ & Ha & _).
  destruct Hsim as (Hn & _). rewrite Ha, Hn.
  destruct (LanderM.altitude l2 >? DescendM.LANDING_ALTITUDE); agree_step.
Qed.

Lemma agree_move_towards :
  agree eq StopOverLandingSpotM.move_towards_landing_spot
           StopOverLandingSpotM.move_towards_landing_spot.
Proof.
  unfold StopOverLandingSpotM.move_towards_landing_spot. agree_step. intros l1 l2 Hsim.
  destruct (same_vehicle_queries l1 l2 Hsim) as (_ & Hl & Hr & _ & Hd & _).
  destruct Hsim as (Hn & _). rewrite Hl, Hr, Hd, Hn.
  destruct (LanderM.is_left_of_landing_spot l2).
  - destruct (speed_h (now l2) <? StopOverLandingSpotM.MAX_SPEED).
    + agree_step. intros d1 d2 <-. agree_step.
    + destruct (speed_h (now l2) >? StopOverLandingSpotM.MAX_SPEED); agree_step.
  - destruct (LanderM.is_right_of_landing_spot l2); [|agree_step].
    destruct (speed_h (now l2) >? - StopOverLandingSpotM.MAX_SPEED).
    + agree_step. intros d1 d2 <-. agree_step.
    + destruct (speed_h (now l2) <? - StopOverLandingSpotM.MAX_SPEED); agree_step.
Qed.

Lemma agree_update_rotation d : forall self,
  agree eq (update_rotation d self) (update_rotation d self).
Proof.
  induction d as [|d IH]; intros self; [apply agree_raise|].
  assert (Hdispatch : agree eq (bind get (fun l' => update_rotation d (state l')))
                               (bind get (fun l' => update_rotation d (state l')))).
  { agree_step. intros l1 l2 (_ & _ & Hst & _). rewrite Hst. apply IH. }
  cbn [update_rotation]. destruct (klass self).
  - apply agree_hover_rotation.
  - unfold StopOverLandingSpotM.update_rotation. agree_step. intros l1 l2 Hsim.
    destruct (same_vehicle_queries l1 l2 Hsim) as (Ho & _ & _ & _ & _ & Hf & Hs).
    rewrite Ho, Hf.
    assert (Hstop : agree eq
              (StopOverLandingSpotM.transition_to_stop
                 (bind get (fun l' => update_rotation d (state l'))) self)
              (StopOverLandingSpotM.transition_to_stop
                 (bind get (fun l' => update_rotation d (state l'))) self)).
    { unfold StopOverLandingSpotM.transition_to_stop. agree_step.
      intros g1 g2 (_ & _ & _ & Hg). rewrite Hg.
      destruct (global_lander g2); [agree_step|].
      agree_step. intros s1 s2 <-.
      agree_step. intros _ _ _. exact Hdispatch. }
    destruct (StopOverLandingSpotM.is_too_fast l2); [exact Hstop|].
    destruct (LanderM.is_over_landing_spot l2); [|apply agree_move_towards].
    unfold StopOverLandingSpotM.stop_and_transition_to_next_state. agree_step.
    intros l1' l2' Hsim'.
    destruct (same_vehicle_queries l1' l2' Hsim') as (_ & _ & _ & _ & _ & _ & Hs').
    rewrite Hs'. destruct (StopOverLandingSpotM.has_safe_speed l2'); [|exact Hstop].
    agree_step. intros s1 s2 <-. agree_step. intros _ _ _. exact Hdispatch.
  - apply agree_descend_rotation.
  - unfold StopM.update_rotation. agree_step. intros l1 l2 Hsim.
    destruct Hsim as (Hn & _). rewrite Hn.
    destruct ((- StopM.cutoff <=? speed_h (now l2)) && (speed_h (now l2) <=? StopM.cutoff));
      [|agree_step].
    agree_step. intros s1 s2 <-. agree_step. intros _ _ _. exact Hdispatch.
Qed.

Lemma agree_update_power l1 l2 :
  same_vehicle l1 l2 ->
  exists p, update_power (state l1) l1 = Ok (VInt p, l1) /\
            update_power (state l2) l2 = Ok (VInt p, l2).
Proof.
  intros Hsim.
  destruct (same_vehicle_queries l1 l2 Hsim) as (Ho & _ & _ & Ha & _).
  destruct Hsim as (Hn & Hsp & Hst & Hg).
  destruct (update_power_3_or_4 (state l1) l1) as (p & Hp & _).
  exists p. split; [assumption|].
  revert Hp. rewrite Hst. destruct (state l2) as [[] ns]; unfold update_power; cbn [klass];
    unfold StopM.update_power, HoverM.update_power, StopOverLandingSpotM.update_power,
      DescendM.update_power, DescendM.is_not_safe_to_land, DescendM.descent_is_too_fast,
      bind, get, ret; rewrite ?Ho, ?Ha, ?Hn;
    repeat match goal with |- context [if ?b then _ else _] => destruct b end;
    intros [= <-]; reflexivity.
Qed.

(** a tick shows the same command and the same next state on two landers
    that differ in the ghost field only *)
Lemma control_same_vehicle d l1 l2 :
  same_vehicle l1 l2 -> outcome (control d l1) = outcome (control d l2).
Proof.
  intros Hsim. rewrite !control_eq.
  pose proof (agree_update_rotation d (state l1) l1 l2 Hsim) as Hrot.
  destruct Hsim as (Hn & Hsp & Hst & Hg). rewrite <- Hst.
  destruct (update_rotation d (state l1) l1) as [[v1 a]|e1],
           (update_rotation d (state l1) l2) as [[v2 b]|e2]; try contradiction.
  - destruct Hrot as [<- Hsim'].
    destruct (py_round v1) as [n|e]; [|reflexivity].
    destruct (agree_update_power a b Hsim') as (p & -> & ->).
    cbn [outcome]. destruct Hsim' as (_ & _ & -> & _). reflexivity.
  - subst e2. reflexivity.
Qed.

(** ** Transitions of the approach state *)

Lemma control_from_rotation d l v l1 n :
  update_rotation d (state l) l = Ok (v, l1) -> py_round v = Ok n ->
  exists p, (p = 3 \/ p = 4) /\ update_power (state l1) l1 = Ok (VInt p, l1) /\
    control d l = Ok (mkCommand (clamp (-90) 90 n) p, l1).
Proof.
  intros Hrot Hn. rewrite control_eq, Hrot, Hn.
  destruct (update_power_3_or_4 (state l1) l1) as (p & Hp & H34).
  exists p. rewrite Hp. repeat split; try assumption.
  replace (clamp 0 4 p) with p by (unfold clamp; lia). reflexivity.
Qed.

Lemma over_iff l :
  LanderM.is_over_landing_spot l = true <->
  left (landing_spot l) <= x (now l) <= right (landing_spot l).
Proof.
  unfold LanderM.is_over_landing_spot. rewrite andb_true_iff, !Z.leb_le. tauto.
Qed.

Lemma descend_value_round l :
  exists n, py_round (if LanderM.altitude l >? 100 then VInt (speed_h (now l)) else VInt 0)
            = Ok n.
Proof. destruct (LanderM.altitude l >? 100); eexists; reflexivity. Qed.

(** over the zone at safe speed the approach state hands over to [Descend],
    and the tick's command is the one [Descend] alone produces *)
Lemma approach_hands_over k l :
  state l = ApproachZone ->
  LanderM.is_over_landing_spot l = true -> Z.abs (speed_h (now l)) <= 20 ->
  control (S (S (S k))) l = control (S (S (S k))) (assign_state ApproachZone DescendState l) /\
  exists c, control (S (S (S k))) l = Ok (c, assign_state ApproachZone DescendState l).
Proof.
  intros Hs Ho Hh.
  assert (Hrot : update_rotation (S (S (S k))) (state l) l =
                 Ok (if LanderM.altitude l >? 100 then VInt (speed_h (now l)) else VInt 0,
                     assign_state ApproachZone DescendState l)).
  { rewrite Hs, approach_zone_rotation, (proj2 (not_too_fast_iff l) Hh), Ho. reflexivity. }
  destruct (descend_value_round l) as [n Hn].
  destruct (control_from_rotation _ _ _ _ _ Hrot Hn) as (p & _ & _ & Hc).
  split; [|eexists; exact Hc].
  rewrite Hc. symmetry.
  assert (Hrot' : update_rotation (S (S (S k)))
                    (state (assign_state ApproachZone DescendState l))
                    (assign_state ApproachZone DescendState l) =
                 Ok (if LanderM.altitude l >? 100 then VInt (speed_h (now l)) else VInt 0,
                     assign_state ApproachZone DescendState l)).
  { cbn [state assign_state]. unfold DescendState. rewrite descend_rotation. reflexivity. }
  rewrite control_eq, Hrot', Hn.
  rewrite control_eq, Hrot, Hn in Hc. exact Hc.
Qed.

(** a freshly built next state needs one level of nesting less *)
Lemma fresh_state_depth k cls s l :
  new2 cls None = Ok s -> Z.abs (speed_h (now l)) <= 20 ->
  update_rotation (S (S (S k))) s l = update_rotation (S (S k)) s l.
Proof.
  intros Hnew Hh. destruct cls; injection Hnew as <-.
  - rewrite !hover_rotation. reflexivity.
  - change (mkState StopOverLandingSpot (Some Descend)) with ApproachZone.
    rewrite (approach_zone_rotation (S k)), (approach_zone_rotation k). reflexivity.
  - rewrite !descend_rotation. reflexivity.
  - rewrite !stop_rotation_slow by assumption. reflexivity.
Qed.

(** a tick from the approach state or the braking state ends in [Descend]
    exactly when the vehicle is over the zone at safe speed *)
Lemma ends_in_descend_iff k l :
  state l = ApproachZone \/ state l = BleedSpeed ->
  ((exists c l', control (S (S (S k))) l = Ok (c, l') /\ klass (state l') = Descend) <->
   (LanderM.is_over_landing_spot l = true /\ Z.abs (speed_h (now l)) <= 20)).
Proof.
  intros Hs. split.
  - intros (c & l' & Hc & Hk).
    destruct (control_ok_inv _ _ _ _ Hc) as (v & n & p & Hrot & _).
    assert (Happroach : forall j l0,
      klass (state l0) = StopOverLandingSpot ->
      update_rotation (S (S j)) ApproachZone l0 = Ok (v, l') ->
      LanderM.is_over_landing_spot l0 = true /\ Z.abs (speed_h (now l0)) <= 20).
    { intros j l0 Hk0. rewrite approach_zone_rotation.
      destruct (StopOverLandingSpotM.is_too_fast l0) eqn:Hf.
      - destruct (global_lander l0); [discriminate|].
        intros H. apply lift_inv in H. destruct H as [_ ->]. discriminate Hk.
      - destruct (LanderM.is_over_landing_spot l0) eqn:Ho.
        + intros _. split; [reflexivity|apply not_too_fast_iff; assumption].
        + intros H. apply move_towards_frame in H. subst l'. congruence. }
    destruct Hs as [Hs|Hs]; rewrite Hs in Hrot.
    + apply (Happroach (S k) l); [rewrite Hs; reflexivity|exact Hrot].
    + rewrite bleed_speed_rotation in Hrot.
      destruct (StopOverLandingSpotM.is_too_fast l) eqn:Hf.
      * apply lift_inv in Hrot. destruct Hrot as [_ ->]. rewrite Hs in Hk. discriminate Hk.
      * apply (Happroach k (assign_state BleedSpeed ApproachZone l)); [reflexivity|exact Hrot].
  - intros [Ho Hh]. destruct Hs as [Hs|Hs].
    + destruct (approach_hands_over k l Hs Ho Hh) as [_ [c Hc]].
      exists c, (assign_state ApproachZone DescendState l). split; [exact Hc|reflexivity].
    + destruct (approach_hands_over k (assign_state BleedSpeed ApproachZone l)
                  eq_refl Ho Hh) as [_ [c Hc]].
      exists c, (assign_state ApproachZone DescendState
                   (assign_state BleedSpeed ApproachZone l)).
      split; [|reflexivity].
      rewrite control_eq in Hc |- *. rewrite Hs, bleed_speed_rotation.
      rewrite (proj2 (not_too_fast_iff l) Hh).
      change (state (assign_state BleedSpeed ApproachZone l)) with ApproachZone in Hc.
      rewrite <- (fresh_state_depth k StopOverLandingSpot ApproachZone
                    (assign_state BleedSpeed ApproachZone l) eq_refl Hh).
      exact Hc.
Qed.

(** C3. A tick ends in [Descend] exactly when the vehicle is over the zone
    ([left <= x <= right]) and [|hSpeed| <= 20], whether it starts in the
    approach state or in the braking state (which first returns to the
    approach state); from the approach state the command of that tick is the
    one [Descend] produces.  On the left edge of the zone, horizontal speed 20
    makes the transition; horizontal speed 21 does not: the approach state
    calls [transition_to_stop] instead, which installs the braking state
    (tilting by round(10.5), that is 10) where the module-level name [lander]
    is bound to the vehicle, and raises [NameError] where it is unbound. *)
Theorem approach_to_descend k l :
  (state l = ApproachZone \/ state l = BleedSpeed ->
   ((exists c l', control (3 + k) l = Ok (c, l') /\ klass (state l') = Descend) <->
    (left (landing_spot l) <= x (now l) <= right (landing_spot l) /\
     Z.abs (speed_h (now l)) <= 20))) /\
  (state l = ApproachZone ->
   (left (landing_spot l) <= x (now l) <= right (landing_spot l) ->
    Z.abs (speed_h (now l)) <= 20 ->
    outcome (control (3 + k) l) = outcome (control (3 + k) (with_state DescendState l)) /\
    exists c, control (3 + k) l = Ok (c, assign_state ApproachZone DescendState l)) /\
   (x (now l) = left (landing_spot l) ->
    left (landing_spot l) <= right (landing_spot l) ->
    (speed_h (now l) = 20 ->
     exists c, control (3 + k) l = Ok (c, assign_state ApproachZone DescendState l)) /\
    (speed_h (now l) = 21 ->
     (global_lander l = BoundToLander ->
      exists c, control (3 + k) l = Ok (c, assign_state ApproachZone BleedSpeed l) /\
                rotationDeg c = 10) /\
     (global_lander l = Unbound -> control (3 + k) l = Raise NameError)))).
Proof.
  cbn [Nat.add]. split.
  - intros Hs. rewrite <- over_iff. apply ends_in_descend_iff. assumption.
  - intros Hs. split.
    + intros Ho Hh. apply over_iff in Ho.
      destruct (approach_hands_over k l Hs Ho Hh) as [Heq Hc].
      split; [|exact Hc]. rewrite Heq.
      apply control_same_vehicle. repeat split.
    + intros Hx Hlr. split.
      * intros H20. apply approach_hands_over; [assumption|apply over_iff; lia|lia].
      * intros H21. split.
        -- intros Hg.
           assert (Hrot : update_rotation (S (S (S k))) (state l) l =
                          Ok (VFloat double_10_5, assign_state ApproachZone BleedSpeed l)).
           { rewrite Hs, approach_zone_rotation, (proj2 (too_fast_iff l)) by lia.
             rewrite Hg, H21. reflexivity. }
           destruct (control_from_rotation _ _ _ _ 10 Hrot eq_refl) as (p & _ & _ & Hc).
           eexists. split; [exact Hc|reflexivity].
        -- intros Hg. apply control_unbound; [|exact Hg].
           rewrite Hs. split; [reflexivity|lia].
Qed.

Lemma approach_to_descend_witness :
  let l20 := lander_in ApproachZone zone_0_1000 telemetry_edge_20 in
  let l21 := lander_in ApproachZone zone_0_1000 telemetry_edge_21 in
  (exists c, control 3 l20 = Ok (c, assign_state ApproachZone DescendState l20)) /\
  (exists c, control 3 (bound_as_global l21)
             = Ok (c, assign_state ApproachZone BleedSpeed (bound_as_global l21)) /\
             rotationDeg c = 10) /\
  control 3 l21 = Raise NameError.
Proof.
  intros l20 l21. split; [|split].
  - apply (proj2 (proj2 (approach_to_descend 0 l20) eq_refl)); try reflexivity.
    cbn. lia.
  - apply (proj2 (proj2 (approach_to_descend 0 (bound_as_global l21)) eq_refl));
      try reflexivity.
    cbn. lia.
  - apply (proj2 (proj2 (approach_to_descend 0 l21) eq_refl)); try reflexivity.
    cbn. lia.
Defined.

(** ** The braking state *)

Lemma new2_klass cls arg : exists s, new2 cls arg = Ok s /\ klass s = cls.
Proof. destruct cls; eexists; split; reflexivity. Qed.

(** C4. In the braking state with a class as designated next state: if
    [|hSpeed| <= 20] the state is replaced by a new instance of that class and
    the tick is the tick of that next state alone on the same telemetry, with
    the same command and the same state afterwards; otherwise the desired rotation is the
    product [hSpeed * 0.5], which for [|hSpeed| < 2^53] is the double equal to
    hSpeed / 2, the command being its rounding clamped; for [hSpeed = -50] the
    rotation command is -25.  In the end-to-end scenario the approach state
    calls [transition_to_stop]: where the module-level name [lander] is bound
    to the vehicle the braking state is installed and the command is
    (-25, 4); where it is unbound the tick raises [NameError]. *)
Theorem bleed_speed_lookahead k l cls :
  state l = mkState Stop (Some cls) ->
  (Z.abs (speed_h (now l)) <= 20 ->
   exists s, new2 cls None = Ok s /\ klass s = cls /\
     control (3 + k) l = control (3 + k) (assign_state (state l) s l) /\
     outcome (control (3 + k) l) = outcome (control (3 + k) (with_state s l))) /\
  (20 < Z.abs (speed_h (now l)) ->
   update_rotation (3 + k) (state l) l =
     lift (py_mul (VInt (speed_h (now l))) (VFloat StopM.scale)) l /\
   (Z.abs (speed_h (now l)) < 2 ^ 53 ->
    exists f n p,
      update_rotation (3 + k) (state l) l = Ok (VFloat f, l) /\
      (F64.to_Q f == speed_h (now l) # 2)%Q /\
      py_round (VFloat f) = Ok n /\ nearest_ties_to_even (F64.to_Q f) n /\
      control (3 + k) l = Ok (mkCommand (clamp (-90) 90 n) p, l))) /\
  (speed_h (now l) = -50 ->
   exists p, control (3 + k) l = Ok (mkCommand (-25) p, l)) /\
  Surface.find_safe_spot terrain_example = Ok zone_0_1000 /\
  (let l0 := lander_in ApproachZone zone_0_1000 telemetry_too_fast in
   control (3 + k) (bound_as_global l0) =
     Ok (mkCommand (-25) 4, assign_state ApproachZone BleedSpeed (bound_as_global l0)) /\
   control (3 + k) l0 = Raise NameError).
Proof.
  intros Hs. cbn [Nat.add]. split; [|split; [|split; [|split]]].
  - intros Hh. destruct (new2_klass cls None) as (s & Hnew & Hk).
    exists s. split; [assumption|]. split; [assumption|].
    assert (Heq : control (S (S (S k))) l =
                  control (S (S (S k))) (assign_state (state l) s l)).
    { rewrite !control_eq. cbn [state assign_state].
      rewrite Hs at 1. rewrite stop_rotation_slow by assumption.
      cbn [call2]. rewrite Hnew.
      rewrite (fresh_state_depth k cls s) by assumption.
      rewrite Hs. reflexivity. }
    split; [exact Heq|]. rewrite Heq.
    apply control_same_vehicle. repeat split.
  - intros Hh.
    assert (Hrot : update_rotation (S (S (S k))) (state l) l =
                   lift (py_mul (VInt (speed_h (now l))) (VFloat StopM.scale)) l).
    { rewrite Hs. apply stop_rotation_fast. assumption. }
    split; [exact Hrot|]. intros Hsmall.
    destruct (py_mul_half_exact _ Hsmall) as (f & Hmul & Hfin & Hval).
    destruct (round_nearest f Hfin) as (n & Hn & Hnear).
    unfold StopM.scale in Hrot. rewrite Hmul in Hrot. cbn [lift] in Hrot.
    destruct (control_from_rotation _ _ _ _ n Hrot Hn) as (p & _ & _ & Hc).
    exists f, n, p. repeat split; try assumption; apply Hnear.
  - intros H50.
    assert (Hrot : update_rotation (S (S (S k))) (state l) l =
                   Ok (VFloat double_minus_25, l)).
    { rewrite Hs, stop_rotation_fast by lia. rewrite H50. reflexivity. }
    destruct (control_from_rotation _ _ _ _ (-25) Hrot eq_refl) as (p & _ & _ & Hc).
    exists p. exact Hc.
  - reflexivity.
  - set (l0 := lander_in ApproachZone zone_0_1000 telemetry_too_fast). split.
    + assert (Hrot : update_rotation (S (S (S k))) (state (bound_as_global l0))
                       (bound_as_global l0) =
                     Ok (VFloat double_minus_25,
                         assign_state ApproachZone BleedSpeed (bound_as_global l0))).
      { change (state (bound_as_global l0)) with ApproachZone.
        rewrite approach_zone_rotation. reflexivity. }
      rewrite control_eq, Hrot. reflexivity.
    + apply control_unbound; [|reflexivity].
      split; [reflexivity|]. cbn. lia.
Qed.

Lemma bleed_speed_lookahead_witness :
  let slow := lander_in BleedSpeed zone_0_1000 telemetry_edge_20 in
  let fast := lander_in BleedSpeed zone_0_1000 telemetry_too_fast in
  control 3 slow = control 3 (assign_state BleedSpeed ApproachZone slow) /\
  exists p, control 3 fast = Ok (mkCommand (-25) p, fast).
Proof.
  intros slow fast. split.
  - destruct (proj1 (bleed_speed_lookahead 0 slow StopOverLandingSpot eq_refl))
      as (s & Hnew & _ & Hc & _).
    + cbn. lia.
    + injection Hnew as <-. exact Hc.
  - apply (proj1 (proj2 (proj2 (bleed_speed_lookahead 0 fast StopOverLandingSpot eq_refl)))).
    reflexivity.
Defined.

(** ** Shape of the state machine *)

Lemma in_sequence_runnable s : in_sequence s -> runnable s.
Proof.
  intros [ -> | [ -> | -> ] ]; unfold runnable; cbn; auto.
Qed.

Lemma tick_in_sequence k t l c l' :
  in_sequence (state l) -> tick (S (S (S k))) t l = Ok (c, l') ->
  in_sequence (state l') /\
  (exists new, transitions l' = transitions l ++ new /\ Forall listed_transition new) /\
  landing_spot l' = landing_spot l.
Proof.
  intros Hin Htick. unfold tick in Htick.
  destruct (control_ok_inv _ _ _ _ Htick) as (v & n & p & Hrot & _).
  apply rotation_in_sequence in Hrot; [|exact Hin].
  destruct Hrot as (Hin' & Htr & _ & Hsp & _).
  repeat split; assumption.
Qed.

Lemma run_in_sequence k ts : forall l cs l',
  in_sequence (state l) -> run (S (S (S k))) ts l = Ok (cs, l') ->
  in_sequence (state l') /\
  (exists new, transitions l' = transitions l ++ new /\ Forall listed_transition new) /\
  landing_spot l' = landing_spot l.
Proof.
  induction ts as [|t ts IH]; intros l cs l' Hin Hrun.
  - injection Hrun as _ <-. split; [assumption|]. split; [|reflexivity].
    exists []. split; [rewrite app_nil_r; reflexivity|constructor].
  - cbn [run] in Hrun. unfold bind at 1 in Hrun.
    destruct (tick (S (S (S k))) t l) as [[c l1]|e] eqn:Htick; [|discriminate].
    unfold bind at 1 in Hrun.
    destruct (run (S (S (S k))) ts l1) as [[cs1 l2]|e] eqn:Hrest; [|discriminate].
    injection Hrun as _ <-.
    destruct (tick_in_sequence k t l c l1 Hin Htick) as (Hin1 & (tr1 & Htr1 & Hall1) & Hsp1).
    destruct (IH l1 cs1 l2 Hin1 Hrest) as (Hin2 & (tr2 & Htr2 & Hall2) & Hsp2).
    split; [assumption|]. split; [|congruence].
    exists (tr1 ++ tr2). split; [|apply Forall_app; split; assumption].
    rewrite Htr2, Htr1, app_assoc. reflexivity.
Qed.

Lemma run_total k ts : forall l,
  in_sequence (state l) -> Forall (record_in_range (landing_spot l)) ts ->
  global_lander l = BoundToLander ->
  exists cs l', run (S (S (S k))) ts l = Ok (cs, l').
Proof.
  induction ts as [|t ts IH]; intros l Hin Hall Hg.
  - do 2 eexists. reflexivity.
  - inversion Hall as [|? ? Ht Hts]; subst.
    destruct (control_total k (LanderM.update_state t l)) as (c & l1 & Hc).
    { apply in_sequence_runnable. exact Hin. }
    { exact Ht. }
    { left. exact Hg. }
    assert (Htick : tick (S (S (S k))) t l = Ok (c, l1)) by exact Hc.
    destruct (tick_in_sequence k t l c l1 Hin Htick) as (Hin1 & _ & Hsp1).
    destruct (IH l1 Hin1) as (cs & l2 & Hrun).
    { rewrite Hsp1. exact Hts. }
    { rewrite (control_keeps_global _ _ _ _ Hc). exact Hg. }
    exists (c :: cs), l2. cbn [run]. unfold bind. rewrite Htick, Hrun. reflexivity.
Qed.

(** [Descend] is terminal: every tick succeeds and assigns no state *)
Lemma descend_tick d t l :
  klass (state l) = Descend ->
  exists c, tick (S d) t l = Ok (c, LanderM.update_state t l).
Proof.
  intros Hk. unfold tick.
  assert (Hrot : update_rotation (S d) (state (LanderM.update_state t l))
                   (LanderM.update_state t l) =
                 Ok (if LanderM.altitude (LanderM.update_state t l) >? 100
                     then VInt (speed_h (now (LanderM.update_state t l))) else VInt 0,
                     LanderM.update_state t l)).
  { cbn [state LanderM.update_state]. destruct (state l) as [cls ns]. cbn in Hk. subst cls.
    apply descend_rotation. }
  destruct (descend_value_round (LanderM.update_state t l)) as [n Hn].
  destruct (control_from_rotation _ _ _ _ _ Hrot Hn) as (p & _ & _ & Hc).
  eexists. exact Hc.
Qed.

Lemma descend_run d ts : forall l,
  klass (state l) = Descend ->
  exists cs l', run (S d) ts l = Ok (cs, l') /\
    state l' = state l /\ transitions l' = transitions l.
Proof.
  induction ts as [|t ts IH]; intros l Hk.
  - do 2 eexists. split; [reflexivity|]. split; reflexivity.
  - destruct (descend_tick d t l Hk) as [c Htick].
    destruct (IH (LanderM.update_state t l) Hk) as (cs & l' & Hrun & Hst & Htr).
    exists (c :: cs), l'. cbn [run]. unfold bind. rewrite Htick, Hrun.
    split; [reflexivity|]. split; assumption.
Qed.

Lemma listed_not_hover tr : listed_transition tr -> klass (snd tr) <> Hover.
Proof.
  intros [[_ H]|[[_ H]|[_ H]]]; rewrite H; discriminate.
Qed.

(** C5. Starting from the approach state (whatever argument it was built
    with), every state a run reaches is the approach state, the braking state
    or [Descend]; every assignment to [lander.state] is an approach-to-brake,
    brake-to-approach or approach-to-descend transition; [Hover] never becomes
    the active state; and [Descend] is terminal: from it every run succeeds
    with the state unchanged and no assignment made.  Where the module-level
    name [lander] is bound to the vehicle the run does proceed on every
    telemetry in range; where it is unbound the run stops with [NameError] at
    a first record with [|hSpeed| > 20]. *)
Theorem sequence_shape k l arg :
  state l = approach_zone arg -> transitions l = [] ->
  (forall ts cs l', run (3 + k) ts l = Ok (cs, l') ->
     in_sequence (state l') /\ klass (state l') <> Hover /\
     Forall listed_transition (transitions l') /\
     Forall (fun tr => klass (snd tr) <> Hover) (transitions l')) /\
  (global_lander l = BoundToLander ->
   forall ts, Forall (record_in_range (landing_spot l)) ts ->
     exists cs l', run (3 + k) ts l = Ok (cs, l')) /\
  (global_lander l = Unbound ->
   forall t ts, 20 < Z.abs (speed_h t) -> run (3 + k) (t :: ts) l = Raise NameError) /\
  (forall d l0 ts, klass (state l0) = Descend ->
     exists cs l', run (S d) ts l0 = Ok (cs, l') /\
       state l' = state l0 /\ transitions l' = transitions l0).
Proof.
  intros Hs Htr0. cbn [Nat.add].
  assert (Hin0 : in_sequence (state l)) by (left; rewrite Hs; reflexivity).
  split; [|split; [|split]].
  - intros ts cs l' Hrun.
    apply run_in_sequence in Hrun; [|exact Hin0].
    destruct Hrun as (Hin & (new & Htr & Hall) & _).
    rewrite Htr0 in Htr. cbn [app] in Htr. rewrite Htr.
    split; [assumption|]. split.
    + destruct Hin as [ -> | [ -> | -> ] ]; discriminate.
    + split; [assumption|].
      apply (Forall_impl _ listed_not_hover). assumption.
  - intros Hg ts Hall. apply run_total; assumption.
  - intros Hg t ts Hfast. cbn [run]. unfold bind at 1, tick.
    rewrite control_unbound; [reflexivity| |exact Hg].
    cbn [state LanderM.update_state now]. rewrite Hs. split; [reflexivity|exact Hfast].
  - intros d l0 ts Hk. apply descend_run. assumption.
Qed.

Lemma sequence_shape_witness :
  let l := lander_in (approach_zone None) zone_0_1000 telemetry_too_fast in
  run 3 journey (bound_as_global l) = Ok (journey_commands, journey_end) /\
  in_sequence (state journey_end) /\
  Forall listed_transition (transitions journey_end) /\
  run 3 journey l = Raise NameError.
Proof.
  intros l.
  assert (Hrun : run 3 journey (bound_as_global l) = Ok (journey_commands, journey_end))
    by (vm_compute; reflexivity).
  split; [exact Hrun|].
  destruct (proj1 (sequence_shape 0 (bound_as_global l) None eq_refl eq_refl)
              journey journey_commands journey_end Hrun) as (Hin & _ & Hall & _).
  split; [exact Hin|]. split; [exact Hall|].
  apply (proj1 (proj2 (proj2 (sequence_shape 0 l None eq_refl eq_refl))) eq_refl).
  vm_compute. reflexivity.
Defined.

(** ** Power of the approach state *)

Lemma power_of_approach l :
  update_power ApproachZone l =
  Ok (VInt (if (LanderM.altitude l <? 100) && negb (LanderM.is_over_landing_spot l)
            then 4 else if speed_v (now l) >? -18 then 3 else 4), l).
Proof.
  unfold update_power, ApproachZone. cbn [klass].
  unfold StopOverLandingSpotM.update_power, bind, get, ret.
  destruct ((LanderM.altitude l <? 100) && negb (LanderM.is_over_landing_spot l));
    [reflexivity|].
  destruct (speed_v (now l) >? -18); reflexivity.
Qed.

(** C6 as stated fails: at exactly [vSpeed = -18], high over the zone, the
    desired power of the approach state is 4, not 3. *)
Lemma approach_power_at_minus_18_counterexample :
  let l := lander_in ApproachZone zone_0_1000 telemetry_falling_18 in
  ~ (LanderM.altitude l < 100 /\ LanderM.is_over_landing_spot l = false) /\
  speed_v (now l) = -18 /\
  update_power (state l) l = Ok (VInt 4, l) /\
  update_power (state l) l <> Ok (VInt 3, l).
Proof.
  intros l. split; [intros [H _]; vm_compute in H; discriminate H|].
  split; [reflexivity|]. split; [reflexivity|]. discriminate.
Qed.

(** C6, amended. In the approach state, when it is not the case that the
    altitude is below 100 with the vehicle off the zone, the desired power is
    3 if [vSpeed > -18] and 4 otherwise; at exactly [vSpeed = -18] it is 4. *)
Theorem approach_power l :
  ~ (LanderM.altitude l < 100 /\ LanderM.is_over_landing_spot l = false) ->
  (speed_v (now l) > -18 -> update_power ApproachZone l = Ok (VInt 3, l)) /\
  (speed_v (now l) <= -18 -> update_power ApproachZone l = Ok (VInt 4, l)) /\
  (speed_v (now l) = -18 -> update_power ApproachZone l = Ok (VInt 4, l)).
Proof.
  intros Hguard. rewrite power_of_approach.
  assert (Hg : (LanderM.altitude l <? 100) && negb (LanderM.is_over_landing_spot l) = false).
  { apply andb_false_iff. destruct (LanderM.altitude l <? 100) eqn:Ha; [|left; reflexivity].
    right. apply negb_false_iff. apply Z.ltb_lt in Ha.
    destruct (LanderM.is_over_landing_spot l); [reflexivity|].
    exfalso. apply Hguard. split; [assumption|reflexivity]. }
  rewrite Hg.
  assert (Hlow : speed_v (now l) <= -18 -> (speed_v (now l) >? -18) = false)
    by (intros H; rewrite Z.gtb_ltb; apply Z.ltb_ge; lia).
  split; [|split].
  - intros Hv. replace (speed_v (now l) >? -18) with true; [reflexivity|].
    symmetry. rewrite Z.gtb_ltb. apply Z.ltb_lt. lia.
  - intros Hv. rewrite Hlow by assumption. reflexivity.
  - intros Hv. rewrite Hlow by lia. reflexivity.
Qed.

Lemma approach_power_witness :
  let l := lander_in ApproachZone zone_0_1000 telemetry_falling_18 in
  update_power ApproachZone l = Ok (VInt 4, l).
Proof.
  intros l.
  assert (Hguard : ~ (LanderM.altitude l < 100 /\ LanderM.is_over_landing_spot l = false))
    by (intros [H _]; vm_compute in H; discriminate H).
  apply (proj2 (proj2 (approach_power l Hguard))). reflexivity.
Defined.

(** ** Rounding mode of the encoder *)

(** C7 as stated fails: [round] sends the exact halves 0.5 and -0.5 to 0,
    where rounding half away from zero gives 1 and -1; and in the braking
    state at horizontal speed 21 the desired rotation 10.5 is encoded as 10,
    not 11. *)
Lemma round_half_away_counterexample :
  (value_to_Q (VFloat F64.lit_0_5) == 1 # 2)%Q /\
  py_round (VFloat F64.lit_0_5) = Ok 0 /\
  round_half_away_from_zero (value_to_Q (VFloat F64.lit_0_5)) = 1 /\
  (value_to_Q (VFloat double_minus_0_5) == - (1 # 2))%Q /\
  py_round (VFloat double_minus_0_5) = Ok 0 /\
  round_half_away_from_zero (value_to_Q (VFloat double_minus_0_5)) = -1 /\
  (let l := lander_in BleedSpeed zone_0_1000 telemetry_edge_21 in
   update_rotation 3 (state l) l = Ok (VFloat double_10_5, l) /\
   (value_to_Q (VFloat double_10_5) == 21 # 2)%Q /\
   control 3 l = Ok (mkCommand 10 4, l) /\
   round_half_away_from_zero (value_to_Q (VFloat double_10_5)) = 11).
Proof.
  repeat split; vm_compute; reflexivity.
Qed.

(** C7, amended. The rounding of the encoder is round-half-to-even: for
    every desired number (an int or a finite double) the integer produced
    before clamping is a nearest integer to it, and the even one of the two
    when the number is exactly half way; 0.5 and -0.5 round to 0, 1.5 and 2.5
    to 2.  [control_rotate] and [control_power] clamp that integer. *)
Theorem round_half_to_even :
  (forall v, is_number v = true ->
     exists n, py_round v = Ok n /\ nearest_ties_to_even (value_to_Q v) n) /\
  (forall (upd : M value) v l l' n, upd l = Ok (v, l') -> py_round v = Ok n ->
     StateBase.control_rotate upd l = Ok (clamp (-90) 90 n, l') /\
     StateBase.control_power upd l = Ok (clamp 0 4 n, l')) /\
  py_round (VFloat F64.lit_0_5) = Ok 0 /\
  py_round (VFloat double_minus_0_5) = Ok 0 /\
  py_round (VFloat double_1_5) = Ok 2 /\
  py_round (VFloat double_2_5) = Ok 2.
Proof.
  split; [|split; [|repeat split]].
  - intros [|n|f] Hnum; cbn in Hnum; try discriminate.
    + exists n. split; [reflexivity|apply nearest_same].
    + apply round_nearest. assumption.
  - intros upd v l l' n Hupd Hn.
    rewrite control_rotate_eq, control_power_eq, Hupd, Hn. split; reflexivity.
Qed.

Lemma round_half_to_even_witness :
  exists n, py_round (VFloat double_10_5) = Ok n /\
            nearest_ties_to_even (value_to_Q (VFloat double_10_5)) n /\ n = 10.
Proof.
  destruct (proj1 round_half_to_even (VFloat double_10_5) eq_refl) as (n & Hn & Hnear).
  exists n. split; [exact Hn|]. split; [exact Hnear|].
  vm_compute in Hn. injection Hn as <-. reflexivity.
Defined.

(** ** Distance to the landing spot *)

Lemma distance_left l :
  LanderM.is_left_of_landing_spot l = true ->
  LanderM.distance_to_landing_spot l = Ok (VInt (x (now l) - left (landing_spot l))) /\
  x (now l) - left (landing_spot l) < 0.
Proof.
  intros H. unfold LanderM.distance_to_landing_spot. rewrite H.
  split; [reflexivity|]. apply Z.ltb_lt in H. lia.
Qed.

(** C8 as stated fails: a vehicle at rest 500 to the left of the zone has
    the offset -500, never 500; its desired rotation is the double -20.0 and
    the rotation command is -20, not 20. *)
Lemma approach_left_500_counterexample :
  let l := lander_in ApproachZone zone_1000_2000 telemetry_500_left in
  LanderM.is_left_of_landing_spot l = true /\ speed_h (now l) = 0 /\
  LanderM.distance_to_landing_spot l = Ok (VInt (-500)) /\
  LanderM.distance_to_landing_spot l <> Ok (VInt 500) /\
  update_rotation 3 (state l) l = Ok (VFloat double_minus_20, l) /\
  (F64.to_Q double_minus_20 == - (20 # 1))%Q /\
  control 3 l = Ok (mkCommand (-20) 3, l) /\
  control 3 l <> Ok (mkCommand 20 3, l).
Proof.
  repeat split; try (vm_compute; reflexivity); vm_compute; discriminate.
Qed.

(** C8, amended. In the approach state, for a vehicle at rest left of the
    zone the offset to the zone is negative; at offset -500 (500 to the left
    of the left edge) the desired rotation is -500 * 0.04, the double -20.0,
    and the rotation command is -20.  Mirrored: at rest 500 to the right of
    the right edge the offset is 500, the desired rotation the double 20.0
    and the command 20. *)
Theorem approach_proportional_500 k l :
  state l = ApproachZone -> speed_h (now l) = 0 ->
  (LanderM.is_left_of_landing_spot l = true ->
   exists d, LanderM.distance_to_landing_spot l = Ok (VInt d) /\ d < 0) /\
  (x (now l) - left (landing_spot l) = -500 ->
   LanderM.distance_to_landing_spot l = Ok (VInt (-500)) /\
   update_rotation (3 + k) (state l) l = Ok (VFloat double_minus_20, l) /\
   (F64.to_Q double_minus_20 == - (20 # 1))%Q /\
   exists p, control (3 + k) l = Ok (mkCommand (-20) p, l)) /\
  (x (now l) - right (landing_spot l) = 500 ->
   left (landing_spot l) <= right (landing_spot l) ->
   LanderM.distance_to_landing_spot l = Ok (VInt 500) /\
   update_rotation (3 + k) (state l) l = Ok (VFloat double_20, l) /\
   (F64.to_Q double_20 == 20 # 1)%Q /\
   exists p, control (3 + k) l = Ok (mkCommand 20 p, l)).
Proof.
  intros Hs Hh. cbn [Nat.add].
  assert (Hslow : Z.abs (speed_h (now l)) <= 20) by lia.
  split; [|split].
  - intros Hleft. destruct (distance_left l Hleft) as [Hd Hneg].
    eexists. split; [exact Hd|exact Hneg].
  - intros Hoff.
    assert (Hleft : LanderM.is_left_of_landing_spot l = true)
      by (apply Z.ltb_lt; lia).
    assert (Hover : LanderM.is_over_landing_spot l = false)
      by (apply andb_false_iff; left; apply Z.leb_gt; lia).
    destruct (distance_left l Hleft) as [Hd _]. rewrite Hoff in Hd.
    assert (Hrot : update_rotation (S (S (S k))) (state l) l =
                   Ok (VFloat double_minus_20, l)).
    { rewrite Hs. unfold ApproachZone. rewrite approach_rotation_off by assumption.
      unfold StopOverLandingSpotM.move_towards_landing_spot, bind at 1, get at 1.
      rewrite Hleft, Hh. cbn [Z.ltb Z.compare StopOverLandingSpotM.MAX_SPEED].
      unfold bind, lift. rewrite Hd. reflexivity. }
    split; [exact Hd|]. split; [exact Hrot|]. split; [reflexivity|].
    destruct (control_from_rotation _ _ _ _ (-20) Hrot eq_refl) as (p & _ & _ & Hc).
    exists p. exact Hc.
  - intros Hoff Hlr.
    assert (Hleft : LanderM.is_left_of_landing_spot l = false)
      by (apply Z.ltb_ge; lia).
    assert (Hright : LanderM.is_right_of_landing_spot l = true)
      by (unfold LanderM.is_right_of_landing_spot; rewrite Z.gtb_ltb; apply Z.ltb_lt; lia).
    assert (Hover : LanderM.is_over_landing_spot l = false)
      by (apply andb_false_iff; right; apply Z.leb_gt; lia).
    assert (Hd : LanderM.distance_to_landing_spot l = Ok (VInt 500)).
    { unfold LanderM.distance_to_landing_spot. rewrite Hleft, Hright, Hoff. reflexivity. }
    assert (Hrot : update_rotation (S (S (S k))) (state l) l =
                   Ok (VFloat double_20, l)).
    { rewrite Hs. unfold ApproachZone. rewrite approach_rotation_off by assumption.
      unfold StopOverLandingSpotM.move_towards_landing_spot, bind at 1, get at 1.
      rewrite Hleft, Hright, Hh. cbn [Z.gtb Z.opp Z.compare StopOverLandingSpotM.MAX_SPEED].
      unfold bind, lift. rewrite Hd. reflexivity. }
    split; [exact Hd|]. split; [exact Hrot|]. split; [reflexivity|].
    destruct (control_from_rotation _ _ _ _ 20 Hrot eq_refl) as (p & _ & _ & Hc).
    exists p. exact Hc.
Qed.

Lemma approach_proportional_500_witness :
  let l := lander_in ApproachZone zone_1000_2000 telemetry_500_left in
  let r := lander_in ApproachZone zone_1000_2000 telemetry_500_right in
  (exists p, control 3 l = Ok (mkCommand (-20) p, l)) /\
  (exists p, control 3 r = Ok (mkCommand 20 p, r)).
Proof.
  intros l r. split.
  - apply (proj1 (proj2 (approach_proportional_500 0 l eq_refl eq_refl))). reflexivity.
  - apply (proj2 (proj2 (approach_proportional_500 0 r eq_refl eq_refl))).
    + reflexivity.
    + cbn. lia.
Defined.

(** C9 as stated fails: over the zone the query raises nothing; it returns
    [None]. *)
Lemma distance_over_zone_counterexample :
  let l := lander_in ApproachZone zone_0_1000 telemetry_falling_18 in
  left (landing_spot l) <= x (now l) <= right (landing_spot l) /\
  LanderM.distance_to_landing_spot l = Ok VNone /\
  forall e, LanderM.distance_to_landing_spot l <> Raise e.
Proof.
  intros l. split; [cbn; lia|]. split; [reflexivity|]. intros e. discriminate.
Qed.

(** C9, amended. For every vehicle over the zone ([left <= x <= right]) the
    query of the distance raises no error and returns [None]; no query ever
    raises.  An error arises only where a caller uses that [None] as a
    number: the product with the gain and [round] raise [TypeError].  The
    approach state does not query the distance over the zone: there its
    rotation method never reaches [move_towards_landing_spot]; it hands over
    to [Descend] at safe speed and calls [transition_to_stop] otherwise
    (which raises [NameError] where the module-level name [lander] is
    unbound, and returns the braking product where it is bound to the
    vehicle). *)
Theorem distance_over_zone l :
  (forall e, LanderM.distance_to_landing_spot l <> Raise e) /\
  (left (landing_spot l) <= x (now l) <= right (landing_spot l) ->
   LanderM.distance_to_landing_spot l = Ok VNone /\
   py_mul VNone (VFloat StopOverLandingSpotM.scale) = Raise TypeError /\
   py_round VNone = Raise TypeError /\
   forall k, update_rotation (2 + k) ApproachZone l =
     if StopOverLandingSpotM.is_too_fast l then
       match global_lander l with
       | Unbound => Raise NameError
       | BoundToLander =>
           lift (py_mul (VInt (speed_h (now l))) (VFloat F64.lit_0_5))
                (assign_state ApproachZone BleedSpeed l)
       end
     else
       Ok (if LanderM.altitude l >? 100 then VInt (speed_h (now l)) else VInt 0,
           assign_state ApproachZone DescendState l)).
Proof.
  split.
  - intros e. unfold LanderM.distance_to_landing_spot.
    destruct (LanderM.is_left_of_landing_spot l);
      [|destruct (LanderM.is_right_of_landing_spot l)]; discriminate.
  - intros Hover.
    assert (Hleft : LanderM.is_left_of_landing_spot l = false) by (apply Z.ltb_ge; lia).
    assert (Hright : LanderM.is_right_of_landing_spot l = false)
      by (unfold LanderM.is_right_of_landing_spot; rewrite Z.gtb_ltb; apply Z.ltb_ge; lia).
    split; [|split; [|split]]; try reflexivity.
    + unfold LanderM.distance_to_landing_spot. rewrite Hleft, Hright. reflexivity.
    + intros k. cbn [Nat.add]. rewrite approach_zone_rotation.
      rewrite (proj2 (over_iff l) Hover). reflexivity.
Qed.

Lemma distance_over_zone_witness :
  let l := lander_in ApproachZone zone_0_1000 telemetry_falling_18 in
  LanderM.distance_to_landing_spot l = Ok VNone.
Proof.
  intros l. apply (proj2 (distance_over_zone l)). cbn. lia.
Defined.

(** ** The successor of the approach state *)

(** C10. Whatever next-state argument [StopOverLandingSpot] is constructed
    with, [None] as the braking state passes it or any class, the instance's
    [next_state] is [Descend], two such instances do not differ, and over the
    zone at safe speed the instance hands over to a [Descend] instance. *)
Theorem approach_successor_is_descend arg :
  new2 StopOverLandingSpot arg = Ok (approach_zone arg) /\
  next_state (approach_zone arg) = Some Descend /\
  (forall arg', approach_zone arg' = approach_zone arg) /\
  call2 (next_state BleedSpeed) None = Ok (approach_zone None) /\
  call1 (next_state (approach_zone arg)) = Ok DescendState /\
  (forall k l, state l = approach_zone arg ->
     left (landing_spot l) <= x (now l) <= right (landing_spot l) ->
     Z.abs (speed_h (now l)) <= 20 ->
     exists c, control (3 + k) l =
               Ok (c, assign_state (approach_zone arg) DescendState l)).
Proof.
  split; [reflexivity|]. split; [reflexivity|]. split; [reflexivity|].
  split; [reflexivity|]. split; [reflexivity|].
  intros k l Hs Hover Hh. apply approach_hands_over; try assumption.
  apply over_iff. assumption.
Qed.

Lemma approach_successor_is_descend_witness :
  let l := lander_in (approach_zone (Some Hover)) zone_0_1000 telemetry_edge_20 in
  exists c, control 3 l = Ok (c, assign_state (approach_zone (Some Hover)) DescendState l).
Proof.
  intros l.
  apply (proj2 (proj2 (proj2 (proj2 (proj2 (approach_successor_is_descend (Some Hover))))))
           0%nat l eq_refl); cbn; lia.
Defined.

(** ** Remarks on the script *)

(** The main block builds its first state with [StopOverLandingSpot(lander)],
    one argument short of what the constructor requires. *)
Remark main_constructor_call : new1 StopOverLandingSpot = Raise TypeError.
Proof. reflexivity. Qed.

(** The zone found has [right - left >= 1000]. *)
Remark find_safe_spot_wide profile spot :
  Surface.find_safe_spot profile = Ok spot -> right spot - left spot >= 1000.
Proof.
  destruct profile as [|old_spot rest]; [discriminate|].
  unfold Surface.find_safe_spot. intros H.
  pose proof (find_safe_spot_loop_spec rest old_spot) as Hspec. rewrite H in Hspec.
  destruct Hspec as (i & a & b & (_ & Hq & _) & ->). apply Hq.
Qed.

(** The literal [0.04] is the double nearest to 4/100 (within half a unit in
    the last place, 2^-58), and [0.5] is exact. *)
Remark gain_literals :
  (Qabs (F64.to_Q F64.lit_0_04 - (4 # 100)) <= 1 # (2 ^ 58))%Q /\
  (F64.to_Q F64.lit_0_5 == 1 # 2)%Q.
Proof. split; vm_compute; [discriminate|reflexivity]. Qed.

(** [Hover]: no drift gives no tilt; rising gives power 3, falling power 4. *)
Example hover_commands :
  let hover t := control 3 (lander_in (mkState Hover None) zone_0_1000 t) in
  (exists l, hover (mkTelemetry 500 2000 0 5 500 0 0) = Ok (mkCommand 0 3, l)) /\
  (exists l, hover (mkTelemetry 500 2000 0 (-5) 500 0 0) = Ok (mkCommand 0 4, l)).
Proof. split; eexists; reflexivity. Qed.

(** A braking state whose designated next state is [None] or [Stop] cannot
    complete its transition. *)
Example stop_without_successor :
  let slow := mkTelemetry 500 2000 0 0 500 0 0 in
  control 3 (lander_in (mkState Stop None) zone_0_1000 slow) = Raise TypeError /\
  control 3 (lander_in (mkState Stop (Some Stop)) zone_0_1000 slow) = Raise TypeError.
Proof. split; reflexivity. Qed.

(** * Further properties of the code *)

(** ** Terrain scan: edges, invariants, extension *)

(** X1. [find_safe_spot] raises [IndexError] exactly on the empty surface;
    on a surface of one point it raises its own exception, there being no
    pair to test. *)
Theorem find_safe_spot_empty (profile : Surface.t) :
  (Surface.find_safe_spot profile = Raise IndexError <-> profile = []) /\
  (forall p, Surface.find_safe_spot [p] = Raise (Exception "Failed to find safe spot")).
Proof.
  split; [|reflexivity].
  split; [|intros ->; reflexivity].
  destruct profile as [|old_spot rest]; [reflexivity|].
  unfold Surface.find_safe_spot. intros H.
  pose proof (find_safe_spot_loop_spec rest old_spot) as Hspec.
  rewrite H in Hspec. destruct Hspec as [Hspec _]. discriminate Hspec.
Qed.

(** X2. The landing spot [find_safe_spot] returns is built from two adjacent
    points of the surface, is flat and at least 1000 wide: [left + 1000 <=
    right], both points have the height of the spot. *)
Theorem landing_spot_invariant (profile : Surface.t) (spot : LandingSpot) :
  Surface.find_safe_spot profile = Ok spot ->
  left spot + 1000 <= right spot /\
  left spot = px (spot_start spot) /\ right spot = px (spot_end spot) /\
  height spot = py (spot_start spot) /\ height spot = py (spot_end spot) /\
  exists i, adjacent profile i (spot_start spot) (spot_end spot).
Proof.
  destruct profile as [|old_spot rest]; [discriminate|].
  unfold Surface.find_safe_spot. intros H.
  pose proof (find_safe_spot_loop_spec rest old_spot) as Hspec. rewrite H in Hspec.
  destruct Hspec as (i & a & b & (Hadj & [Hy Hx] & _) & ->).
  cbn [LandingSpot_init left right height spot_start spot_end].
  repeat split; try lia. exists i. exact Hadj.
Qed.

Lemma landing_spot_invariant_witness :
  left zone_0_1000 + 1000 <= right zone_0_1000.
Proof.
  apply (landing_spot_invariant terrain_example zone_0_1000). reflexivity.
Defined.

Lemma last_nonempty_default (r : list Point) : forall p d1 d2,
  last (p :: r) d1 = last (p :: r) d2.
Proof.
  induction r as [|q r IH]; intros p d1 d2; [reflexivity|].
  change (last (q :: r) d1 = last (q :: r) d2). apply IH.
Qed.

Lemma find_safe_spot_loop_app rest more : forall old_spot,
  Surface.find_safe_spot_loop old_spot (rest ++ more) =
  match Surface.find_safe_spot_loop old_spot rest with
  | Ok spot => Ok spot
  | Raise _ => Surface.find_safe_spot_loop (last rest old_spot) more
  end.
Proof.
  induction rest as [|new_spot rest IH]; intros old_spot.
  - reflexivity.
  - cbn [app Surface.find_safe_spot_loop].
    destruct (Surface.is_flat_and_wide old_spot new_spot); [reflexivity|].
    rewrite IH. destruct (Surface.find_safe_spot_loop new_spot rest); [reflexivity|].
    f_equal. destruct rest as [|p rest']; [reflexivity|].
    change (last (p :: rest') new_spot = last (p :: rest') old_spot).
    apply last_nonempty_default.
Qed.

(** X3. The scan of a surface extended by more points: a landing spot found
    in the surface stays the result, whatever is added; when none is found
    the scan goes on from the last point of the surface through the added
    ones. *)
Theorem find_safe_spot_extended (profile more : Surface.t) :
  (forall spot, Surface.find_safe_spot profile = Ok spot ->
     Surface.find_safe_spot (profile ++ more) = Ok spot) /\
  (forall first rest e, profile = first :: rest ->
     Surface.find_safe_spot profile = Raise e ->
     Surface.find_safe_spot (profile ++ more) =
     Surface.find_safe_spot_loop (last rest first) more).
Proof.
  split.
  - intros spot. destruct profile as [|old_spot rest]; [discriminate|].
    cbn [app Surface.find_safe_spot]. intros H.
    rewrite find_safe_spot_loop_app, H. reflexivity.
  - intros first rest e -> H. cbn [app Surface.find_safe_spot] in *.
    rewrite find_safe_spot_loop_app, H. reflexivity.
Qed.

Lemma find_safe_spot_extended_witness :
  Surface.find_safe_spot (terrain_example ++ [mkPoint 3000 150; mkPoint 5000 150])
    = Ok zone_0_1000 /\
  Surface.find_safe_spot ([mkPoint 0 100; mkPoint 500 200] ++ [mkPoint 1500 200])
    = Ok (LandingSpot_init (mkPoint 500 200) (mkPoint 1500 200)).
Proof.
  split.
  - apply (proj1 (find_safe_spot_extended terrain_example
                    [mkPoint 3000 150; mkPoint 5000 150])). reflexivity.
  - rewrite (proj2 (find_safe_spot_extended [mkPoint 0 100; mkPoint 500 200]
                      [mkPoint 1500 200])
               (mkPoint 0 100) [mkPoint 500 200]
               (Exception "Failed to find safe spot") eq_refl eq_refl).
    reflexivity.
Defined.

(** ** The sequence methods of [Surface] *)

Lemma position_nonneg n j :
  0 <= j -> SurfaceOps.position n j =
            if j <? Z.of_nat n then Some (Z.to_nat j) else None.
Proof.
  intros Hj. unfold SurfaceOps.position.
  replace (j <? 0) with false by (symmetry; apply Z.ltb_ge; lia).
  replace (0 <=? j) with true by (symmetry; apply Z.leb_le; lia).
  reflexivity.
Qed.

Lemma position_bound n i k : SurfaceOps.position n i = Some k -> (k < n)%nat.
Proof.
  unfold SurfaceOps.position.
  destruct ((0 <=? (if i <? 0 then i + Z.of_nat n else i)) &&
            ((if i <? 0 then i + Z.of_nat n else i) <? Z.of_nat n)) eqn:H; [|discriminate].
  apply andb_true_iff in H. destruct H as [H0 H1].
  apply Z.leb_le in H0. apply Z.ltb_lt in H1. intros [= <-]. lia.
Qed.

Lemma getitem_position self i :
  SurfaceOps.getitem self i =
  match SurfaceOps.position (List.length self) i with
  | Some k => match nth_error self k with Some p => Ok p | None => Raise IndexError end
  | None => Raise IndexError
  end.
Proof. reflexivity. Qed.

Lemma getitem_nth self j :
  0 <= j ->
  SurfaceOps.getitem self j =
  match nth_error self (Z.to_nat j) with Some p => Ok p | None => Raise IndexError end.
Proof.
  intros Hj. unfold SurfaceOps.getitem. rewrite position_nonneg by assumption.
  destruct (j <? Z.of_nat (List.length self)) eqn:Hlt; [reflexivity|].
  apply Z.ltb_ge in Hlt.
  assert (Hnone : nth_error self (Z.to_nat j) = None) by (apply nth_error_None; lia).
  rewrite Hnone. reflexivity.
Qed.

Lemma nth_error_firstn_lt (self : list Point) k m :
  (m < k)%nat -> nth_error (firstn k self) m = nth_error self m.
Proof.
  intros Hlt. rewrite nth_error_firstn.
  rewrite (proj2 (Nat.ltb_lt m k) Hlt). reflexivity.
Qed.

Lemma nth_error_replaced (self : list Point) k v m :
  (k < List.length self)%nat ->
  nth_error (firstn k self ++ v :: skipn (S k) self) m =
  if Nat.eqb m k then Some v else nth_error self m.
Proof.
  intros Hk.
  assert (Hlen : List.length (firstn k self) = k) by (apply firstn_length_le; lia).
  destruct (Nat.eqb m k) eqn:Hmk.
  - apply Nat.eqb_eq in Hmk. subst m.
    rewrite nth_error_app2 by lia. rewrite Hlen, Nat.sub_diag. reflexivity.
  - apply Nat.eqb_neq in Hmk.
    destruct (Nat.lt_ge_cases m k) as [Hlt|Hge].
    + rewrite nth_error_app1 by lia. apply nth_error_firstn_lt. assumption.
    + rewrite nth_error_app2 by lia. rewrite Hlen.
      destruct (m - k)%nat as [|d] eqn:Hd; [lia|].
      cbn [nth_error]. rewrite nth_error_skipn. f_equal. lia.
Qed.

Lemma nth_error_inserted (self : list Point) a v m :
  (a <= List.length self)%nat ->
  nth_error (firstn a self ++ v :: skipn a self) m =
  if (m <? a)%nat then nth_error self m
  else if Nat.eqb m a then Some v else nth_error self (m - 1).
Proof.
  intros Ha.
  assert (Hlen : List.length (firstn a self) = a) by (apply firstn_length_le; lia).
  destruct (m <? a)%nat eqn:Hlt.
  - apply Nat.ltb_lt in Hlt. rewrite nth_error_app1 by lia.
    apply nth_error_firstn_lt. assumption.
  - apply Nat.ltb_ge in Hlt. rewrite nth_error_app2 by lia. rewrite Hlen.
    destruct (Nat.eqb m a) eqn:Hma.
    + apply Nat.eqb_eq in Hma. subst m. rewrite Nat.sub_diag. reflexivity.
    + apply Nat.eqb_neq in Hma.
      destruct (m - a)%nat as [|d] eqn:Hd; [lia|].
      cbn [nth_error]. rewrite nth_error_skipn. f_equal. lia.
Qed.

Lemma nth_error_deleted (self : list Point) k m :
  (k < List.length self)%nat ->
  nth_error (firstn k self ++ skipn (S k) self) m =
  if (m <? k)%nat then nth_error self m else nth_error self (S m).
Proof.
  intros Hk.
  assert (Hlen : List.length (firstn k self) = k) by (apply firstn_length_le; lia).
  destruct (m <? k)%nat eqn:Hlt.
  - apply Nat.ltb_lt in Hlt. rewrite nth_error_app1 by lia.
    apply nth_error_firstn_lt. assumption.
  - apply Nat.ltb_ge in Hlt. rewrite nth_error_app2 by lia. rewrite Hlen.
    rewrite nth_error_skipn. f_equal. lia.
Qed.

Lemma length_inserted (self : list Point) a v :
  List.length (firstn a self ++ v :: skipn a self) = S (List.length self).
Proof.
  rewrite length_app. cbn [List.length]. rewrite Nat.add_succ_r, <- length_app.
  rewrite firstn_skipn. reflexivity.
Qed.

(** [list_insert] in terms of the position the index denotes *)
Lemma list_insert_at self i v :
  let k := if i <? 0 then Z.max 0 (i + SurfaceOps.len self)
           else Z.min i (SurfaceOps.len self) in
  0 <= k <= SurfaceOps.len self /\
  SurfaceOps.list_insert self i v =
  firstn (Z.to_nat k) self ++ v :: skipn (Z.to_nat k) self.
Proof.
  cbv zeta. split; [|reflexivity].
  assert (0 <= SurfaceOps.len self) by (unfold SurfaceOps.len; lia).
  destruct (i <? 0) eqn:Hneg; [lia|]. apply Z.ltb_ge in Hneg. lia.
Qed.

Lemma insert_ok_iff self i v :
  SurfaceOps.insert self i v =
  if (SurfaceOps.PY_SSIZE_T_MIN <=? i) && (i <=? SurfaceOps.PY_SSIZE_T_MAX)
  then Ok (SurfaceOps.list_insert self i v) else Raise OverflowError.
Proof. reflexivity. Qed.

(** X4. [insert] raises [OverflowError] exactly for an index outside the
    range of a [Py_ssize_t], and raises nothing else.  Otherwise it makes the
    surface one longer: the new point is read back at the position the index
    denotes (the index itself when it lies between 0 and the length, counted
    from the end when it is negative, clamped into [0, len]), the points
    before that position keep their index and the points from it on move up
    by one.  An index at or beyond the end appends, and one at or before
    minus the length prepends. *)
Theorem insert_getitem (self : Surface.t) (i : Z) (v : Point) :
  (SurfaceOps.insert self i v = Raise OverflowError <->
   i < SurfaceOps.PY_SSIZE_T_MIN \/ SurfaceOps.PY_SSIZE_T_MAX < i) /\
  (forall e, SurfaceOps.insert self i v = Raise e -> e = OverflowError) /\
  (forall s, SurfaceOps.insert self i v = Ok s ->
     let k := if i <? 0 then Z.max 0 (i + SurfaceOps.len self)
              else Z.min i (SurfaceOps.len self) in
     SurfaceOps.len s = SurfaceOps.len self + 1 /\
     SurfaceOps.getitem s k = Ok v /\
     (forall j, 0 <= j < k -> SurfaceOps.getitem s j = SurfaceOps.getitem self j) /\
     (forall j, k <= j -> SurfaceOps.getitem s (j + 1) = SurfaceOps.getitem self j) /\
     (0 <= i <= SurfaceOps.len self -> k = i) /\
     (SurfaceOps.len self <= i -> s = self ++ [v]) /\
     (i <= - SurfaceOps.len self -> s = v :: self)).
Proof.
  assert (Hlen0 : 0 <= SurfaceOps.len self) by (unfold SurfaceOps.len; lia).
  rewrite insert_ok_iff.
  destruct ((SurfaceOps.PY_SSIZE_T_MIN <=? i) && (i <=? SurfaceOps.PY_SSIZE_T_MAX))
    eqn:Hrange.
  - apply andb_true_iff in Hrange. destruct Hrange as [Hlo Hhi].
    apply Z.leb_le in Hlo. apply Z.leb_le in Hhi.
    split; [split; [discriminate|lia]|]. split; [discriminate|].
    intros s Hs. apply Ok_inj in Hs. subst s.
    destruct (list_insert_at self i v) as [Hk Heq]. cbv zeta in Hk, Heq |- *.
    set (k := if i <? 0 then Z.max 0 (i + SurfaceOps.len self)
              else Z.min i (SurfaceOps.len self)) in *.
    rewrite Heq.
    assert (Ha : (Z.to_nat k <= List.length self)%nat) by (unfold SurfaceOps.len in Hk; lia).
    split; [|split; [|split; [|split; [|split; [|split]]]]].
    + unfold SurfaceOps.len at 1. rewrite length_inserted. unfold SurfaceOps.len. lia.
    + rewrite getitem_nth by lia. rewrite nth_error_inserted by assumption.
      rewrite Nat.ltb_irrefl, Nat.eqb_refl. reflexivity.
    + intros j Hj. rewrite !getitem_nth by lia. rewrite nth_error_inserted by assumption.
      replace (Z.to_nat j <? Z.to_nat k)%nat with true
        by (symmetry; apply Nat.ltb_lt; lia).
      reflexivity.
    + intros j Hj. rewrite !getitem_nth by lia. rewrite nth_error_inserted by assumption.
      replace (Z.to_nat (j + 1) <? Z.to_nat k)%nat with false
        by (symmetry; apply Nat.ltb_ge; lia).
      replace (Nat.eqb (Z.to_nat (j + 1)) (Z.to_nat k)) with false
        by (symmetry; apply Nat.eqb_neq; lia).
      replace (Z.to_nat (j + 1) - 1)%nat with (Z.to_nat j) by lia. reflexivity.
    + intros Hi. unfold k.
      replace (i <? 0) with false by (symmetry; apply Z.ltb_ge; lia). lia.
    + intros Hi.
      assert (Hk' : k = SurfaceOps.len self).
      { unfold k. replace (i <? 0) with false by (symmetry; apply Z.ltb_ge; lia). lia. }
      rewrite Hk'. unfold SurfaceOps.len. rewrite Nat2Z.id.
      rewrite firstn_all, skipn_all. reflexivity.
    + intros Hi.
      assert (Hk' : k = 0).
      { unfold k. destruct (i <? 0) eqn:Hneg; [lia|]. apply Z.ltb_ge in Hneg. lia. }
      rewrite Hk'. reflexivity.
  - apply andb_false_iff in Hrange.
    split; [split; [intros _|reflexivity]|].
    + destruct Hrange as [H|H]; apply Z.leb_gt in H; lia.
    + split; [intros e He; injection He as <-; reflexivity|]. intros s Hs. discriminate Hs.
Qed.

Lemma insert_getitem_witness :
  exists s, SurfaceOps.insert terrain_example (-1) (mkPoint 1500 120) = Ok s /\
            SurfaceOps.getitem s 2 = Ok (mkPoint 1500 120) /\
            SurfaceOps.len s = 4.
Proof.
  eexists. split; [reflexivity|].
  pose proof (proj2 (proj2 (insert_getitem terrain_example (-1) (mkPoint 1500 120)))
                _ eq_refl) as H.
  cbv zeta in H. destruct H as (Hlen & Hget & _).
  split; [exact Hget|exact Hlen].
Defined.

Lemma append_app self v : SurfaceOps.append self v = self ++ [v].
Proof.
  unfold SurfaceOps.append, SurfaceOps.list_insert.
  replace (SurfaceOps.len self <? 0) with false
    by (symmetry; apply Z.ltb_ge; unfold SurfaceOps.len; lia).
  rewrite Z.min_id. unfold SurfaceOps.len. rewrite Nat2Z.id.
  rewrite firstn_all, skipn_all. reflexivity.
Qed.

Lemma extend_app vs : forall self, SurfaceOps.extend self vs = self ++ vs.
Proof.
  induction vs as [|v vs IH]; intros self.
  - cbn. rewrite app_nil_r. reflexivity.
  - unfold SurfaceOps.extend in *. cbn [fold_left]. rewrite IH, append_app.
    rewrite <- app_assoc. reflexivity.
Qed.

(** X5. Built by appends, a surface holds its points in the order they were
    given: [append] adds at the end, [extend] adds the items in order, the
    constructor yields its arguments, and [codingame_initilisation] returns
    exactly the parsed points when a landing spot exists and raises what
    [find_safe_spot] raises when none does. *)
Theorem surface_built_in_order (points : list Point) :
  (forall self v, SurfaceOps.append self v = self ++ [v]) /\
  (forall self, SurfaceOps.extend self points = self ++ points) /\
  SurfaceOps.init points = points /\
  codingame_initilisation points =
    match Surface.find_safe_spot points with
    | Ok _ => Ok points
    | Raise e => Raise e
    end.
Proof.
  split; [exact append_app|]. split; [apply extend_app|]. split.
  - unfold SurfaceOps.init. apply extend_app.
  - unfold codingame_initilisation.
    change (fold_left SurfaceOps.append points (SurfaceOps.init []))
      with (SurfaceOps.extend (SurfaceOps.init []) points).
    rewrite extend_app. reflexivity.
Qed.

Lemma setitem_getitem_same_error self i v :
  (exists s, SurfaceOps.setitem self i v = Ok s) <->
  (exists p, SurfaceOps.getitem self i = Ok p).
Proof.
  unfold SurfaceOps.setitem, SurfaceOps.getitem.
  destruct (SurfaceOps.position (List.length self) i) as [k|] eqn:Hpos.
  - apply position_bound in Hpos.
    destruct (nth_error self k) as [p|] eqn:Hnth.
    + split; intros _; eexists; reflexivity.
    + apply nth_error_None in Hnth. lia.
  - split; intros [? H]; discriminate H.
Qed.

(** X6. [__setitem__] succeeds exactly where [__getitem__] does and raises
    [IndexError] elsewhere; afterwards the surface has the same length, the
    new point is read back at the index, and every index that denotes another
    position reads what it read before. *)
Theorem setitem_getitem (self : Surface.t) (i : Z) (v : Point) :
  ((exists s, SurfaceOps.setitem self i v = Ok s) <->
   (exists p, SurfaceOps.getitem self i = Ok p)) /\
  (forall e, SurfaceOps.setitem self i v = Raise e -> e = IndexError) /\
  (forall s, SurfaceOps.setitem self i v = Ok s ->
     SurfaceOps.len s = SurfaceOps.len self /\
     SurfaceOps.getitem s i = Ok v /\
     forall j, SurfaceOps.position (List.length self) j <>
               SurfaceOps.position (List.length self) i ->
               SurfaceOps.getitem s j = SurfaceOps.getitem self j).
Proof.
  split; [apply setitem_getitem_same_error|]. split.
  - unfold SurfaceOps.setitem.
    destruct (SurfaceOps.position (List.length self) i); [discriminate|].
    intros e [= <-]. reflexivity.
  - intros s. unfold SurfaceOps.setitem.
    destruct (SurfaceOps.position (List.length self) i) as [k|] eqn:Hpos; [|discriminate].
    intros Hs. apply Ok_inj in Hs. subst s.
    pose proof (position_bound _ _ _ Hpos) as Hk.
    assert (Hlen : List.length (firstn k self ++ v :: skipn (S k) self) = List.length self).
    { rewrite length_app. cbn [List.length]. rewrite firstn_length_le by lia.
      rewrite length_skipn. lia. }
    split; [unfold SurfaceOps.len; rewrite Hlen; reflexivity|]. split.
    + unfold SurfaceOps.getitem. rewrite Hlen, Hpos.
      rewrite nth_error_replaced by assumption. rewrite Nat.eqb_refl. reflexivity.
    + intros j Hj. unfold SurfaceOps.getitem. rewrite Hlen.
      destruct (SurfaceOps.position (List.length self) j) as [m|]; [|reflexivity].
      rewrite nth_error_replaced by assumption.
      replace (Nat.eqb m k) with false; [reflexivity|].
      symmetry. apply Nat.eqb_neq. intros ->. apply Hj. reflexivity.
Qed.

Lemma setitem_getitem_witness :
  exists s, SurfaceOps.setitem terrain_example (-1) (mkPoint 2000 100) = Ok s /\
            SurfaceOps.getitem s (-1) = Ok (mkPoint 2000 100) /\
            SurfaceOps.getitem s 0 = SurfaceOps.getitem terrain_example 0.
Proof.
  eexists. split; [reflexivity|].
  destruct (proj2 (proj2 (setitem_getitem terrain_example (-1) (mkPoint 2000 100)))
              _ eq_refl) as (_ & Hget & Hother).
  split; [exact Hget|]. apply Hother. cbn. discriminate.
Defined.

(** X7. [__delitem__] raises [IndexError] exactly where [__getitem__] does;
    otherwise the surface gets one shorter, the points before the deleted
    position keep their index and the points after it move down by one. *)
Theorem delitem_shifts (self : Surface.t) (i : Z) :
  ((exists s, SurfaceOps.delitem self i = Ok s) <->
   (exists p, SurfaceOps.getitem self i = Ok p)) /\
  (forall e, SurfaceOps.delitem self i = Raise e -> e = IndexError) /\
  (forall s k, SurfaceOps.delitem self i = Ok s ->
     SurfaceOps.position (List.length self) i = Some k ->
     SurfaceOps.len s = SurfaceOps.len self - 1 /\
     (forall j, 0 <= j < Z.of_nat k ->
        SurfaceOps.getitem s j = SurfaceOps.getitem self j) /\
     (forall j, Z.of_nat k <= j ->
        SurfaceOps.getitem s j = SurfaceOps.getitem self (j + 1))).
Proof.
  split; [|split].
  - unfold SurfaceOps.delitem, SurfaceOps.getitem.
    destruct (SurfaceOps.position (List.length self) i) as [k|] eqn:Hpos.
    + apply position_bound in Hpos.
      destruct (nth_error self k) as [p|] eqn:Hnth.
      * split; intros _; eexists; reflexivity.
      * apply nth_error_None in Hnth. lia.
    + split; intros [? H]; discriminate H.
  - unfold SurfaceOps.delitem.
    destruct (SurfaceOps.position (List.length self) i); [discriminate|].
    intros e [= <-]. reflexivity.
  - intros s k. unfold SurfaceOps.delitem. intros Hdel Hpos. rewrite Hpos in Hdel.
    apply Ok_inj in Hdel. subst s. pose proof (position_bound _ _ _ Hpos) as Hk.
    split; [|split].
    + unfold SurfaceOps.len. rewrite length_app, firstn_length_le by lia.
      rewrite length_skipn. lia.
    + intros j Hj. rewrite !getitem_nth by lia. rewrite nth_error_deleted by assumption.
      replace (Z.to_nat j <? k)%nat with true by (symmetry; apply Nat.ltb_lt; lia).
      reflexivity.
    + intros j Hj. rewrite !getitem_nth by lia. rewrite nth_error_deleted by assumption.
      replace (Z.to_nat j <? k)%nat with false by (symmetry; apply Nat.ltb_ge; lia).
      replace (Z.to_nat (j + 1)) with (S (Z.to_nat j)) by lia. reflexivity.
Qed.

Lemma delitem_shifts_witness :
  exists s, SurfaceOps.delitem terrain_example 0 = Ok s /\
            SurfaceOps.len s = 2 /\
            SurfaceOps.getitem s 0 = SurfaceOps.getitem terrain_example 1.
Proof.
  eexists. split; [reflexivity|].
  destruct (proj2 (proj2 (delitem_shifts terrain_example 0)) _ 0%nat eq_refl eq_refl)
    as (Hlen & _ & Hafter).
  split; [exact Hlen|]. apply (Hafter 0). cbn. lia.
Defined.

(** ** What a rotation method can do *)

Lemma py_mul_int_gain n sg mg eg :
  eg < 0 -> Zpos mg <= 2 ^ (- eg - 1) ->
  match py_mul (VInt n) (VFloat (S754_finite sg mg eg)) with
  | Ok v => is_number v = true
  | Raise e => e = OverflowError /\ ~ in_float_range n
  end.
Proof.
  intros Heg Hmg. unfold py_mul.
  destruct (F64.of_int n) as [f|e] eqn:Hf.
  - cbn [is_number]. apply representable_is_finite.
    apply mul_representable; try assumption.
    apply (of_int_representable n). assumption.
  - split.
    + revert Hf. unfold F64.of_int.
      destruct (binary_normalize F64.prec F64.emax n 0 false); try discriminate.
      intros [= <-]. reflexivity.
    + intros Hn. destruct (of_int_ok n Hn) as [f Hf']. congruence.
Qed.

Lemma py_mul_0_5_result n :
  match py_mul (VInt n) (VFloat F64.lit_0_5) with
  | Ok v => is_number v = true
  | Raise e => e = OverflowError /\ ~ in_float_range n
  end.
Proof. apply py_mul_int_gain; [lia|]. apply Z.leb_le. vm_compute. reflexivity. Qed.

Lemma py_mul_0_04_result n :
  match py_mul (VInt n) (VFloat F64.lit_0_04) with
  | Ok v => is_number v = true
  | Raise e => e = OverflowError /\ ~ in_float_range n
  end.
Proof. apply py_mul_int_gain; [lia|]. apply Z.leb_le. vm_compute. reflexivity. Qed.

(** off the zone, [move_towards_landing_spot] returns a number and leaves
    the lander alone, or raises [OverflowError] on an offset out of range *)
Lemma move_towards_result l :
  LanderM.is_over_landing_spot l = false ->
  match StopOverLandingSpotM.move_towards_landing_spot l with
  | Ok (v, l') => is_number v = true /\ l' = l
  | Raise e => e = OverflowError /\ ~ telemetry_in_range l
  end.
Proof.
  intros Hover.
  unfold StopOverLandingSpotM.move_towards_landing_spot, bind at 1, get at 1.
  unfold LanderM.distance_to_landing_spot, StopOverLandingSpotM.scale.
  destruct (LanderM.is_left_of_landing_spot l) eqn:Hleft.
  - destruct (speed_h (now l) <? StopOverLandingSpotM.MAX_SPEED).
    + unfold bind, lift.
      pose proof (py_mul_0_04_result (x (now l) - left (landing_spot l))) as H.
      destruct (py_mul _ _) as [v|e].
      * split; [assumption|reflexivity].
      * destruct H as [-> Hn]. split; [reflexivity|].
        intros (_ & Hl & _). apply Hn. exact Hl.
    + destruct (speed_h (now l) >? StopOverLandingSpotM.MAX_SPEED); split; reflexivity.
  - destruct (over_or_beside l Hover) as [H|H]; [congruence|]. rewrite H.
    destruct (speed_h (now l) >? - StopOverLandingSpotM.MAX_SPEED).
    + unfold bind, lift.
      pose proof (py_mul_0_04_result (x (now l) - right (landing_spot l))) as Hm.
      destruct (py_mul _ _) as [v|e].
      * split; [assumption|reflexivity].
      * destruct Hm as [-> Hn]. split; [reflexivity|].
        intros (_ & _ & Hr). apply Hn. exact Hr.
    + destruct (speed_h (now l) <? - StopOverLandingSpotM.MAX_SPEED); split; reflexivity.
Qed.

(** the braking product, as a rotation result on a lander [l'] *)
Lemma braking_result l l' :
  now l' = now l ->
  match lift (py_mul (VInt (speed_h (now l))) (VFloat F64.lit_0_5)) l' with
  | Ok (v, l2) => is_number v = true /\ l2 = l'
  | Raise e => e = OverflowError /\ ~ telemetry_in_range l
  end.
Proof.
  intros _. unfold lift.
  pose proof (py_mul_0_5_result (speed_h (now l))) as H.
  destruct (py_mul _ _) as [v|e].
  - split; [assumption|reflexivity].
  - destruct H as [-> Hn]. split; [reflexivity|].
    intros (Hh & _). apply Hn. exact Hh.
Qed.

Lemma descend_value_number l :
  is_number (if LanderM.altitude l >? 100 then VInt (speed_h (now l)) else VInt 0) = true.
Proof. destruct (LanderM.altitude l >? 100); reflexivity. Qed.

(** the result of the approach state's rotation, whatever its [next_state] *)
Lemma approach_result k ns l :
  match update_rotation (S (S k)) (mkState StopOverLandingSpot ns) l with
  | Ok (v, l') =>
      is_number v = true /\
      (l' = l \/ exists s1, l' = assign_state (mkState StopOverLandingSpot ns) s1 l)
  | Raise e =>
      (e = OverflowError /\ ~ telemetry_in_range l) \/
      (e = TypeError /\ ns <> Some Descend) \/
      (e = NameError /\ global_lander l = Unbound /\ 20 < Z.abs (speed_h (now l)))
  end.
Proof.
  destruct (abs_le_or_gt (speed_h (now l)) 20) as [Hslow|Hfast].
  - destruct (LanderM.is_over_landing_spot l) eqn:Hover.
    + rewrite approach_rotation_over by assumption.
      destruct ns as [[]|]; cbn [call1 new1].
      * rewrite hover_rotation. split; [reflexivity|]. right. eexists. reflexivity.
      * right. left. split; [reflexivity|discriminate].
      * rewrite descend_rotation. split; [apply descend_value_number|].
        right. eexists. reflexivity.
      * right. left. split; [reflexivity|discriminate].
      * right. left. split; [reflexivity|discriminate].
    + rewrite approach_rotation_off by assumption.
      pose proof (move_towards_result l Hover) as H.
      destruct (StopOverLandingSpotM.move_towards_landing_spot l) as [[v l']|e].
      * destruct H as [Hn ->]. split; [assumption|left; reflexivity].
      * left. assumption.
  - rewrite approach_rotation_fast by assumption.
    destruct (global_lander l) eqn:Hg.
    + right. right. split; [reflexivity|]. split; [reflexivity|exact Hfast].
    + pose proof (braking_result l
                    (assign_state (mkState StopOverLandingSpot ns) BleedSpeed l)
                    eq_refl) as H.
      destruct (lift _ _) as [[v l']|e].
      * destruct H as [Hn ->]. split; [assumption|]. right. eexists. reflexivity.
      * left. assumption.
Qed.

(** the result of any state's rotation method *)
Lemma rotation_result k s l :
  match update_rotation (S (S (S k))) s l with
  | Ok (v, l') => is_number v = true /\ at_most_two_assignments s l l'
  | Raise e =>
      (e = OverflowError /\ ~ telemetry_in_range l) \/
      (e = TypeError /\ ~ runnable s) \/
      (e = NameError /\ global_lander l = Unbound /\ delegates s l)
  end.
Proof.
  destruct s as [[] ns].
  - rewrite hover_rotation. split; [reflexivity|left; reflexivity].
  - pose proof (approach_result (S k) ns l) as H.
    destruct (update_rotation _ _ l) as [[v l']|e].
    + destruct H as [Hn [->|[s1 ->]]]; (split; [assumption|]).
      * left. reflexivity.
      * right. left. eexists. reflexivity.
    + destruct H as [H|[[-> Hns]|(-> & Hg & Hfast)]]; [left; assumption| |].
      * right. left. split; [reflexivity|]. exact Hns.
      * right. right. split; [reflexivity|]. split; [exact Hg|].
        split; [reflexivity|exact Hfast].
  - rewrite descend_rotation. split; [apply descend_value_number|left; reflexivity].
  - destruct (abs_le_or_gt (speed_h (now l)) 20) as [Hslow|Hfast].
    + rewrite stop_rotation_slow by assumption.
      destruct ns as [[]|]; cbn [call2 new2].
      * rewrite hover_rotation. split; [reflexivity|].
        right. left. eexists. reflexivity.
      * pose proof (approach_result k (Some Descend)
                      (assign_state (mkState Stop (Some StopOverLandingSpot))
                         (mkState StopOverLandingSpot (Some Descend)) l)) as H.
        destruct (update_rotation _ _ _) as [[v l']|e].
        -- destruct H as [Hn [->|[s1 ->]]]; (split; [assumption|]).
           ++ right. left. eexists. reflexivity.
           ++ right. right. do 2 eexists. reflexivity.
        -- destruct H as [[-> Hr]|[[_ Hns]|(_ & _ & Hfast)]];
             [|congruence|cbn [now assign_state] in Hfast; lia].
           left. split; [reflexivity|exact Hr].
      * rewrite descend_rotation. split.
        -- match goal with |- is_number (if ?b then _ else _) = true => destruct b end;
             reflexivity.
        -- right. left. eexists. reflexivity.
      * rewrite stop_rotation_slow by assumption. cbn [call2].
        right. left. split; [reflexivity|].
        unfold runnable. cbn [klass next_state]. intros [H|[H|H]]; discriminate H.
      * right. left. split; [reflexivity|].
        unfold runnable. cbn [klass next_state]. intros [H|[H|H]]; discriminate H.
    + rewrite stop_rotation_fast by assumption.
      pose proof (braking_result l l eq_refl) as H.
      destruct (lift _ _) as [[v l']|e].
      * destruct H as [Hn ->]. split; [assumption|left; reflexivity].
      * left. assumption.
Qed.

Lemma approach_depth k ns l :
  update_rotation (S (S (S k))) (mkState StopOverLandingSpot ns) l =
  update_rotation 2 (mkState StopOverLandingSpot ns) l.
Proof.
  destruct (abs_le_or_gt (speed_h (now l)) 20) as [Hslow|Hfast].
  - destruct (LanderM.is_over_landing_spot l) eqn:Hover.
    + rewrite !approach_rotation_over by assumption.
      destruct ns as [[]|]; cbn [call1 new1]; reflexivity.
    + rewrite !approach_rotation_off by assumption. reflexivity.
  - rewrite !approach_rotation_fast by assumption. reflexivity.
Qed.

Lemma rotation_depth k s l :
  update_rotation (S (S (S k))) s l = update_rotation 3 s l.
Proof.
  destruct s as [[] ns].
  - rewrite !hover_rotation. reflexivity.
  - rewrite approach_depth, (approach_depth 0). reflexivity.
  - rewrite !descend_rotation. reflexivity.
  - destruct (abs_le_or_gt (speed_h (now l)) 20) as [Hslow|Hfast].
    + rewrite !stop_rotation_slow by assumption.
      destruct ns as [[]|]; cbn [call2 new2]; try reflexivity.
      destruct k as [|k]; [reflexivity|]. apply approach_depth.
    + rewrite !stop_rotation_fast by assumption. reflexivity.
Qed.

(** X8. The rotation methods call each other to a bounded depth: for every
    state and every lander three nested calls give the result of any deeper
    allowance, which is never a [RecursionError], and a call assigns
    [lander.state] at most twice.  Two nested calls are not enough: the
    braking state over the zone at safe speed needs the third. *)
Theorem rotation_nesting_bounded (k : nat) (s : State) (l : Lander) :
  update_rotation (3 + k) s l = update_rotation 3 s l /\
  update_rotation (3 + k) s l <> Raise RecursionError /\
  (forall v l', update_rotation (3 + k) s l = Ok (v, l') ->
     at_most_two_assignments s l l') /\
  update_rotation 2 BleedSpeed (lander_in BleedSpeed zone_0_1000 telemetry_edge_20)
    = Raise RecursionError.
Proof.
  cbn [Nat.add]. split; [apply rotation_depth|].
  pose proof (rotation_result k s l) as H.
  split; [|split; [|reflexivity]].
  - destruct (update_rotation (S (S (S k))) s l) as [[v l']|e]; [discriminate|].
    destruct H as [[-> _]|[[-> _]|[-> _]]]; discriminate.
  - intros v l' Heq. rewrite Heq in H. apply H.
Qed.

Lemma rotation_nesting_bounded_witness :
  let l := lander_in BleedSpeed zone_0_1000 telemetry_edge_20 in
  at_most_two_assignments BleedSpeed l
    (assign_state ApproachZone DescendState (assign_state BleedSpeed ApproachZone l)).
Proof.
  intros l.
  apply (proj1 (proj2 (proj2 (rotation_nesting_bounded 0 BleedSpeed l))) (VInt 20)).
  reflexivity.
Defined.

(** ** Which exceptions a tick can raise *)

Lemma control_result k l :
  match control (S (S (S k))) l with
  | Ok (c, l') =>
      (powerLevel c = 3 \/ powerLevel c = 4) /\ -90 <= rotationDeg c <= 90 /\
      at_most_two_assignments (state l) l l'
  | Raise e =>
      (e = OverflowError /\ ~ telemetry_in_range l) \/
      (e = TypeError /\ ~ runnable (state l)) \/
      (e = NameError /\ global_lander l = Unbound /\ delegates (state l) l)
  end.
Proof.
  rewrite control_eq. pose proof (rotation_result k (state l) l) as H.
  destruct (update_rotation (S (S (S k))) (state l) l) as [[v l1]|e]; [|exact H].
  destruct H as [Hnum Hassign].
  destruct (py_round_total v Hnum) as [n ->].
  destruct (update_power_3_or_4 (state l1) l1) as (p & -> & Hp).
  cbn [powerLevel rotationDeg]. split; [unfold clamp; lia|].
  split; [apply clamp_bounds; lia|assumption].
Qed.

(** X9. A tick raises nothing but [OverflowError], [TypeError] and
    [NameError], whatever the state and the telemetry.  [OverflowError] needs
    an integer too large for a double: a horizontal speed or an offset to a
    zone edge of magnitude 2^1023 or more.  [TypeError] needs a state that is
    not runnable: a [Stop] whose [next_state] is [None] or [Stop], or a
    [StopOverLandingSpot] whose [next_state] is not [Descend].  [NameError] is
    raised exactly when an approach state is active, the horizontal speed is
    beyond 20 and the module-level name [lander] is unbound: the state then
    calls [transition_to_stop], which reads that name.  From a state of the
    automatic sequence no [TypeError] is raised, and where the name is bound
    the only exception is [OverflowError]. *)
Theorem tick_exceptions (k : nat) (t : Telemetry) (l : Lander) :
  (forall e, tick (3 + k) t l = Raise e ->
     (e = OverflowError /\ ~ record_in_range (landing_spot l) t) \/
     (e = TypeError /\ ~ runnable (state l)) \/
     e = NameError) /\
  (tick (3 + k) t l = Raise NameError <->
   global_lander l = Unbound /\ klass (state l) = StopOverLandingSpot /\
   20 < Z.abs (speed_h t)) /\
  (forall e, tick (3 + k) t l = Raise e -> in_sequence (state l) ->
     e = OverflowError \/ e = NameError) /\
  (forall e, tick (3 + k) t l = Raise e -> in_sequence (state l) ->
     global_lander l = BoundToLander -> e = OverflowError).
Proof.
  unfold tick. cbn [Nat.add].
  pose proof (control_result k (LanderM.update_state t l)) as Hr.
  split; [|split; [|split]].
  - intros e H. rewrite H in Hr.
    destruct Hr as [Hr|[Hr|[-> _]]]; [left; exact Hr|right; left; exact Hr|].
    right. right. reflexivity.
  - split.
    + intros H. rewrite H in Hr.
      destruct Hr as [[Hr _]|[[Hr _]|(_ & Hg & Hk & Hfast)]]; try discriminate Hr.
      split; [exact Hg|]. split; [exact Hk|exact Hfast].
    + intros (Hg & Hk & Hfast). apply control_unbound; [|exact Hg].
      split; [exact Hk|exact Hfast].
  - intros e H Hin. rewrite H in Hr.
    destruct Hr as [[-> _]|[[_ Hrun]|[-> _]]];
      [left; reflexivity| |right; reflexivity].
    exfalso. apply Hrun. apply in_sequence_runnable. exact Hin.
  - intros e H Hin Hg. rewrite H in Hr.
    destruct Hr as [[-> _]|[[_ Hrun]|(_ & Hu & _)]]; [reflexivity| |].
    + exfalso. apply Hrun. apply in_sequence_runnable. exact Hin.
    + cbn [global_lander LanderM.update_state] in Hu. congruence.
Qed.

Lemma tick_exceptions_witness :
  let huge := mkTelemetry 0 2000 (2 ^ 1024) 0 500 0 0 in
  ~ record_in_range zone_0_1000 huge /\
  tick 3 telemetry_too_fast (lander_in ApproachZone zone_0_1000 telemetry_500_left)
    = Raise NameError.
Proof.
  intros huge. split.
  - destruct (proj1 (tick_exceptions 0 huge
                       (bound_as_global (lander_in ApproachZone zone_0_1000 huge)))
                OverflowError ltac:(vm_compute; reflexivity))
      as [[_ H]|[[H _]|H]]; [exact H|discriminate H|discriminate H].
  - apply (proj2 (proj1 (proj2 (tick_exceptions 0 telemetry_too_fast
             (lander_in ApproachZone zone_0_1000 telemetry_500_left))))).
    split; [reflexivity|]. split; [reflexivity|]. cbn. lia.
Defined.

(** X10. Every command has power level 3 or 4: no state ever asks for less
    thrust than 3, whatever the telemetry. *)
Theorem power_is_3_or_4 (d : nat) (l : Lander) (c : Command) (l' : Lander) :
  control d l = Ok (c, l') -> powerLevel c = 3 \/ powerLevel c = 4.
Proof.
  intros H. destruct (control_ok_inv d l c l' H) as (v & n & p & _ & _ & _ & Hp & ->).
  exact Hp.
Qed.

Lemma power_is_3_or_4_witness :
  let l := lander_in ApproachZone zone_1000_2000 telemetry_500_left in
  powerLevel (mkCommand (-20) 3) = 3 \/ powerLevel (mkCommand (-20) 3) = 4.
Proof.
  intros l.
  apply (power_is_3_or_4 3 l (mkCommand (-20) 3) l).
  vm_compute. reflexivity.
Defined.

(** ** What a tick keeps *)

Lemma at_most_two_frame s l l' :
  at_most_two_assignments s l l' ->
  now l' = now l /\ old l' = old l /\ landing_spot l' = landing_spot l /\
  exists new, transitions l' = transitions l ++ new /\ (List.length new <= 2)%nat.
Proof.
  intros [->|[[s1 ->]|(s1 & s2 & ->)]];
    (split; [reflexivity|split; [reflexivity|split; [reflexivity|]]]).
  - exists []. rewrite app_nil_r. split; [reflexivity|cbn; lia].
  - eexists. split; [reflexivity|cbn; lia].
  - eexists. cbn [assign_state transitions]. rewrite <- app_assoc.
    split; [reflexivity|cbn; lia].
Qed.

Lemma tick_frame k t l c l' :
  tick (S (S (S k))) t l = Ok (c, l') ->
  now l' = t /\ old l' = Some (now l) /\ landing_spot l' = landing_spot l /\
  exists new, transitions l' = transitions l ++ new /\ (List.length new <= 2)%nat.
Proof.
  unfold tick. intros H.
  pose proof (control_result k (LanderM.update_state t l)) as Hr. rewrite H in Hr.
  destruct Hr as (_ & _ & Hassign).
  apply at_most_two_frame in Hassign. exact Hassign.
Qed.

(** X11. A run over telemetry records answers each record with one command,
    never changes the landing spot, keeps the last record as the current
    telemetry and the one before as the previous, and assigns [lander.state]
    at most twice per record. *)
Theorem run_frame (k : nat) (ts : list Telemetry) :
  forall l cs l', run (3 + k) ts l = Ok (cs, l') ->
  List.length cs = List.length ts /\
  landing_spot l' = landing_spot l /\
  now l' = last ts (now l) /\
  (forall t, ts = [t] -> old l' = Some (now l)) /\
  exists new, transitions l' = transitions l ++ new /\
              (List.length new <= 2 * List.length ts)%nat.
Proof.
  cbn [Nat.add]. induction ts as [|t ts IH]; intros l cs l' Hrun.
  - injection Hrun as <- <-.
    split; [reflexivity|]. split; [reflexivity|]. split; [reflexivity|]. split.
    + intros t H. discriminate H.
    + exists []. rewrite app_nil_r. split; [reflexivity|cbn; lia].
  - cbn [run] in Hrun. unfold bind at 1 in Hrun.
    destruct (tick (S (S (S k))) t l) as [[c l1]|e] eqn:Htick; [|discriminate].
    unfold bind at 1 in Hrun.
    destruct (run (S (S (S k))) ts l1) as [[cs1 l2]|e] eqn:Hrest; [|discriminate].
    injection Hrun as <- <-.
    destruct (tick_frame k t l c l1 Htick) as (Hn1 & Ho1 & Hs1 & tr1 & Htr1 & Hlen1).
    destruct (IH l1 cs1 l2 Hrest) as (Hlen & Hs2 & Hn2 & _ & tr2 & Htr2 & Hlen2).
    split; [cbn; lia|]. split; [congruence|]. split; [|split].
    + rewrite Hn2, Hn1. destruct ts as [|t' ts']; [reflexivity|].
      change (last (t' :: ts') t = last (t' :: ts') (now l)).
      clear. revert t'. induction ts' as [|q r IHr]; intros t'; [reflexivity|].
      change (last (q :: r) t = last (q :: r) (now l)). apply IHr.
    + intros t0 H. injection H as Ht Hts. subst t0 ts.
      cbn [run] in Hrest. injection Hrest as _ <-. exact Ho1.
    + exists (tr1 ++ tr2). rewrite Htr2, Htr1, app_assoc.
      split; [reflexivity|]. rewrite length_app. cbn [List.length]. lia.
Qed.

Lemma run_frame_witness :
  List.length slow_journey_commands = List.length slow_journey /\
  landing_spot slow_journey_end = zone_0_1000.
Proof.
  destruct (run_frame 0 slow_journey
              (lander_in (approach_zone None) zone_0_1000 telemetry_500_left)
              slow_journey_commands slow_journey_end ltac:(vm_compute; reflexivity))
    as (Hlen & Hspot & _).
  split; [exact Hlen|exact Hspot].
Defined.

(** ** The states without transitions *)

(** X12. [Hover] never transitions and never raises: for every telemetry
    record, of whatever magnitude, the tick leaves the state as it is, assigns
    nothing, and commands the horizontal speed clamped into [-90, 90] with
    power 3 when the vertical speed is positive and 4 otherwise. *)
Theorem hover_tick (d : nat) (t : Telemetry) (l : Lander) :
  klass (state l) = Hover ->
  tick (S d) t l =
  Ok (mkCommand (clamp (-90) 90 (speed_h t)) (if speed_v t >? 0 then 3 else 4),
      LanderM.update_state t l).
Proof.
  intros Hk. unfold tick. rewrite control_eq.
  set (l1 := LanderM.update_state t l).
  assert (Hs : exists ns, state l1 = mkState Hover ns).
  { unfold l1. cbn [state LanderM.update_state].
    destruct (state l) as [cls ns]. cbn in Hk. subst cls. eexists. reflexivity. }
  destruct Hs as [ns Hs]. rewrite Hs, hover_rotation. cbn [py_round].
  rewrite Hs. unfold update_power. cbn [klass].
  unfold HoverM.update_power, bind, get, ret.
  change (speed_v (now l1)) with (speed_v t).
  change (speed_h (now l1)) with (speed_h t).
  destruct (speed_v t >? 0); reflexivity.
Qed.

Lemma hover_tick_witness :
  tick 1 (mkTelemetry 500 2000 120 5 500 0 0)
    (lander_in (mkState Hover None) zone_0_1000 telemetry_too_fast)
  = Ok (mkCommand 90 3,
        LanderM.update_state (mkTelemetry 500 2000 120 5 500 0 0)
          (lander_in (mkState Hover None) zone_0_1000 telemetry_too_fast)).
Proof.
  apply (hover_tick 0 (mkTelemetry 500 2000 120 5 500 0 0)
           (lander_in (mkState Hover None) zone_0_1000 telemetry_too_fast)).
  reflexivity.
Defined.

(** X13. [Descend] never raises and never transitions: for every telemetry
    record the tick commands the horizontal speed clamped into [-90, 90]
    while the altitude is above 100 and rotation 0 from altitude 100 down;
    the power is 4 when the altitude is below 100 off the zone or when the
    vertical speed is below -18, and 3 otherwise (so 3 at exactly -18 and at
    altitude exactly 100). *)
Theorem descend_tick_command (d : nat) (t : Telemetry) (l : Lander) :
  klass (state l) = Descend ->
  let l1 := LanderM.update_state t l in
  tick (S d) t l =
  Ok (mkCommand
        (if LanderM.altitude l1 >? 100 then clamp (-90) 90 (speed_h t) else 0)
        (if ((LanderM.altitude l1 <? 100) && negb (LanderM.is_over_landing_spot l1))
            || (speed_v t <? -18)
         then 4 else 3),
      l1).
Proof.
  intros Hk l1. unfold tick. fold l1. rewrite control_eq.
  assert (Hs : exists ns, state l1 = mkState Descend ns).
  { unfold l1. cbn [state LanderM.update_state].
    destruct (state l) as [cls ns]. cbn in Hk. subst cls. eexists. reflexivity. }
  destruct Hs as [ns Hs]. rewrite Hs, descend_rotation.
  assert (Hpow : update_power (state l1) l1 =
                 Ok (VInt (if ((LanderM.altitude l1 <? 100)
                                 && negb (LanderM.is_over_landing_spot l1))
                              || (speed_v t <? -18) then 4 else 3), l1)).
  { rewrite Hs. unfold update_power. cbn [klass].
    unfold DescendM.update_power, DescendM.is_not_safe_to_land,
      DescendM.descent_is_too_fast, DescendM.LANDING_ALTITUDE,
      DescendM.SAFE_DESCENT_SPEED, bind, get, ret.
    change (speed_v (now l1)) with (speed_v t).
    destruct ((LanderM.altitude l1 <? 100) && negb (LanderM.is_over_landing_spot l1));
      [reflexivity|].
    destruct (speed_v t <? -18); reflexivity. }
  change (speed_h (now l1)) with (speed_h t).
  destruct (LanderM.altitude l1 >? 100); cbn [py_round]; rewrite Hpow.
  - destruct (((LanderM.altitude l1 <? 100) && negb (LanderM.is_over_landing_spot l1))
              || (speed_v t <? -18)); reflexivity.
  - destruct (((LanderM.altitude l1 <? 100) && negb (LanderM.is_over_landing_spot l1))
              || (speed_v t <? -18)); reflexivity.
Qed.

Lemma descend_tick_command_witness :
  tick 1 (mkTelemetry 500 200 7 (-18) 300 0 3)
    (lander_in DescendState zone_0_1000 telemetry_too_fast)
  = Ok (mkCommand 0 3,
        LanderM.update_state (mkTelemetry 500 200 7 (-18) 300 0 3)
          (lander_in DescendState zone_0_1000 telemetry_too_fast)).
Proof.
  apply (descend_tick_command 0 (mkTelemetry 500 200 7 (-18) 300 0 3)
           (lander_in DescendState zone_0_1000 telemetry_too_fast)).
  reflexivity.
Defined.

(** ** The approach state and the braking state, tick by tick *)

Lemma approach_depth_2 j l :
  update_rotation (S (S j)) ApproachZone l = update_rotation 2 ApproachZone l.
Proof. destruct j as [|j]; [reflexivity|apply approach_depth]. Qed.

Lemma outcome_of_rotations d1 d2 l1 l2 :
  match update_rotation d1 (state l1) l1, update_rotation d2 (state l2) l2 with
  | Ok (v1, a), Ok (v2, b) => v1 = v2 /\ same_vehicle a b
  | Raise e1, Raise e2 => e1 = e2
  | _, _ => False
  end ->
  outcome (control d1 l1) = outcome (control d2 l2).
Proof.
  intros H. rewrite !control_eq.
  destruct (update_rotation d1 (state l1) l1) as [[v1 a]|e1],
           (update_rotation d2 (state l2) l2) as [[v2 b]|e2]; try contradiction.
  - destruct H as [<- Hsim].
    destruct (py_round v1) as [n|e]; [|reflexivity].
    destruct (agree_update_power a b Hsim) as (p & -> & ->).
    cbn [outcome]. destruct Hsim as (_ & _ & -> & _). reflexivity.
  - subst e2. reflexivity.
Qed.

(** the state a tick from the approach or the braking state ends in *)
Lemma state_after_tick k l c l' :
  state l = ApproachZone \/ state l = BleedSpeed ->
  control (S (S (S k))) l = Ok (c, l') ->
  state l' = if StopOverLandingSpotM.is_too_fast l then BleedSpeed
             else if LanderM.is_over_landing_spot l then DescendState
             else ApproachZone.
Proof.
  intros Hs Hc. destruct (control_ok_inv _ _ _ _ Hc) as (v & n & p & Hrot & _).
  assert (Happroach : forall j l0,
    update_rotation (S (S j)) ApproachZone l0 = Ok (v, l') ->
    state l0 = ApproachZone ->
    state l' = if StopOverLandingSpotM.is_too_fast l0 then BleedSpeed
               else if LanderM.is_over_landing_spot l0 then DescendState
               else ApproachZone).
  { intros j l0. rewrite approach_zone_rotation.
    destruct (StopOverLandingSpotM.is_too_fast l0).
    - destruct (global_lander l0); [discriminate|].
      intros H _. apply lift_inv in H. destruct H as [_ ->]. reflexivity.
    - destruct (LanderM.is_over_landing_spot l0).
      + intros [= _ <-] _. reflexivity.
      + intros H Hst. apply move_towards_frame in H. subst l'. exact Hst. }
  destruct Hs as [Hs|Hs]; rewrite Hs in Hrot.
  - apply (Happroach (S k) l Hrot Hs).
  - rewrite bleed_speed_rotation in Hrot.
    destruct (StopOverLandingSpotM.is_too_fast l) eqn:Hf.
    + apply lift_inv in Hrot. destruct Hrot as [_ ->]. exact Hs.
    + pose proof (Happroach k (assign_state BleedSpeed ApproachZone l) Hrot eq_refl) as H.
      change (StopOverLandingSpotM.is_too_fast (assign_state BleedSpeed ApproachZone l))
        with (StopOverLandingSpotM.is_too_fast l) in H.
      rewrite Hf in H. exact H.
Qed.

(** X14. The approach state and the braking state behave alike wherever the
    approach state does not need the module-level name [lander]: with the name
    bound to the vehicle, or at [|hSpeed| <= 20], a tick from either gives the
    same command and the same state afterwards (or the same exception).  With
    the name unbound and [|hSpeed| > 20] they differ: the approach state
    raises [NameError] and the braking state returns its product.  The state
    after a tick that returns is a function of the telemetry alone: the
    braking state when [|hSpeed| > 20], else [Descend] over the zone and the
    approach state off it. *)
Theorem approach_and_brake_agree (k : nat) (l : Lander) :
  (global_lander l = BoundToLander \/ Z.abs (speed_h (now l)) <= 20 ->
   outcome (control (3 + k) (with_state ApproachZone l)) =
   outcome (control (3 + k) (with_state BleedSpeed l))) /\
  (global_lander l = Unbound -> 20 < Z.abs (speed_h (now l)) ->
   control (3 + k) (with_state ApproachZone l) = Raise NameError /\
   update_rotation (3 + k) BleedSpeed (with_state BleedSpeed l) =
     lift (py_mul (VInt (speed_h (now l))) (VFloat StopM.scale))
          (with_state BleedSpeed l)) /\
  (forall c l', state l = ApproachZone \/ state l = BleedSpeed ->
     control (3 + k) l = Ok (c, l') ->
     state l' = if StopOverLandingSpotM.is_too_fast l then BleedSpeed
                else if LanderM.is_over_landing_spot l then DescendState
                else ApproachZone).
Proof.
  cbn [Nat.add]. split; [|split; [|intros c l'; apply state_after_tick]].
  - intros Hcan. apply outcome_of_rotations.
    change (state (with_state ApproachZone l)) with ApproachZone.
    change (state (with_state BleedSpeed l)) with BleedSpeed.
    rewrite bleed_speed_rotation.
    change (StopOverLandingSpotM.is_too_fast (with_state BleedSpeed l))
      with (StopOverLandingSpotM.is_too_fast l).
    destruct (StopOverLandingSpotM.is_too_fast l) eqn:Hf.
    + rewrite approach_zone_rotation.
      change (StopOverLandingSpotM.is_too_fast (with_state ApproachZone l))
        with (StopOverLandingSpotM.is_too_fast l).
      rewrite Hf.
      change (global_lander (with_state ApproachZone l)) with (global_lander l).
      destruct Hcan as [Hg|Hslow];
        [|apply too_fast_iff in Hf; exfalso; lia].
      rewrite Hg. unfold lift.
      change (speed_h (now (with_state ApproachZone l))) with (speed_h (now l)).
      change (speed_h (now (with_state BleedSpeed l))) with (speed_h (now l)).
      destruct (py_mul (VInt (speed_h (now l))) (VFloat F64.lit_0_5)); [|reflexivity].
      split; [reflexivity|]. repeat split.
    + rewrite (approach_depth_2 (S k)), (approach_depth_2 k).
      apply (agree_update_rotation 2 ApproachZone). repeat split.
  - intros Hg Hfast. split.
    + apply control_unbound; [|exact Hg]. split; [reflexivity|exact Hfast].
    + apply (stop_rotation_fast (S (S k)) (Some StopOverLandingSpot)
               (with_state BleedSpeed l)).
      exact Hfast.
Qed.

Lemma approach_and_brake_agree_witness :
  let l := lander_in BleedSpeed zone_0_1000 telemetry_edge_20 in
  outcome (control 3 (with_state ApproachZone l)) =
  outcome (control 3 (with_state BleedSpeed l)) /\
  control 3 (with_state ApproachZone
               (lander_in BleedSpeed zone_0_1000 telemetry_edge_21)) = Raise NameError /\
  state (assign_state ApproachZone DescendState (assign_state BleedSpeed ApproachZone l))
  = DescendState.
Proof.
  intros l. split; [|split].
  - apply (proj1 (approach_and_brake_agree 0 l)). right. cbn. lia.
  - apply (proj1 (proj2 (approach_and_brake_agree 0
             (lander_in BleedSpeed zone_0_1000 telemetry_edge_21))));
      [reflexivity|cbn; lia].
  - apply (proj2 (proj2 (approach_and_brake_agree 0 l)) (mkCommand 20 3)
             (assign_state ApproachZone DescendState
                (assign_state BleedSpeed ApproachZone l))).
    + right. reflexivity.
    + vm_compute. reflexivity.
Defined.

Lemma rotation_settles k l v l1 :
  in_sequence (state l) ->
  update_rotation (S (S (S k))) (state l) l = Ok (v, l1) ->
  update_rotation (S (S (S k))) (state l1) l1 = Ok (v, l1).
Proof.
  assert (Happroach : forall j l0,
    update_rotation (S (S j)) ApproachZone l0 = Ok (v, l1) ->
    state l0 = ApproachZone ->
    update_rotation (S (S (S k))) (state l1) l1 = Ok (v, l1)).
  { intros j l0. rewrite approach_zone_rotation.
    destruct (StopOverLandingSpotM.is_too_fast l0) eqn:Hf.
    - destruct (global_lander l0); [discriminate|].
      intros H _. apply lift_inv in H. destruct H as [Hmul ->].
      change (state (assign_state ApproachZone BleedSpeed l0)) with BleedSpeed.
      rewrite bleed_speed_rotation.
      change (StopOverLandingSpotM.is_too_fast (assign_state ApproachZone BleedSpeed l0))
        with (StopOverLandingSpotM.is_too_fast l0).
      rewrite Hf.
      change (speed_h (now (assign_state ApproachZone BleedSpeed l0)))
        with (speed_h (now l0)).
      rewrite Hmul. reflexivity.
    - destruct (LanderM.is_over_landing_spot l0) eqn:Ho.
      + intros [= <- <-] _.
        change (state (assign_state ApproachZone DescendState l0)) with DescendState.
        unfold DescendState. rewrite descend_rotation. reflexivity.
      + intros H Hst. pose proof (move_towards_frame _ _ _ H) as ->.
        rewrite Hst, approach_zone_rotation, Hf, Ho. exact H. }
  intros [Hs|[Hs|Hs]] Hrot; rewrite Hs in Hrot.
  - apply (Happroach (S k) l Hrot Hs).
  - rewrite bleed_speed_rotation in Hrot.
    destruct (StopOverLandingSpotM.is_too_fast l) eqn:Hf.
    + pose proof Hrot as Hl. apply lift_inv in Hl. destruct Hl as [_ ->].
      rewrite Hs, bleed_speed_rotation, Hf. exact Hrot.
    + apply (Happroach k (assign_state BleedSpeed ApproachZone l) Hrot eq_refl).
  - unfold DescendState in Hrot. rewrite descend_rotation in Hrot.
    injection Hrot as <- <-. rewrite Hs. unfold DescendState.
    rewrite descend_rotation. reflexivity.
Qed.

(** X15. A tick resolves its transitions completely: after a tick from a
    state of the automatic sequence, a second tick on the unchanged lander
    returns the same command, assigns no state and leaves the lander exactly
    as the first tick left it. *)
Theorem tick_settles (k : nat) (l : Lander) (c : Command) (l1 : Lander) :
  in_sequence (state l) ->
  control (3 + k) l = Ok (c, l1) ->
  control (3 + k) l1 = Ok (c, l1).
Proof.
  cbn [Nat.add]. intros Hin Hc.
  destruct (control_ok_inv _ _ _ _ Hc) as (v & n & p & Hrot & Hn & Hpow & Hp & ->).
  apply (rotation_settles k l v l1 Hin) in Hrot.
  rewrite control_eq, Hrot, Hn, Hpow.
  replace (clamp 0 4 p) with p by (unfold clamp; lia). reflexivity.
Qed.

Lemma tick_settles_witness :
  let l := lander_in ApproachZone zone_0_1000 telemetry_edge_20 in
  control 3 (assign_state ApproachZone DescendState l)
  = Ok (mkCommand 20 3, assign_state ApproachZone DescendState l).
Proof.
  intros l. apply (tick_settles 0 l).
  - left. reflexivity.
  - vm_compute. reflexivity.
Defined.

(** X16. The power of a tick is decided by the state that is active after
    the rotation has been computed, not by the state the tick started in.
    From the approach state: when it delegates to the braking state
    ([|hSpeed| > 20]) the power follows [Hover], 3 for a positive vertical
    speed and 4 otherwise; when it hands over to [Descend] the power is 4 for
    a vertical speed below -18 and 3 otherwise; only when it stays does its
    own rule apply (4 below altitude 100, else 3 for a vertical speed above
    -18 and 4 otherwise). *)
Theorem approach_tick_power (k : nat) (l : Lander) (c : Command) (l' : Lander) :
  state l = ApproachZone ->
  control (3 + k) l = Ok (c, l') ->
  powerLevel c =
    if StopOverLandingSpotM.is_too_fast l then
      if speed_v (now l) >? 0 then 3 else 4
    else if LanderM.is_over_landing_spot l then
      if speed_v (now l) <? -18 then 4 else 3
    else if LanderM.altitude l <? 100 then 4
    else if speed_v (now l) >? -18 then 3 else 4.
Proof.
  cbn [Nat.add]. intros Hs Hc.
  destruct (control_ok_inv _ _ _ _ Hc) as (v & n & p & Hrot & _ & Hpow & _ & ->).
  cbn [powerLevel]. rewrite Hs, approach_zone_rotation in Hrot.
  destruct (StopOverLandingSpotM.is_too_fast l).
  - destruct (global_lander l); [discriminate Hrot|].
    apply lift_inv in Hrot. destruct Hrot as [_ ->].
    revert Hpow. unfold update_power. cbn [state assign_state klass BleedSpeed].
    unfold StopM.update_power, HoverM.update_power, bind, get, ret. cbn [now assign_state].
    destruct (speed_v (now l) >? 0); intros [= <-]; reflexivity.
  - destruct (LanderM.is_over_landing_spot l) eqn:Ho.
    + injection Hrot as _ <-.
      revert Hpow. unfold update_power. cbn [state assign_state klass DescendState].
      unfold DescendM.update_power, DescendM.is_not_safe_to_land,
        DescendM.descent_is_too_fast, DescendM.SAFE_DESCENT_SPEED, bind, get, ret.
      change (LanderM.is_over_landing_spot (assign_state ApproachZone DescendState l))
        with (LanderM.is_over_landing_spot l).
      rewrite Ho, andb_false_r. cbn [now assign_state].
      destruct (speed_v (now l) <? -18); intros [= <-]; reflexivity.
    + apply move_towards_frame in Hrot. subst l'.
      revert Hpow. rewrite Hs, power_of_approach, Ho, andb_true_r.
      intros [= <-]. reflexivity.
Qed.

Lemma approach_tick_power_witness :
  let l := lander_in ApproachZone zone_0_1000 telemetry_falling_18 in
  powerLevel (mkCommand 0 3) = 3 /\ update_power ApproachZone l = Ok (VInt 4, l).
Proof.
  intros l. split; [|reflexivity].
  apply (approach_tick_power 0 l (mkCommand 0 3)
           (assign_state ApproachZone DescendState l) eq_refl).
  vm_compute. reflexivity.
Defined.



(** ** Direction and size of the steering command *)

Lemma binary_round_sign s m e :
  match binary_round F64.prec F64.emax s m e with
  | S754_zero s' | S754_infinity s' | S754_finite s' _ _ => s' = s
  | S754_nan => False
  end.
Proof.
  unfold binary_round.
  destruct (shl_align m e (fexp F64.prec F64.emax (Z.pos (digits2_pos m) + e))) as [mz ez].
  pose proof (binary_round_aux_shape s (Zpos mz) ez loc_Exact ltac:(lia)) as H.
  destruct (binary_round_aux F64.prec F64.emax s (Z.pos mz) ez loc_Exact);
    try exact H. apply H.
Qed.

(** the sign bit of a converted int *)
Lemma of_int_sign n f :
  F64.of_int n = Ok f ->
  match f with
  | S754_zero _ => True
  | S754_finite s _ _ => if s then n < 0 else 0 < n
  | _ => False
  end.
Proof.
  unfold F64.of_int, binary_normalize. destruct n as [|m|m].
  - intros [= <-]. exact I.
  - pose proof (binary_round_sign false m 0) as H.
    destruct (binary_round F64.prec F64.emax false m 0); try discriminate;
      intros [= <-]; try contradiction; try exact I. subst. lia.
  - pose proof (binary_round_sign true m 0) as H.
    destruct (binary_round F64.prec F64.emax true m 0); try discriminate;
      intros [= <-]; try contradiction; try exact I. subst. lia.
Qed.

Lemma round_half_even_div_nonneg m d : 0 <= m -> 0 < d -> 0 <= F64.round_half_even_div m d.
Proof.
  intros Hm Hd. unfold F64.round_half_even_div.
  assert (0 <= m / d) by (apply Z.div_pos; lia).
  destruct (2 * (m mod d) ?= d); [destruct (Z.even (m / d))| |]; lia.
Qed.

(** the sign of a rounded double follows its sign bit *)
Lemma round_sign f r :
  F64.round f = Ok r ->
  match f with
  | S754_finite true _ _ => r <= 0
  | S754_finite false _ _ => 0 <= r
  | _ => r = 0
  end.
Proof.
  destruct f as [s|s| |s m [|p|p]]; unfold F64.round; try discriminate;
    intros Hr; apply Ok_inj in Hr; subst r.
  - reflexivity.
  - destruct s; cbn [cond_Zopp]; lia.
  - assert (Hc : 0 < Z.pow_pos 2 p) by (rewrite Z.pow_pos_fold; pow2_pos).
    assert (0 <= Z.pos m * Z.pow_pos 2 p) by (apply Z.mul_nonneg_nonneg; lia).
    destruct s; cbn [cond_Zopp]; lia.
  - assert (Hc : 0 < Z.pow_pos 2 p) by (rewrite Z.pow_pos_fold; pow2_pos).
    pose proof (round_half_even_div_nonneg (Zpos m) (Z.pow_pos 2 p) ltac:(lia) Hc).
    destruct s; cbn [cond_Zopp]; lia.
Qed.

(** an int times a positive gain, rounded, keeps the sign of the int *)
Lemma product_sign n mg eg v r :
  py_mul (VInt n) (VFloat (S754_finite false mg eg)) = Ok v ->
  py_round v = Ok r ->
  (n <= 0 -> r <= 0) /\ (0 <= n -> 0 <= r).
Proof.
  unfold py_mul. destruct (F64.of_int n) as [f|] eqn:Hf; [|discriminate].
  intros [= <-]. cbn [py_round]. intros Hr.
  pose proof (of_int_sign n f Hf) as Hsign.
  destruct f as [s|s| |s m e]; try contradiction.
  - cbn in Hr. injection Hr as <-. lia.
  - unfold F64.mul, SFmul in Hr.
    pose proof (binary_round_aux_shape (xorb s false) (Zpos (m * mg)) (e + eg) loc_Exact
                  ltac:(lia)) as Hshape.
    pose proof (round_sign _ _ Hr) as Hround.
    rewrite xorb_false_r in *.
    destruct (binary_round_aux F64.prec F64.emax s (Z.pos (m * mg)) (e + eg) loc_Exact)
      as [s'|s'| |s' m' e']; try contradiction.
    + lia.
    + lia.
    + destruct Hshape as [-> _]. destruct s; lia.
Qed.

(** X18. The approach state steers toward the zone: at safe speed, left of
    the zone the rotation command is never positive and right of the zone it
    is never negative, whatever the distance. *)
Theorem approach_steers_toward_zone (k : nat) (l : Lander) (c : Command) (l' : Lander) :
  state l = ApproachZone ->
  Z.abs (speed_h (now l)) <= 20 ->
  control (3 + k) l = Ok (c, l') ->
  (x (now l) < left (landing_spot l) -> rotationDeg c <= 0) /\
  (left (landing_spot l) <= x (now l) -> right (landing_spot l) < x (now l) ->
   0 <= rotationDeg c).
Proof.
  cbn [Nat.add]. intros Hs Hh Hc.
  destruct (control_ok_inv _ _ _ _ Hc) as (v & n & p & Hrot & Hn & _ & _ & ->).
  cbn [rotationDeg]. rewrite Hs in Hrot. unfold ApproachZone in Hrot.
  assert (Hclamp : (n <= 0 -> clamp (-90) 90 n <= 0) /\ (0 <= n -> 0 <= clamp (-90) 90 n))
    by (unfold clamp; lia).
  split.
  - intros Hleft.
    assert (Hl : LanderM.is_left_of_landing_spot l = true) by (apply Z.ltb_lt; assumption).
    assert (Ho : LanderM.is_over_landing_spot l = false)
      by (apply andb_false_iff; left; apply Z.leb_gt; assumption).
    rewrite approach_rotation_off in Hrot by assumption.
    revert Hrot. unfold StopOverLandingSpotM.move_towards_landing_spot, bind at 1, get at 1.
    unfold LanderM.distance_to_landing_spot. rewrite Hl.
    destruct (speed_h (now l) <? StopOverLandingSpotM.MAX_SPEED).
    + unfold bind, lift, StopOverLandingSpotM.scale, F64.lit_0_04.
      destruct (py_mul _ _) as [w|] eqn:Hw; [|discriminate].
      intros [= <- _]. apply Hclamp.
      apply (proj1 (product_sign _ _ _ _ _ Hw Hn)). lia.
    + destruct (speed_h (now l) >? StopOverLandingSpotM.MAX_SPEED) eqn:Hgt.
      * rewrite Z.gtb_ltb in Hgt. apply Z.ltb_lt in Hgt.
        unfold StopOverLandingSpotM.MAX_SPEED in Hgt. exfalso. lia.
      * intros [= <- _]. injection Hn as <-.
        unfold StopOverLandingSpotM.HOVER_ANGLE, clamp. lia.
  - intros Hnotleft Hright.
    assert (Hl : LanderM.is_left_of_landing_spot l = false) by (apply Z.ltb_ge; assumption).
    assert (Hr : LanderM.is_right_of_landing_spot l = true)
      by (unfold LanderM.is_right_of_landing_spot; rewrite Z.gtb_ltb;
          apply Z.ltb_lt; assumption).
    assert (Ho : LanderM.is_over_landing_spot l = false)
      by (apply andb_false_iff; right; apply Z.leb_gt; assumption).
    rewrite approach_rotation_off in Hrot by assumption.
    revert Hrot. unfold StopOverLandingSpotM.move_towards_landing_spot, bind at 1, get at 1.
    unfold LanderM.distance_to_landing_spot. rewrite Hl, Hr.
    destruct (speed_h (now l) >? - StopOverLandingSpotM.MAX_SPEED).
    + unfold bind, lift, StopOverLandingSpotM.scale, F64.lit_0_04.
      destruct (py_mul _ _) as [w|] eqn:Hw; [|discriminate].
      intros [= <- _]. apply Hclamp.
      apply (proj2 (product_sign _ _ _ _ _ Hw Hn)). lia.
    + destruct (speed_h (now l) <? - StopOverLandingSpotM.MAX_SPEED) eqn:Hlt.
      * apply Z.ltb_lt in Hlt. unfold StopOverLandingSpotM.MAX_SPEED in Hlt.
        exfalso. lia.
      * intros [= <- _]. injection Hn as <-.
        unfold StopOverLandingSpotM.HOVER_ANGLE, clamp. lia.
Qed.

Lemma approach_steers_toward_zone_witness :
  let l := lander_in ApproachZone zone_1000_2000 telemetry_500_left in
  rotationDeg (mkCommand (-20) 3) <= 0.
Proof.
  intros l.
  apply (proj1 (approach_steers_toward_zone 0 l (mkCommand (-20) 3) l eq_refl
                  ltac:(cbn; lia) ltac:(vm_compute; reflexivity))).
  cbn. lia.
Defined.

Lemma In_Z_range n : forall lo d,
  lo <= d < lo + Z.of_nat n -> In d (Z_range lo n).
Proof.
  induction n as [|n IH]; intros lo d Hd; [lia|].
  cbn [Z_range]. destruct (Z.eq_dec lo d) as [->|Hne]; [left; reflexivity|].
  right. apply IH. lia.
Qed.

Lemma products_checked :
  forallb product_0_04_rounds_well (Z_range (-10000) (Z.to_nat 20001)) = true.
Proof. vm_compute. reflexivity. Qed.

Lemma product_0_04_in_range d :
  -10000 <= d <= 10000 ->
  exists v, py_mul (VInt d) (VFloat F64.lit_0_04) = Ok v /\
            py_round v = Ok (nearest_25th d).
Proof.
  intros Hd.
  assert (Hin : In d (Z_range (-10000) (Z.to_nat 20001)))
    by (apply In_Z_range; rewrite Z2Nat.id by lia; lia).
  pose proof (proj1 (forallb_forall _ _) products_checked d Hin) as H.
  unfold product_0_04_rounds_well in H.
  destruct (py_mul (VInt d) (VFloat F64.lit_0_04)) as [v|]; [|discriminate].
  destruct (py_round v) as [n|] eqn:Hn; [|discriminate].
  apply Z.eqb_eq in H. subst n. exists v. split; [reflexivity|exact Hn].
Qed.

Lemma nearest_25th_is_nearest d : 2 * Z.abs (25 * nearest_25th d - d) < 25.
Proof.
  unfold nearest_25th.
  pose proof (Z.div_mod (2 * d + 25) 50 ltac:(lia)) as Hdm.
  pose proof (Z.mod_pos_bound (2 * d + 25) 50 ltac:(lia)) as Hr.
  set (q := (2 * d + 25) / 50) in *. set (r := (2 * d + 25) mod 50) in *.
  clearbody q r. lia.
Qed.

(** X19. Within 10000 of a zone edge (the map is 7000 wide) the rounding
    error of the product with 0.04 never shows: in the approach state at safe
    speed the rotation command is the nearest integer to offset / 25, clamped
    into [-90, 90], where the offset is [x - left] left of the zone (with
    [hSpeed < 20]) and [x - right] right of it (with [hSpeed > -20]); that
    nearest integer is unique, offset / 25 never being half way. *)
Theorem steering_command (k : nat) (l : Lander) :
  state l = ApproachZone ->
  Z.abs (speed_h (now l)) <= 20 ->
  (x (now l) < left (landing_spot l) -> left (landing_spot l) - 10000 <= x (now l) ->
   speed_h (now l) < 20 ->
   exists p, control (3 + k) l =
     Ok (mkCommand (clamp (-90) 90 (nearest_25th (x (now l) - left (landing_spot l)))) p, l)) /\
  (left (landing_spot l) <= x (now l) -> right (landing_spot l) < x (now l) ->
   x (now l) <= right (landing_spot l) + 10000 ->
   -20 < speed_h (now l) ->
   exists p, control (3 + k) l =
     Ok (mkCommand (clamp (-90) 90 (nearest_25th (x (now l) - right (landing_spot l)))) p, l)) /\
  (forall d, 2 * Z.abs (25 * nearest_25th d - d) < 25).
Proof.
  cbn [Nat.add]. intros Hs Hh. split; [|split; [|exact nearest_25th_is_nearest]].
  - intros Hleft Hnear Hspeed.
    assert (Hl : LanderM.is_left_of_landing_spot l = true) by (apply Z.ltb_lt; assumption).
    assert (Ho : LanderM.is_over_landing_spot l = false)
      by (apply andb_false_iff; left; apply Z.leb_gt; assumption).
    destruct (product_0_04_in_range (x (now l) - left (landing_spot l)) ltac:(lia))
      as (v & Hv & Hn).
    assert (Hrot : update_rotation (S (S (S k))) (state l) l = Ok (v, l)).
    { rewrite Hs. unfold ApproachZone. rewrite approach_rotation_off by assumption.
      unfold StopOverLandingSpotM.move_towards_landing_spot, bind at 1, get at 1.
      unfold LanderM.distance_to_landing_spot. rewrite Hl.
      replace (speed_h (now l) <? StopOverLandingSpotM.MAX_SPEED) with true
        by (symmetry; apply Z.ltb_lt; exact Hspeed).
      unfold bind, lift, StopOverLandingSpotM.scale. rewrite Hv. reflexivity. }
    destruct (control_from_rotation _ _ _ _ _ Hrot Hn) as (p & _ & _ & Hc).
    exists p. exact Hc.
  - intros Hnotleft Hright Hnear Hspeed.
    assert (Hl : LanderM.is_left_of_landing_spot l = false) by (apply Z.ltb_ge; assumption).
    assert (Hr : LanderM.is_right_of_landing_spot l = true)
      by (unfold LanderM.is_right_of_landing_spot; rewrite Z.gtb_ltb;
          apply Z.ltb_lt; assumption).
    assert (Ho : LanderM.is_over_landing_spot l = false)
      by (apply andb_false_iff; right; apply Z.leb_gt; assumption).
    destruct (product_0_04_in_range (x (now l) - right (landing_spot l)) ltac:(lia))
      as (v & Hv & Hn).
    assert (Hrot : update_rotation (S (S (S k))) (state l) l = Ok (v, l)).
    { rewrite Hs. unfold ApproachZone. rewrite approach_rotation_off by assumption.
      unfold StopOverLandingSpotM.move_towards_landing_spot, bind at 1, get at 1.
      unfold LanderM.distance_to_landing_spot. rewrite Hl, Hr.
      replace (speed_h (now l) >? - StopOverLandingSpotM.MAX_SPEED) with true
        by (symmetry; rewrite Z.gtb_ltb; apply Z.ltb_lt; exact Hspeed).
      unfold bind, lift, StopOverLandingSpotM.scale. rewrite Hv. reflexivity. }
    destruct (control_from_rotation _ _ _ _ _ Hrot Hn) as (p & _ & _ & Hc).
    exists p. exact Hc.
Qed.

Lemma steering_command_witness :
  let l := lander_in ApproachZone zone_0_1000
             (mkTelemetry 4000 2000 (-10) 0 500 0 0) in
  exists p, control 3 l = Ok (mkCommand 90 p, l).
Proof.
  intros l.
  apply (proj1 (proj2 (steering_command 0 l eq_refl ltac:(cbn; lia)))); cbn; lia.
Defined.

(** ** The braking command *)

Lemma mul_compare_scale a b c : 0 < c -> (a * c ?= b * c) = (a ?= b).
Proof.
  intros Hc. destruct (Z.compare_spec a b) as [E|E|E].
  - subst. apply Z.compare_refl.
  - apply Z.compare_lt_iff. nia.
  - apply Z.compare_gt_iff. nia.
Qed.

Lemma round_half_even_div_scale m d c :
  0 <= m -> 0 < d -> 0 < c ->
  F64.round_half_even_div (m * c) (d * c) = F64.round_half_even_div m d.
Proof.
  intros Hm Hd Hc. unfold F64.round_half_even_div.
  rewrite Z.div_mul_cancel_r by lia.
  rewrite Z.mul_mod_distr_r by lia.
  replace (2 * (m mod d * c)) with (2 * (m mod d) * c) by ring.
  rewrite mul_compare_scale by assumption. reflexivity.
Qed.

Lemma round_half_even_Z_2 h :
  let n := round_half_even_Z h 2 in
  Z.abs (h - 2 * n) <= 1 /\ (Z.abs (h - 2 * n) = 1 -> Z.even n = true).
Proof.
  unfold round_half_even_Z. destruct (0 <=? h) eqn:Hsign.
  - apply Z.leb_le in Hsign.
    destruct (round_half_even_div_spec h 2 Hsign ltac:(lia)) as [H1 H2].
    cbv zeta in H1, H2 |- *. split; [lia|]. intros H. apply H2. lia.
  - apply Z.leb_gt in Hsign.
    destruct (round_half_even_div_spec (- h) 2 ltac:(lia) ltac:(lia)) as [H1 H2].
    cbv zeta in H1, H2 |- *. split; [lia|]. intros H.
    rewrite Z.even_opp. apply H2. lia.
Qed.

(** [h * 0.5], rounded, is h / 2 rounded to even *)
Lemma braking_round h :
  Z.abs h < 2 ^ 53 ->
  exists f, py_mul (VInt h) (VFloat F64.lit_0_5) = Ok (VFloat f) /\
            F64.round f = Ok (round_half_even_Z h 2).
Proof.
  intros Hh. unfold py_mul.
  destruct (of_int_exact h Hh) as [[-> ->]|(s & mz & ez & -> & Hd & He & Hv)].
  - eexists. split; reflexivity.
  - rewrite mul_half by lia. eexists. split; [reflexivity|].
    unfold F64.round. destruct (ez - 1) as [|p|p] eqn:Hp; try lia.
    f_equal.
    assert (Hc : 0 < 2 ^ (- ez)) by pow2_pos.
    assert (Hpow : Z.pow_pos 2 p = 2 * 2 ^ (- ez)).
    { rewrite Z.pow_pos_fold. replace (Z.pos p) with (1 + - ez) by lia.
      rewrite Z.pow_add_r, Z.pow_1_r by lia. reflexivity. }
    rewrite Hpow. unfold round_half_even_Z.
    destruct s; cbn [cond_Zopp] in Hv |- *.
    + assert (Hneg : h < 0) by nia.
      replace (0 <=? h) with false by (symmetry; apply Z.leb_gt; lia).
      replace (Z.pos mz) with (- h * 2 ^ (- ez)) by lia.
      rewrite round_half_even_div_scale by lia. reflexivity.
    + assert (Hpos : 0 < h) by nia.
      replace (0 <=? h) with true by (symmetry; apply Z.leb_le; lia).
      rewrite Hv. rewrite round_half_even_div_scale by lia. reflexivity.
Qed.

(** X20. The braking state, while [|hSpeed| > 20] (and below 2^53): the tick
    assigns nothing, the rotation command is hSpeed / 2 rounded to the nearest
    integer, to the even one for an odd speed, and clamped into [-90, 90]; it
    has the sign of the speed and magnitude at least 10, and it is saturated
    at 90 exactly from speed 179 on (-90 from -179 down).  The power is 3 for
    a positive vertical speed and 4 otherwise. *)
Theorem braking_command (k : nat) (l : Lander) :
  klass (state l) = Stop ->
  20 < Z.abs (speed_h (now l)) -> Z.abs (speed_h (now l)) < 2 ^ 53 ->
  let h := speed_h (now l) in
  let n := round_half_even_Z h 2 in
  control (3 + k) l =
    Ok (mkCommand (clamp (-90) 90 n) (if speed_v (now l) >? 0 then 3 else 4), l) /\
  Z.abs (h - 2 * n) <= 1 /\
  (Z.abs (h - 2 * n) = 1 -> Z.even n = true) /\
  (0 < h -> 10 <= clamp (-90) 90 n) /\
  (h < 0 -> clamp (-90) 90 n <= -10) /\
  (clamp (-90) 90 n = 90 <-> 179 <= h) /\
  (clamp (-90) 90 n = -90 <-> h <= -179).
Proof.
  intros Hk Hfast Hsmall h n.
  destruct (round_half_even_Z_2 h) as [Hnear Htie]. fold n in Hnear, Htie.
  assert (Heven : Z.abs (h - 2 * n) = 1 -> exists q, n = 2 * q).
  { intros H. apply Z.even_spec. apply Htie. exact H. }
  split; [|split; [exact Hnear|split; [exact Htie|]]].
  - cbn [Nat.add]. destruct (braking_round h Hsmall) as (f & Hmul & Hround).
    destruct (state l) as [cls ns] eqn:Hs. cbn in Hk. subst cls.
    rewrite control_eq, Hs, stop_rotation_fast by assumption.
    fold h. rewrite Hmul. cbn [lift py_round]. rewrite Hround. fold n.
    rewrite Hs. unfold update_power. cbn [klass].
    unfold StopM.update_power, HoverM.update_power, bind, get, ret.
    destruct (speed_v (now l) >? 0); reflexivity.
  - fold h in Hfast. unfold clamp.
    split; [intros; lia|]. split; [intros; lia|].
    split; split; intros H.
    + lia.
    + destruct (Z.eq_dec h 179) as [E|E]; [|lia].
      destruct (Z.eq_dec (Z.abs (h - 2 * n)) 1) as [E1|E1]; [|lia].
      destruct (Heven E1) as [q Hq]. lia.
    + lia.
    + destruct (Z.eq_dec h (-179)) as [E|E]; [|lia].
      destruct (Z.eq_dec (Z.abs (h - 2 * n)) 1) as [E1|E1]; [|lia].
      destruct (Heven E1) as [q Hq]. lia.
Qed.

Lemma braking_command_witness :
  let l := lander_in BleedSpeed zone_0_1000 (mkTelemetry 1500 2000 179 0 500 0 0) in
  control 3 l = Ok (mkCommand 90 4, l).
Proof.
  intros l.
  exact (proj1 (braking_command 0 l eq_refl ltac:(cbn; lia) ltac:(vm_compute; reflexivity))).
Defined.

(** ** Position relative to the landing spot *)

(** X21. For a landing spot with [left <= right] (every spot that
    [find_safe_spot] returns) the vehicle is in exactly one of the three
    positions, and [distance_to_landing_spot] tells which: a negative int to
    the left, a positive int to the right, [None] over the spot, where it is
    the offset from the nearer edge. *)
Theorem position_trichotomy (l : Lander) :
  left (landing_spot l) <= right (landing_spot l) ->
  (exists p, position_of l = Some p) /\
  (position_of l = Some LeftOf <->
     exists d, LanderM.distance_to_landing_spot l = Ok (VInt d) /\ d < 0) /\
  (position_of l = Some RightOf <->
     exists d, LanderM.distance_to_landing_spot l = Ok (VInt d) /\ 0 < d) /\
  (position_of l = Some Over <-> LanderM.distance_to_landing_spot l = Ok VNone) /\
  (forall d, LanderM.distance_to_landing_spot l = Ok (VInt d) ->
     Z.abs d = Z.min (Z.abs (x (now l) - left (landing_spot l)))
                     (Z.abs (x (now l) - right (landing_spot l)))).
Proof.
  intros Hspot.
  unfold position_of, LanderM.distance_to_landing_spot,
    LanderM.is_left_of_landing_spot, LanderM.is_over_landing_spot,
    LanderM.is_right_of_landing_spot.
  destruct (x (now l) <? left (landing_spot l)) eqn:Hl;
    [apply Z.ltb_lt in Hl | apply Z.ltb_ge in Hl];
    (destruct (x (now l) >? right (landing_spot l)) eqn:Hr;
      [apply Z.gtb_lt in Hr | rewrite Z.gtb_ltb in Hr; apply Z.ltb_ge in Hr]);
    (destruct (left (landing_spot l) <=? x (now l)) eqn:Hl';
      [apply Z.leb_le in Hl' | apply Z.leb_gt in Hl']);
    (destruct (x (now l) <=? right (landing_spot l)) eqn:Hr';
      [apply Z.leb_le in Hr' | apply Z.leb_gt in Hr']);
    try lia; cbn [andb].
  - split; [eexists; reflexivity|]. split; [|split; [|split]].
    + split; [intros _; eexists; split; [reflexivity|lia] | reflexivity].
    + split; [discriminate|]. intros (d & Hd & Hpos).
      apply Ok_inj in Hd. injection Hd as Hd. lia.
    + split; discriminate.
    + intros d Hd. apply Ok_inj in Hd. injection Hd as Hd. lia.
  - split; [eexists; reflexivity|]. split; [|split; [|split]].
    + split; [discriminate|]. intros (d & Hd & Hneg).
      apply Ok_inj in Hd. injection Hd as Hd. lia.
    + split; [intros _; eexists; split; [reflexivity|lia] | reflexivity].
    + split; discriminate.
    + intros d Hd. apply Ok_inj in Hd. injection Hd as Hd. lia.
  - split; [eexists; reflexivity|]. split; [|split; [|split]].
    + split; [discriminate|]. intros (d & Hd & _). discriminate Hd.
    + split; [discriminate|]. intros (d & Hd & _). discriminate Hd.
    + split; reflexivity.
    + intros d Hd. discriminate Hd.
Qed.

Lemma position_trichotomy_witness :
  position_of (lander_in ApproachZone zone_1000_2000 telemetry_500_left) = Some LeftOf.
Proof.
  apply (proj2 (proj1 (proj2
    (position_trichotomy (lander_in ApproachZone zone_1000_2000 telemetry_500_left)
       ltac:(vm_compute; discriminate))))).
  exists (-500). split; [reflexivity|lia].
Defined.

(** ** Start-up *)

Lemma main_setup_unfold points :
  main_setup points =
    match Surface.find_safe_spot points with
    | Ok _ => Raise TypeError
    | Raise e => Raise e
    end.
Proof.
  unfold main_setup, codingame_initilisation.
  change (fold_left SurfaceOps.append points (SurfaceOps.init []))
    with (SurfaceOps.extend (SurfaceOps.init []) points).
  rewrite extend_app. change (SurfaceOps.init [] ++ points) with points.
  destruct (Surface.find_safe_spot points) as [spot|e] eqn:E; [|reflexivity].
  rewrite E. reflexivity.
Qed.

(** X22. The start-up of the script never reaches the game loop: on parsed
    points it raises [IndexError] exactly when there are none, the exception
    of [find_safe_spot] exactly when there are some and no adjacent pair
    qualifies, and [TypeError], from [StopOverLandingSpot(lander)], exactly
    when a landing spot exists. *)
Theorem main_setup_raises (points : list Point) :
  (forall r, main_setup points <> Ok r) /\
  (main_setup points = Raise IndexError <-> points = []) /\
  (main_setup points = Raise (Exception "Failed to find safe spot") <->
     points <> [] /\ no_qualifying points) /\
  (main_setup points = Raise TypeError <->
     exists i a b, first_qualifying points i a b).
Proof.
  rewrite main_setup_unfold.
  destruct points as [|old_spot rest].
  - cbn. split; [discriminate|]. split; [tauto|]. split.
    + split; [discriminate|]. intros [H _]. contradiction.
    + split; [discriminate|]. intros (i & a & b & [Ha _] & _).
      destruct i; discriminate Ha.
  - change (Surface.find_safe_spot (old_spot :: rest))
      with (Surface.find_safe_spot_loop old_spot rest).
    pose proof (find_safe_spot_loop_spec rest old_spot) as Hspec.
    destruct (Surface.find_safe_spot_loop old_spot rest) as [spot|e].
    + destruct Hspec as (i & a & b & Hfirst & ->). cbn.
      split; [discriminate|]. split; [split; discriminate|]. split.
      * split; [discriminate|]. intros [_ Hnone]. exfalso.
        destruct Hfirst as (Hadj & Hq & _). exact (Hnone i a b Hadj Hq).
      * split; [|reflexivity]. intros _. exists i, a, b. exact Hfirst.
    + destruct Hspec as [-> Hnone].
      split; [discriminate|]. split; [split; discriminate|]. split.
      * split; [|reflexivity]. intros _. split; [discriminate|exact Hnone].
      * split; [discriminate|]. intros (i & a & b & Hadj & Hq & _).
        exfalso. exact (Hnone i a b Hadj Hq).
Qed.

(** ** What a tick reads *)

















